(** * openapi-transformer-cli: the transformer pipeline

    A shallow embedding of the pipeline of [index.js].  The repository holds
    the entry point in several historical variants; the two ES-module
    variants are embedded in full, each in a module of its own:

    - [WithConfig]: the ES-module variant with [--config] support
      ([readConfigFile], [createTransformersForConfig], [applyTransformers],
      and the [option:config] / [option:transformer] handlers);
    - [CliOnly]: the ES-module variant that takes transformers from
      [--transformer] flags only ([loadTransformer] and the transform loop
      that attributes a failure to its transformer).

    What Node.js and the libraries provide (Commander, the stream contents,
    [JSON.parse], js-yaml, module resolution, [import()], [path], [url]) is
    taken as a parameter of the sections below. *)

From Stdlib Require Import String Ascii List ZArith Bool Arith Lia.
From Stdlib Require Import SpecFloat DecimalString.
Import ListNotations.
Open Scope string_scope.
Set Warnings "-register-all".

(* ================================================================== *)
(** ** JavaScript values that flow through the pipeline *)

(** A document, or a part of one: a value produced by [JSON.parse] or
    js-yaml, or returned by a transformer.  A number is an IEEE double; an
    object is its list of own properties in [Object.keys] order (a parsed
    object has no duplicate key).  [JUndefined] is [undefined]: what js-yaml
    gives for an empty document, and what a transformer that returns nothing
    gives. *)
Inductive json : Type :=
| JNull
| JBool (b : bool)
| JNumber (n : spec_float)
| JString (s : string)
| JArray (items : list json)
| JObject (props : list (string * json))
| JUndefined.

(** An [Error] object: its [name] ("Error", "TypeError", ...) and its
    [message].  Values thrown in the pipeline are taken to be such objects,
    which is what the code's [err.message += ...] is written for.
    [ownToString] is the string a [toString] method of the object's own
    class gives when that method does not consult [message], as that of
    js-yaml's [YAMLException]; [None] for an object that inherits
    [Error.prototype.toString]. *)
Record Error : Type := mkErrorObject {
  name : string;
  message : string;
  ownToString : option string
}.

(** An error object of a class without a [toString] of its own. *)
Definition mkError (name message : string) : Error :=
  mkErrorObject name message None.

Definition newError (msg : string) : Error := mkError "Error" msg.
Definition newTypeError (msg : string) : Error := mkError "TypeError" msg.

(** js-yaml's [YAMLException]: its message is the reason followed by the
    mark, here [reason]; its [toString] renders the name, the reason and
    the mark, whatever [message] has become since. *)
Definition newYAMLException (reason : string) : Error :=
  mkErrorObject "YAMLException" reason (Some ("YAMLException: " ++ reason)).

(** [err.message += suffix] *)
Definition appendMessage (e : Error) (suffix : string) : Error :=
  mkErrorObject (name e) (message e ++ suffix) (ownToString e).

(** [`${err}`]: the object's own [toString], or [Error.prototype.toString]. *)
Definition Error_toString (e : Error) : string :=
  match ownToString e with
  | Some rendered => rendered
  | None =>
      if String.eqb (name e) "" then message e
      else if String.eqb (message e) "" then name e
      else name e ++ ": " ++ message e
  end.

(** The outcome of an expression that may throw, and of a settled promise:
    [Ok] is a normal return (fulfilled), [Throw] an exception (rejected). *)
Inductive result (A : Type) : Type :=
| Ok (a : A)
| Throw (e : Error).
Arguments Ok {A} a.
Arguments Throw {A} e.

Definition bind {A B : Type} (r : result A) (k : A -> result B) : result B :=
  match r with
  | Ok a => k a
  | Throw e => Throw e
  end.

Notation "x <- r ;; k" := (bind r (fun x => k))
  (at level 61, r at next level, right associativity).
Notation "'check' r ;; k" := (bind r (fun _ => k))
  (at level 61, r at next level, right associativity).

Definition isOk {A : Type} (r : result A) : bool :=
  match r with Ok _ => true | Throw _ => false end.

(** The line feed of [`...\n`]. *)
Definition nl : string := String (ascii_of_nat 10) EmptyString.

(** [`${text}\n`] *)
Definition line (text : string) : string := text ++ nl.

(** [try { body } catch (err) { err.message += suffix; throw err; }] *)
Definition rethrowWith {A : Type} (suffix : string) (r : result A) : result A :=
  match r with
  | Ok a => Ok a
  | Throw e => Throw (appendMessage e suffix)
  end.

(** Own property lookup, [obj[key]]: [None] is [undefined]. *)
Fixpoint getProp (key : string) (props : list (string * json)) : option json :=
  match props with
  | [] => None
  | (k, v) :: rest => if String.eqb k key then Some v else getProp key rest
  end.

(** Defining [key] on an object literal after a spread: an existing property
    keeps its place and takes the new value, a new one goes last. *)
Fixpoint setProp (key : string) (v : json) (props : list (string * json))
  : list (string * json) :=
  match props with
  | [] => [(key, v)]
  | (k, w) :: rest =>
      if String.eqb k key then (k, v) :: rest else (k, w) :: setProp key v rest
  end.

(** JavaScript truthiness of a parsed value. *)
Definition truthy (v : json) : bool :=
  match v with
  | JNull | JUndefined => false
  | JBool b => b
  | JNumber (S754_zero _) => false
  | JNumber S754_nan => false
  | JNumber _ => true
  | JString s => negb (String.eqb s "")
  | JArray _ => true
  | JObject _ => true
  end.

(** The items a spread [...v] yields inside an array literal: the elements
    of an array, the characters of a string; another value is not iterable. *)
Definition spreadItems (v : json) : result (list json) :=
  match v with
  | JArray items => Ok items
  | JString s => Ok (map (fun c => JString (String c EmptyString)) (list_ascii_of_string s))
  | _ => Throw (newTypeError "object is not iterable")
  end.

(** [left || right] where [left] is a property that may be [undefined]. *)
Definition orElse (left : option json) (right : json) : json :=
  match left with
  | Some v => if truthy v then v else right
  | None => right
  end.

(* ================================================================== *)
(** ** Transformers: the plugin contract and the two test transformers *)

(** What the pipeline sees of a transformer instance: [transformOpenApi],
    returning the next document (directly or through a promise) or
    throwing (rejecting). *)
Record Instance : Type := mkInstance { transformOpenApi : json -> result json }.

(** The default export of a transformer module, called with [new] and the
    constructor arguments. *)
Definition Class : Type := list json -> result Instance.

(** test-lib/sync-transformer.js *)
Definition SyncTransformer : Class := fun args =>
  Ok (mkInstance (fun openApi =>
    match openApi with
    | JObject props =>
        previous <- spreadItems (orElse (getProp "x-transformers" props) (JArray [])) ;;
        Ok (JObject (setProp "x-transformers"
                       (JArray (previous ++ [JArray (JString "sync-transformer" :: args)]))
                       props))
    | _ => Throw (newError "Invalid openApi object")
    end)).

(** test-lib/async-transformer.js: the same document function, returned
    through a promise. *)
Definition AsyncTransformer : Class := fun args =>
  Ok (mkInstance (fun openApi =>
    match openApi with
    | JObject props =>
        previous <- spreadItems (orElse (getProp "x-transformers" props) (JArray [])) ;;
        Ok (JObject (setProp "x-transformers"
                       (JArray (previous ++ [JArray (JString "async-transformer" :: args)]))
                       props))
    | _ => Throw (newError "Invalid openApi object")
    end)).

(* ================================================================== *)
(** ** Promises *)

(** The promises of the pipeline are modelled by how they settle.  When
    several of them reject, [Promise.all] rejects with the reason of the one
    that rejected first in time: [rank i] is the moment promise [i] settles. *)
Section PromiseAll.
Context {A : Type}.

Fixpoint fulfilled (ps : list (result A)) : list A :=
  match ps with
  | [] => []
  | Ok a :: rest => a :: fulfilled rest
  | Throw _ :: rest => fulfilled rest
  end.

Fixpoint rejections (i : nat) (ps : list (result A)) : list (nat * Error) :=
  match ps with
  | [] => []
  | Ok _ :: rest => rejections (S i) rest
  | Throw e :: rest => (i, e) :: rejections (S i) rest
  end.

Fixpoint earliest (rank : nat -> nat) (rs : list (nat * Error)) : option (nat * Error) :=
  match rs with
  | [] => None
  | (i, e) :: rest =>
      match earliest rank rest with
      | Some (j, e') => if Nat.ltb (rank j) (rank i) then Some (j, e') else Some (i, e)
      | None => Some (i, e)
      end
  end.

Definition Promise_all (rank : nat -> nat) (ps : list (result A)) : result (list A) :=
  match earliest rank (rejections 0 ps) with
  | Some (_, e) => Throw e
  | None => Ok (fulfilled ps)
  end.
End PromiseAll.

(* ================================================================== *)
(** ** What the process and its libraries provide *)

(** A readable stream of the run: the primary input, or a file opened with
    [createReadStream]. *)
Inductive Stream : Type :=
| Stdin
| FileStream (path : string).

(** [stream.path] *)
Definition streamPath (s : Stream) : option string :=
  match s with
  | Stdin => None
  | FileStream p => Some p
  end.

(** [stream.path || '-'] *)
Definition streamFilename (s : Stream) : string :=
  match streamPath s with
  | Some p => if String.eqb p "" then "-" else p
  | None => "-"
  end.

(** Where Node's module lookup starts: the directories given as
    [options.paths], or, when no option is given, the module that owns the
    [require] function (for [import.meta.resolve], the importing module). *)
Inductive LookupRoot : Type :=
| RootPaths (dirs : list string)
| RootOfModule (url : string).

(** The option handlers Commander fires while it parses, in the order of the
    flags on the command line. *)
Inductive OptionEvent : Type :=
| OptConfig (configPath : string)
| OptTransformer (transformer : string).

(** What [command.parse(args)] does: it throws a [CommanderError] (an unknown
    option, too many arguments, [--help]) after writing [out] and [err]
    through [writeOut]/[writeErr], or it returns, having fired the option
    handlers and left the flags and the positional arguments. *)
Inductive ParseOutcome : Type :=
| ParseThrew (exitCode : option Z) (out err : list string)
| Parsed (events : list OptionEvent) (version : bool) (files : list string).

(** The arguments of the entry point, as far as it inspects them. *)
Inductive ArgsValue : Type :=
| ArgsArray (items : list string)
| ArgsNotArray.

Record OptionsValue : Type := mkOptions {
  stdinHasOn : bool;        (* options.stdin && typeof options.stdin.on === 'function' *)
  stdoutHasWrite : bool;    (* options.stdout && typeof options.stdout.write === 'function' *)
  stderrHasWrite : bool;    (* options.stderr && typeof options.stderr.write === 'function' *)
  stdinIsTTY : bool         (* options.stdin.isTTY *)
}.

(** How a call of the entry point ends: its promise rejects, or resolves
    with an exit code; [stdout] and [stderr] are the chunks written to the
    streams of [options].  [Unhandled]: a promise rejected with [e] while
    the entry point had attached no handler to it.  Node then reports an
    unhandled rejection, which since Node 15 ends the process with the
    error, before the promise of the entry point settles; the run is not
    followed further. *)
Inductive MainResult : Type :=
| Rejected (e : Error)
| Resolved (exitCode : Z) (stdout stderr : list string)
| Unhandled (e : Error) (stdout stderr : list string).

(** *** Interleavings

    The loads of the transformers are started together and settle in an
    order the code does not control.  The interleaving models below keep a
    trace of what happens in a run: a load promise settles, a
    [transformOpenApi] is called, it returns. *)
Inductive Event : Type :=
| Settled (i : nat)
| Called (i : nat)
| Returned (i : nat).

Definition calledOf (trace : list Event) : list nat :=
  flat_map (fun ev => match ev with Called i => [i] | _ => [] end) trace.

Definition settledOf (trace : list Event) : list nat :=
  flat_map (fun ev => match ev with Settled i => [i] | _ => [] end) trace.

(** Where the entry point stands: awaiting [Promise.all] of the loads,
    between two transformers, awaiting a [transformOpenApi], or out of the
    pipeline with an error. *)
Inductive Phase : Type :=
| Loading
| Idle
| Running
| Failed (e : Error).

Record State : Type := mkState {
  st_settled : list nat;     (* the load promises that have settled *)
  st_phase : Phase;
  st_next : nat;             (* the index the loop stands at *)
  st_openApi : json;         (* the variable [openApi] *)
  st_trace : list Event
}.

(** The document after the first [k] transformers, applied in declared order. *)
Fixpoint foldTo (k : nat) (loads : list (result Instance)) (doc : json) : option json :=
  match k with
  | 0 => Some doc
  | S k' =>
      match foldTo k' loads doc, nth_error loads k' with
      | Some d, Some (Ok transformer) =>
          match transformOpenApi transformer d with
          | Ok d' => Some d'
          | Throw _ => None
          end
      | _, _ => None
      end
  end.

(** The process environment of a run: everything the entry point obtains
    from Node.js, from its libraries and from the file system. *)
Record World : Type := mkWorld {
  (** the text a stream delivers until its end, or its error; each stream
      is taken to have one reader *)
  readString : Stream -> result string;
  JSON_parse : string -> result json;
  (** [loadYaml(text, { filename, onWarning, json: true })]: the warnings
      passed to [onWarning] and the outcome *)
  loadYaml : string -> string -> list Error * result json;
  (** [path.resolve], which completes a path from [process.cwd()] *)
  path_resolve : string -> string;
  path_dirname : string -> string;
  (** [pathToFileURL(path).href] and [fileURLToPath(url)] *)
  pathToFileURL : string -> string;
  fileURLToPath : string -> result string;
  (** the URL of [index.js] itself *)
  import_meta_url : string;
  (** [import.meta.resolve], where the runtime has it: called with the
      specifier and the parent; [None] where it is [undefined] *)
  import_meta_resolve : option (string -> option string -> result string);
  (** Node's module lookup ([require.resolve]) from a root *)
  nodeResolve : LookupRoot -> string -> result string;
  (** [import(resolved)], then the module's default export *)
  import_default : string -> result Class;
  (** when the promises of the configuration files and of the transformers settle *)
  configRank : nat -> nat;
  loadRank : nat -> nat;
  (** when the read that the entry point awaits first settles (that of the
      input document; of [package.json] for [--version]), on the clock of
      [configRank] *)
  awaitedRank : nat;
  (** [jsonReplaceExponentials(JSON.stringify(value, undefined, 2))], which
      throws where [JSON.stringify] does, and where it gives [undefined] *)
  serialize : json -> result string;
  (** how the write of a chunk to [options.stdout] ends *)
  stdoutWrite : string -> option Error;
  (** reading [package.json] and taking its [version] *)
  packageVersion : result string;
  commanderParse : list string -> ParseOutcome;
  (** [err.stack], as the engine renders it *)
  stackOf : Error -> string
}.

(** *** Reading the input: [readJson] and [readJsonOrYaml], the same in
    every variant *)

Definition readJson (w : World) (stream : Stream) : result json :=
  rethrowWith (" in " ++ streamFilename stream)
    (text <- readString w stream ;; JSON_parse w text).

Definition readJsonOrYaml (w : World) (stream : Stream) : list Error * result json :=
  let filename := streamFilename stream in
  match readString w stream with
  | Throw e => ([], Throw (appendMessage e (" in " ++ filename)))
  | Ok jsonOrYaml =>
      match JSON_parse w jsonOrYaml with
      | Ok value => ([], Ok value)
      | Throw _ =>
          let (warnings, r) := loadYaml w jsonOrYaml filename in
          (warnings, rethrowWith (" in " ++ filename) r)
      end
  end.

(** [args] is an Array of at least two items and [options] has the three
    streams: the checks at the head of the entry point, [None] when all pass. *)
Definition checkArguments (args : ArgsValue) (options : option OptionsValue)
  : option Error :=
  match args with
  | ArgsNotArray => Some (newTypeError "args must be an Array with at least 2 items")
  | ArgsArray items =>
      if Nat.ltb (length items) 2
      then Some (newTypeError "args must be an Array with at least 2 items")
      else
        match options with
        | None => Some (newTypeError "options must be an object")
        | Some opts =>
            if negb (stdinHasOn opts)
            then Some (newTypeError "options.stdin must be a stream.Readable")
            else if negb (stdoutHasWrite opts)
            then Some (newTypeError "options.stdout must be a stream.Writable")
            else if negb (stderrHasWrite opts)
            then Some (newTypeError "options.stderr must be a stream.Writable")
            else None
        end
  end.

(** The warning written when no file is named and the input is a terminal. *)
Definition ttyWarning (files : list string) (options : option OptionsValue)
  : list string :=
  match files, options with
  | [], Some opts =>
      if stdinIsTTY opts
      then [line "Warning: No filename given.  Will read from stdin..."]
      else []
  | _, _ => []
  end.

(** [files[0] === '-' ? options.stdin : createReadStream(files[0])], after
    ['-'] was pushed onto an empty [files]. *)
Definition openApiStreamOf (files : list string) : Stream :=
  let file0 := hd "-" files in
  if String.eqb file0 "-" then Stdin else FileStream file0.

(** [await streamWrite(options.stdout, chunk)] *)
Definition streamWrite (w : World) (chunk : string) : result string :=
  match stdoutWrite w chunk with
  | None => Ok chunk
  | Some e => Throw e
  end.

(* ================================================================== *)
(** ** The variant with configuration files *)

Module WithConfig.

(** A configuration object: what [readConfigFile] returns, and what the
    [option:transformer] handler builds (there without [configFilePath]). *)
Record Config : Type := mkConfig {
  configFilePath : option string;
  transformers : list json
}.

(** [for (const key of Object.keys(config))] *)
Fixpoint checkKeys (keys : list string) : result unit :=
  match keys with
  | [] => Ok tt
  | key :: rest =>
      if String.eqb key "transformers" then checkKeys rest
      else Throw (newError ("unrecognized key '" ++ key ++ "' in config"))
  end.

(** The body of [for (const transformer of transformers)]. *)
Definition checkTransformer (transformer : json) : result unit :=
  match transformer with
  | JArray [] =>
      Throw (newError "config.transformers tuples must at least 1 element")
  | JArray (JString _ :: _) => Ok tt
  | JArray (_ :: _) =>
      Throw (newTypeError "config.transformers tuple first item must be a string")
  | JString _ => Ok tt
  | _ => Throw (newTypeError "config.transformers items must be strings or Arrays")
  end.

Fixpoint checkTransformers (transformers : list json) : result unit :=
  match transformers with
  | [] => Ok tt
  | transformer :: rest =>
      check checkTransformer transformer ;; checkTransformers rest
  end.

(** [readConfigFile] from the parsed [config] on.  The guard on
    [transformers] lets [undefined] through; the [for...of] over it then
    throws the engine's TypeError for a value that is not iterable. *)
Definition validateConfig (config : json) (path : option string) : result Config :=
  match config with
  | JObject props =>
      check checkKeys (map fst props) ;;
      match getProp "transformers" props with
      | Some (JArray transformers) =>
          check checkTransformers transformers ;;
          Ok (mkConfig path transformers)
      | None | Some JUndefined => Throw (newTypeError "transformers is not iterable")
      | Some _ => Throw (newTypeError "config.transformers must be an Array")
      end
  | _ => Throw (newTypeError "config file must contain a JSON object")
  end.

(** [const [name, ...options] = Array.isArray(transformer) ? transformer : [transformer]];
    [name] is [undefined] for an empty array. *)
Definition nameAndOptions (transformer : json) : option json * list json :=
  match transformer with
  | JArray [] => (None, [])
  | JArray (name :: options) => (Some name, options)
  | _ => (Some transformer, [])
  end.

(** An element of [configsOrPromises]. *)
Inductive ConfigOrPromise : Type :=
| ConfigObject (config : Config)
| ConfigPromise (configStream : Stream).

(** The [option:config] handler. *)
Definition onOptionConfig (configPath : string) (configsOrPromises : list ConfigOrPromise)
  : list ConfigOrPromise :=
  let configStream :=
    if String.eqb configPath "-" then Stdin else FileStream configPath in
  configsOrPromises ++ [ConfigPromise configStream].

(** The [option:transformer] handler: the last element, when it is a
    configuration object, gets the transformer pushed onto its list; a
    promise has no [transformers] property, so a new object is pushed. *)
Definition onOptionTransformer (transformer : string) (configsOrPromises : list ConfigOrPromise)
  : list ConfigOrPromise :=
  match nth_error configsOrPromises (length configsOrPromises - 1) with
  | Some (ConfigObject lastConfig) =>
      removelast configsOrPromises
        ++ [ConfigObject (mkConfig (configFilePath lastConfig)
                            (transformers lastConfig ++ [JString transformer]))]
  | _ =>
      configsOrPromises ++ [ConfigObject (mkConfig None [JString transformer])]
  end.

Definition onOption (configsOrPromises : list ConfigOrPromise) (event : OptionEvent)
  : list ConfigOrPromise :=
  match event with
  | OptConfig configPath => onOptionConfig configPath configsOrPromises
  | OptTransformer transformer => onOptionTransformer transformer configsOrPromises
  end.

(** The loop of [applyTransformers], with the log of the indices whose
    [transformOpenApi] was called. *)
Fixpoint transformLoop (i : nat) (transformers : list Instance) (openApi : json)
  : list nat * result json :=
  match transformers with
  | [] => ([], Ok openApi)
  | transformer :: rest =>
      match transformOpenApi transformer openApi with
      | Ok next =>
          let (calls, r) := transformLoop (S i) rest next in (i :: calls, r)
      | Throw e => ([i], Throw e)
      end
  end.

Section Run.

Variable w : World.

Definition readConfigFile (stream : Stream) : result Config :=
  config <- readJson w stream ;;
  validateConfig config (streamPath stream).

(** The function [makeResolver()] returns. *)
Definition makeResolver (id : string) (parent : option string) : result string :=
  nodeResolve w
    match parent with
    | Some p =>
        if String.eqb p "" then RootOfModule (import_meta_url w)
        else RootPaths [path_dirname w p]
    | None => RootOfModule (import_meta_url w)
    end
    id.

(** [import.meta.resolve || makeResolver()] *)
Definition resolveTransformer (id : string) (parent : option string) : result string :=
  match import_meta_resolve w with
  | Some resolve => resolve id parent
  | None => makeResolver id parent
  end.

(** [configFilePath ? path.resolve(configFilePath) : undefined] *)
Definition resolveParentOf (config : Config) : option string :=
  match configFilePath config with
  | Some p => if String.eqb p "" then None else Some (path_resolve w p)
  | None => None
  end.

(** The body of the [async] callback of [createTransformersForConfig]: how
    the promise of one transformer settles. *)
Definition createTransformer (resolveParent : option string) (transformer : json)
  : result Instance :=
  let (name, options) := nameAndOptions transformer in
  match name with
  | Some (JString id) =>
      resolved <- resolveTransformer id resolveParent ;;
      Transformer <- import_default w resolved ;;
      Transformer options
  | _ => Throw (newTypeError "The id argument must be of type string")
  end.

Definition createTransformersForConfig (config : Config) : list (result Instance) :=
  map (createTransformer (resolveParentOf config)) (transformers config).

Definition applyTransformers (configs : list Config) (openApi : json)
  : list nat * result json :=
  match Promise_all (loadRank w) (flat_map createTransformersForConfig configs) with
  | Ok transformers => transformLoop 0 transformers openApi
  | Throw e => ([], Throw e)
  end.

(** How the elements of [configsOrPromises] settle: an object is a value,
    a promise settles as [readConfigFile] ends. *)
Definition settledConfigs (configsOrPromises : list ConfigOrPromise)
  : list (result Config) :=
  map (fun c => match c with
                | ConfigObject config => Ok config
                | ConfigPromise configStream => readConfigFile configStream
                end)
      configsOrPromises.

(** [await Promise.all(configsOrPromises)] *)
Definition awaitConfigs (configsOrPromises : list ConfigOrPromise) : result (list Config) :=
  Promise_all (configRank w) (settledConfigs configsOrPromises).

(** The promises of [readConfigFile] are created while Commander parses,
    and nothing handles them before [Promise.all] is reached, after the
    first read the entry point awaits.  A promise that rejects before that
    read settles rejects unhandled; [earlyRejection] is the reason of the
    first of them. *)
Definition earlyRejection (configsOrPromises : list ConfigOrPromise) : option Error :=
  match earliest (configRank w)
          (filter (fun rejection : nat * Error =>
                     Nat.ltb (configRank w (fst rejection)) (awaitedRank w))
                  (rejections 0 (settledConfigs configsOrPromises))) with
  | Some (_, e) => Some e
  | None => None
  end.

(** The entry point.  A configuration file that is rejected before the
    awaited read has settled ends the run as [Unhandled].  When the input
    can not be read, [Promise.all] is never reached: the entry point
    resolves with 1, and a configuration file that is rejected after that is
    reported unhandled once the promise of the entry point has settled. *)
Definition openapiTransformerMain (args : ArgsValue) (options : option OptionsValue)
  : MainResult :=
  match checkArguments args options, args with
  | Some typeError, _ => Rejected typeError
  | None, ArgsNotArray => Rejected (newTypeError "args must be an Array with at least 2 items")
  | None, ArgsArray items =>
      match commanderParse w items with
      | ParseThrew exitCode out err =>
          Resolved (match exitCode with Some code => code | None => 1%Z end) out err
      | Parsed events version files =>
          let configsOrPromises := fold_left onOption events [] in
          if version then
            (* [await readJson(packageJsonStream)], outside of any [try] *)
            match earlyRejection configsOrPromises with
            | Some unhandled => Unhandled unhandled [] []
            | None =>
                match packageVersion w with
                | Ok v => Resolved 0%Z [line v] []
                | Throw e => Rejected e
                end
            end
          else
            (* [await readJsonOrYaml(openApiStream, onWarning)] *)
            match earlyRejection configsOrPromises with
            | Some unhandled => Unhandled unhandled [] (ttyWarning files options)
            | None =>
                let (warnings, parsed) := readJsonOrYaml w (openApiStreamOf files) in
                let stderr0 : list string :=
                  (ttyWarning files options
                     ++ map (fun warning => line (Error_toString warning)) warnings)%list in
                let written :=
                  openApi <- parsed ;;
                  configs <- awaitConfigs configsOrPromises ;;
                  newOpenApi <- snd (applyTransformers configs openApi) ;;
                  jsonText <- serialize w newOpenApi ;;
                  streamWrite w (line jsonText) in
                match written with
                | Ok chunk => Resolved 0%Z [chunk] stderr0
                | Throw err =>
                    Resolved 1%Z [] (stderr0 ++ [line (Error_toString err)])%list
                end
            end
      end
  end.

End Run.

(** *** The interleavings of [applyTransformers]

    [loads] is how the promise of each transformer settles, in declared
    order.  [Promise.all] is awaited first: it rejects as soon as one load
    rejects and fulfils once all have fulfilled; then the loop runs. *)
Definition init (openApi : json) : State := mkState [] Loading 0 openApi [].

Inductive step (loads : list (result Instance)) : State -> State -> Prop :=
| step_settle_fulfilled : forall s i transformer,
    ~ In i (st_settled s) ->
    nth_error loads i = Some (Ok transformer) ->
    step loads s
      (mkState (i :: st_settled s) (st_phase s) (st_next s) (st_openApi s)
               (st_trace s ++ [Settled i]))
| step_settle_rejected : forall s i e,
    ~ In i (st_settled s) ->
    nth_error loads i = Some (Throw e) ->
    step loads s
      (mkState (i :: st_settled s)
               (match st_phase s with Loading => Failed e | phase => phase end)
               (st_next s) (st_openApi s) (st_trace s ++ [Settled i]))
| step_all_fulfilled : forall s,
    st_phase s = Loading ->
    (forall i, i < length loads -> In i (st_settled s)) ->
    forallb isOk loads = true ->
    step loads s
      (mkState (st_settled s) Idle (st_next s) (st_openApi s) (st_trace s))
| step_call : forall s transformer,
    st_phase s = Idle ->
    nth_error loads (st_next s) = Some (Ok transformer) ->
    step loads s
      (mkState (st_settled s) Running (st_next s) (st_openApi s)
               (st_trace s ++ [Called (st_next s)]))
| step_return : forall s transformer next,
    st_phase s = Running ->
    nth_error loads (st_next s) = Some (Ok transformer) ->
    transformOpenApi transformer (st_openApi s) = Ok next ->
    step loads s
      (mkState (st_settled s) Idle (S (st_next s)) next
               (st_trace s ++ [Returned (st_next s)]))
| step_throw : forall s transformer e,
    st_phase s = Running ->
    nth_error loads (st_next s) = Some (Ok transformer) ->
    transformOpenApi transformer (st_openApi s) = Throw e ->
    step loads s
      (mkState (st_settled s) (Failed e) (st_next s) (st_openApi s) (st_trace s)).

Inductive reachable (loads : list (result Instance)) (openApi : json) : State -> Prop :=
| reach_init : reachable loads openApi (init openApi)
| reach_step : forall s s',
    reachable loads openApi s -> step loads s s' -> reachable loads openApi s'.

End WithConfig.

(* ================================================================== *)
(** ** The variant with [--transformer] flags only *)

Module CliOnly.

(** [argOpts.transformer]: the values of the [--transformer] flags, in the
    order of the command line. *)
Definition transformersOf (events : list OptionEvent) : list string :=
  flat_map (fun ev => match ev with
                      | OptTransformer t => [t]
                      | OptConfig _ => []
                      end) events.

(** The loop over [Object.entries(transformerPs)]: [entries] pairs
    [argOpts.transformer[i]] with how [transformerPs[i]] settles.  The log
    holds the indices whose [transformOpenApi] was called. *)
Fixpoint transformLoop (i : nat) (entries : list (string * result Instance))
  (openApi : json) : list nat * result json :=
  match entries with
  | [] => ([], Ok openApi)
  | (name, transformerP) :: rest =>
      match transformerP with
      | Throw e => ([], Throw (appendMessage e (" applying transformer " ++ name)))
      | Ok transformer =>
          match transformOpenApi transformer openApi with
          | Ok next =>
              let (calls, r) := transformLoop (S i) rest next in (i :: calls, r)
          | Throw e =>
              ([i], Throw (appendMessage e (" applying transformer " ++ name)))
          end
      end
  end.

Section Run.

Variable w : World.

(** [makeResolver()] *)
Definition resolveTransformer (id : string) (parent : option string) : result string :=
  request <- (if String.prefix "file:" id then fileURLToPath w id else Ok id) ;;
  root <- match parent with
          | Some p =>
              if String.eqb p "" then Ok (RootOfModule (import_meta_url w))
              else (parentPath <- fileURLToPath w p ;;
                    Ok (RootPaths [path_dirname w parentPath]))
          | None => Ok (RootOfModule (import_meta_url w))
          end ;;
  resolved <- nodeResolve w root request ;;
  Ok (pathToFileURL w resolved).

Definition loadTransformer (name : string) (parent : option string) : result Instance :=
  resolved <- resolveTransformer name parent ;;
  Transformer <- import_default w resolved ;;
  Transformer [].

(** [pathToFileURL(path.resolve('dummy.js')).href] *)
Definition cwdUrl : string := pathToFileURL w (path_resolve w "dummy.js").

(** [transformerPs], paired with the names. *)
Definition loadAll (names : list string) : list (string * result Instance) :=
  map (fun t => (t, loadTransformer t (Some cwdUrl))) names.

Definition openapiTransformerMain (args : ArgsValue) (options : option OptionsValue)
  : MainResult :=
  match checkArguments args options, args with
  | Some typeError, _ => Rejected typeError
  | None, ArgsNotArray => Rejected (newTypeError "args must be an Array with at least 2 items")
  | None, ArgsArray items =>
      match commanderParse w items with
      | ParseThrew exitCode out err =>
          Resolved (match exitCode with Some code => code | None => 1%Z end) out err
      | Parsed events version files =>
          (* [version]: the [option:version] handler threw [errVersion] *)
          if version then
            match packageVersion w with
            | Ok v => Resolved 0%Z [line v] []
            | Throw e => Rejected e
            end
          else
            let transformerPs := loadAll (transformersOf events) in
            let (warnings, parsed) := readJsonOrYaml w (openApiStreamOf files) in
            let stderr0 : list string :=
              (ttyWarning files options
                 ++ map (fun warning => line (Error_toString warning)) warnings)%list in
            let written :=
              openApi <- parsed ;;
              newOpenApi <- snd (transformLoop 0 transformerPs openApi) ;;
              jsonText <- serialize w newOpenApi ;;
              streamWrite w (line jsonText) in
            match written with
            | Ok chunk => Resolved 0%Z [chunk] stderr0
            | Throw err => Resolved 1%Z [] (stderr0 ++ [line (stackOf w err)])%list
            end
      end
  end.

End Run.

(** *** The interleavings of the transform loop

    [entries] pairs each name with how its load promise settles.  The loop
    awaits the promise of the transformer it stands at, whatever else has
    settled, then calls its [transformOpenApi] and awaits the result. *)
Definition init (openApi : json) : State := mkState [] Idle 0 openApi [].

Inductive step (entries : list (string * result Instance)) : State -> State -> Prop :=
| step_settle : forall s i,
    i < length entries ->
    ~ In i (st_settled s) ->
    step entries s
      (mkState (i :: st_settled s) (st_phase s) (st_next s) (st_openApi s)
               (st_trace s ++ [Settled i]))
| step_call : forall s name transformer,
    st_phase s = Idle ->
    nth_error entries (st_next s) = Some (name, Ok transformer) ->
    In (st_next s) (st_settled s) ->
    step entries s
      (mkState (st_settled s) Running (st_next s) (st_openApi s)
               (st_trace s ++ [Called (st_next s)]))
| step_load_rejected : forall s name e,
    st_phase s = Idle ->
    nth_error entries (st_next s) = Some (name, Throw e) ->
    In (st_next s) (st_settled s) ->
    step entries s
      (mkState (st_settled s)
               (Failed (appendMessage e (" applying transformer " ++ name)))
               (st_next s) (st_openApi s) (st_trace s))
| step_return : forall s name transformer next,
    st_phase s = Running ->
    nth_error entries (st_next s) = Some (name, Ok transformer) ->
    transformOpenApi transformer (st_openApi s) = Ok next ->
    step entries s
      (mkState (st_settled s) Idle (S (st_next s)) next
               (st_trace s ++ [Returned (st_next s)]))
| step_throw : forall s name transformer e,
    st_phase s = Running ->
    nth_error entries (st_next s) = Some (name, Ok transformer) ->
    transformOpenApi transformer (st_openApi s) = Throw e ->
    step entries s
      (mkState (st_settled s)
               (Failed (appendMessage e (" applying transformer " ++ name)))
               (st_next s) (st_openApi s) (st_trace s)).

Inductive reachable (entries : list (string * result Instance)) (openApi : json)
  : State -> Prop :=
| reach_init : reachable entries openApi (init openApi)
| reach_step : forall s s',
    reachable entries openApi s -> step entries s s' -> reachable entries openApi s'.

End CliOnly.

(* ================================================================== *)
(** ** A concrete process environment, for the examples *)

Module Example.

Definition quote : string := String (ascii_of_nat 34) EmptyString.

Fixpoint joinWith (sep : string) (parts : list string) : string :=
  match parts with
  | [] => ""
  | [part] => part
  | part :: rest => part ++ sep ++ joinWith sep rest
  end.

(** A number of the examples: an integral double in decimal, another finite
    one as mantissa and binary exponent; [JSON.stringify] gives [null] for
    the rest. *)
Definition showNumber (n : spec_float) : string :=
  match n with
  | S754_zero _ => "0"
  | S754_finite sign m 0%Z =>
      (if sign then "-" else "") ++ NilEmpty.string_of_uint (Pos.to_uint m)
  | S754_finite sign m e =>
      (if sign then "-" else "") ++ NilEmpty.string_of_uint (Pos.to_uint m)
        ++ "*2^" ++ NilEmpty.string_of_int (Z.to_int e)
  | _ => "null"
  end.

(** [JSON.stringify(value, undefined, 2)] on values whose strings need no
    escape, for a [value] other than [undefined]: inside an array
    [undefined] is written [null], and a property whose value is
    [undefined] is left out. *)
Fixpoint stringify (indent : string) (value : json) {struct value} : string :=
  match value with
  | JNull | JUndefined => "null"
  | JBool true => "true"
  | JBool false => "false"
  | JNumber n => showNumber n
  | JString s => quote ++ s ++ quote
  | JArray [] => "[]"
  | JArray items =>
      "[" ++ nl
        ++ joinWith ("," ++ nl)
             (map (fun item => indent ++ "  " ++ stringify (indent ++ "  ") item) items)
        ++ nl ++ indent ++ "]"
  | JObject props =>
      match flat_map (fun prop : string * json =>
                        match prop with
                        | (_, JUndefined) => []
                        | (key, v) =>
                            [indent ++ "  " ++ quote ++ key ++ quote ++ ": "
                               ++ stringify (indent ++ "  ") v]
                        end) props with
      | [] => "{}"
      | members => "{" ++ nl ++ joinWith ("," ++ nl) members ++ nl ++ indent ++ "}"
      end
  end.

(** [jsonReplaceExponentials(JSON.stringify(value, undefined, 2))] on
    values without exponentials.  [JSON.stringify(undefined)] is
    [undefined], which [jsonReplaceExponentials] can not take: the TypeError
    stands for the one thrown there, whose wording is the engine's. *)
Definition serializeJson (value : json) : result string :=
  match value with
  | JUndefined =>
      Throw (newTypeError "Cannot read properties of undefined (reading 'replace')")
  | _ => Ok (stringify "" value)
  end.

Fixpoint dropToSlash (cs : list ascii) : option (list ascii) :=
  match cs with
  | [] => None
  | c :: rest => if Ascii.eqb c "/" then Some rest else dropToSlash rest
  end.

Fixpoint takeToSlash (cs : list ascii) : list ascii :=
  match cs with
  | [] => []
  | c :: rest => if Ascii.eqb c "/" then [] else c :: takeToSlash rest
  end.

(** POSIX [path.dirname] and [path.basename] on a path without a trailing slash. *)
Definition dirname (p : string) : string :=
  match dropToSlash (rev (list_ascii_of_string p)) with
  | None => "."
  | Some [] => "/"
  | Some parent => string_of_list_ascii (rev parent)
  end.

Definition basename (p : string) : string :=
  string_of_list_ascii (rev (takeToSlash (rev (list_ascii_of_string p)))).

(** The working directory of the example process. *)
Definition cwd : string := "/work".

Definition resolvePath (p : string) : string :=
  if String.prefix "/" p then p else cwd ++ "/" ++ p.

Definition toFileURL (p : string) : string := "file://" ++ p.

Definition fromFileURL (url : string) : result string :=
  if String.prefix "file://" url
  then Ok (String.substring 7 (String.length url - 7) url)
  else Throw (newTypeError "The URL must be of scheme file").

(** The module lookup of the example: the specifier is appended to the
    first directory of the root; the empty specifier is refused. *)
Definition lookup (root : LookupRoot) (id : string) : result string :=
  if String.eqb id ""
  then Throw (newTypeError "The argument 'id' must be a non-empty string")
  else
    match root with
    | RootPaths (dir :: _) => Ok (dir ++ "/" ++ id)
    | RootPaths [] => Throw (newError ("Cannot find module '" ++ id ++ "'"))
    | RootOfModule url =>
        match fromFileURL url with
        | Ok file => Ok (dirname file ++ "/" ++ id)
        | Throw e => Throw e
        end
    end.

(** The modules of the example: the two test transformers, wherever their
    files lie; [resolved] may be a path or a [file:] URL. *)
Definition importDefault (resolved : string) : result Class :=
  let file := basename resolved in
  if String.eqb file "sync-transformer.js" || String.eqb file "sync-transformer"
  then Ok SyncTransformer
  else if String.eqb file "async-transformer.js" || String.eqb file "async-transformer"
  then Ok AsyncTransformer
  else Throw (newError ("Cannot find module '" ++ resolved ++ "'")).

(** The configuration file of the example, at [/etc/ot/config.json]. *)
Definition configPath : string := "/etc/ot/config.json".

Definition configJson : json :=
  JObject [("transformers",
            JArray [JString "./sync-transformer.js";
                    JArray [JString "./async-transformer.js"; JString "asyncArg"]])].

(** What js-yaml makes of the texts of the example, which are no JSON: an
    empty document is [undefined], anything else is refused. *)
Definition yamlError : Error := newYAMLException "bad indentation (1:2)".

Definition yamlLoad (text filename : string) : list Error * result json :=
  if String.eqb text "" then ([], Ok JUndefined) else ([], Throw yamlError).

(** The texts the example parser knows, besides that of the configuration file. *)
Definition parseTable : list (string * json) :=
  map (fun value => (stringify "" value, value)) [JObject []; JArray []].

Fixpoint parseWith (table : list (string * json)) (text : string) : result json :=
  match table with
  | [] => Throw (mkError "SyntaxError" "Unexpected token")
  | (known, value) :: rest =>
      if String.eqb known text then Ok value else parseWith rest text
  end.

(** The example process: [stdinText] arrives on the primary input, the file
    [configPath] holds the text of [config], and Commander ends as [outcome]. *)
Definition world (stdinText : string) (config : json) (outcome : ParseOutcome) : World :=
  {| readString := fun stream =>
       match stream with
       | Stdin => Ok stdinText
       | FileStream p =>
           if String.eqb p configPath then Ok (stringify "" config)
           else Throw (newError ("ENOENT: no such file or directory, open '" ++ p ++ "'"))
       end;
     JSON_parse := parseWith ((stringify "" config, config) :: parseTable);
     loadYaml := yamlLoad;
     path_resolve := resolvePath;
     path_dirname := dirname;
     pathToFileURL := toFileURL;
     fileURLToPath := fromFileURL;
     import_meta_url := "file:///opt/cli/index.js";
     import_meta_resolve := None;
     nodeResolve := lookup;
     import_default := importDefault;
     configRank := fun i => i;
     loadRank := fun i => 10 - i;
     (* the input is read before a configuration file is rejected *)
     awaitedRank := 0;
     serialize := serializeJson;
     stdoutWrite := fun _ => None;
     packageVersion := Ok "1.0.0";
     commanderParse := fun _ => outcome;
     stackOf := fun e => Error_toString e ++ nl ++ "    at transformOpenApi"
  |}.

Definition args : ArgsValue := ArgsArray ["node"; "openapi-transformer"].

Definition options : option OptionsValue := Some (mkOptions true true true false).

(** [openapi-transformer --transformer ./sync-transformer.js] on the
    document [[]], which the transformer refuses. *)
Definition invalidDocument : World :=
  world "[]" (JObject []) (Parsed [OptTransformer "./sync-transformer.js"] false []).



(** Two transformers, [A] before [B], both of which load. *)
Definition twoEntries : list (string * result Instance) :=
  [("./sync-transformer.js", SyncTransformer []);
   ("./async-transformer.js", AsyncTransformer [])].

Definition afterA : json :=
  JObject [("x-transformers", JArray [JArray [JString "sync-transformer"]])].

Definition afterAB : json :=
  JObject [("x-transformers",
            JArray [JArray [JString "sync-transformer"];
                    JArray [JString "async-transformer"]])].

(** The end of a run on [{}] in which the load of [B] settled before that
    of [A]. *)
Definition secondSettledFirst : State :=
  mkState [0; 1] Idle 2 afterAB
    [Settled 1; Settled 0; Called 0; Returned 0; Called 1; Returned 1].

(** [openapi-transformer] on the document [{}], no transformer. *)
Definition plainRun : World :=
  world "{}" (JObject []) (Parsed [] false []).

End Example.

(* ================================================================== *)
(** ** Notions used in the statements *)

(** [hay.includes(needle)] *)
Fixpoint includes (needle hay : string) : bool :=
  if String.prefix needle hay then true
  else match hay with
       | EmptyString => false
       | String _ rest => includes needle rest
       end.

(** The shape of a transformer reference: a string, or an array whose first
    element is a string. *)
Definition referenceShape (entry : json) : bool :=
  match entry with
  | JString _ => true
  | JArray (JString _ :: _) => true
  | _ => false
  end.

(** The messages [readConfigFile] has for an entry of the wrong shape. *)
Definition entryShapeMessages : list string :=
  ["config.transformers tuples must at least 1 element";
   "config.transformers tuple first item must be a string";
   "config.transformers items must be strings or Arrays"].

(** The stream the [option:config] handler opens for [configPath]. *)
Definition configStreamOf (configPath : string) : Stream :=
  if String.eqb configPath "-" then Stdin else FileStream configPath.


(** What holds in every state of a run, whatever has settled: the calls of
    [transformOpenApi] made so far are those of the transformers before the
    loop index (and of the one at it, while it runs or when it threw), in
    declared order, and [openApi] is the document folded through the
    transformers before the loop index. *)
Definition inDeclaredOrder (loads : list (result Instance)) (openApi : json)
  (s : State) : Prop :=
  st_next s <= length loads /\
  foldTo (st_next s) loads openApi = Some (st_openApi s) /\
  match st_phase s with
  | Loading | Idle => calledOf (st_trace s) = seq 0 (st_next s)
  | Running =>
      st_next s < length loads /\ calledOf (st_trace s) = seq 0 (S (st_next s))
  | Failed _ =>
      calledOf (st_trace s) = seq 0 (st_next s)
      \/ (st_next s < length loads /\ calledOf (st_trace s) = seq 0 (S (st_next s)))
  end.

(** The references a command line declares, in the order of its flags: a
    [--transformer] flag declares its value, a [--config] flag the
    [transformers] of its file. *)
Definition declared (w : World) (events : list OptionEvent) : list json :=
  flat_map (fun event =>
              match event with
              | OptTransformer transformer => [JString transformer]
              | OptConfig configPath =>
                  match WithConfig.readConfigFile w (configStreamOf configPath) with
                  | Ok config => WithConfig.transformers config
                  | Throw _ => []
                  end
              end) events.

(** What an element of [configsOrPromises] brings to the pipeline. *)
Definition broughtBy (w : World) (c : WithConfig.ConfigOrPromise) : list json :=
  match c with
  | WithConfig.ConfigObject config => WithConfig.transformers config
  | WithConfig.ConfigPromise configStream =>
      match WithConfig.readConfigFile w configStream with
      | Ok config => WithConfig.transformers config
      | Throw _ => []
      end
  end.

(* ================================================================== *)
(** ** Further code of the repository *)

(** *** [readString], on the events of a stream

    What a readable stream emits: chunks of data, then its end, or an error.
    A chunk is a string when the stream has an encoding; [typeofName] is the
    [typeof] of any other chunk (["object"] for a Buffer). *)
Inductive Chunk : Type :=
| TextChunk (data : string)
| OtherChunk (typeofName : string).

Inductive StreamEvent : Type :=
| OnData (data : Chunk)
| OnError (e : Error)
| OnEnd.

(** [readString] of the ES-module variants, with [str] as accumulated so
    far.  A chunk that is no string makes the handler destroy the stream with
    a TypeError, which the stream emits as its error in place of anything
    further.  [None]: the promise has not settled when the events run out. *)
Fixpoint readStringFrom (str : string) (events : list StreamEvent)
  : option (result string) :=
  match events with
  | [] => None
  | OnData (TextChunk data) :: rest => readStringFrom (str ++ data) rest
  | OnData (OtherChunk typeofName) :: _ =>
      Some (Throw (newTypeError
                     ("expected string, got " ++ typeofName ++ " from stream")))
  | OnError e :: _ => Some (Throw e)
  | OnEnd :: _ => Some (Ok str)
  end.

Definition readStringOf (events : list StreamEvent) : option (result string) :=
  readStringFrom "" events.

(** *** [countOption] and the verbosity of the command template *)

(** [(previous || 0) + 1]; [None] is [undefined]. *)
Definition countOption (previous : option Z) : Z :=
  (match previous with
   | Some n => if Z.eqb n 0 then 0 else n
   | None => 0
   end + 1)%Z.

(** The value of a counting option after Commander has called its parser
    once per occurrence, from [undefined]. *)
Definition countedOption (occurrences : nat) : option Z :=
  Nat.iter occurrences (fun previous => Some (countOption previous)) None.

(** [(argOpts.verbose || 0) - (argOpts.quiet || 0)] *)
Definition verbosity (verbose quiet : option Z) : Z :=
  (match verbose with Some n => if Z.eqb n 0 then 0 else n | None => 0 end
   - match quiet with Some n => if Z.eqb n 0 then 0 else n | None => 0 end)%Z.

(** *** The CommonJS variant of the pipeline

    [index.js] with [require]: the transformers of a configuration are
    looked up from the directory of its file, those of the flags from
    [process.cwd()]; modules are loaded synchronously, in declared order,
    before the first transformer is applied. *)
Module CommonJs.

(** [items.map(f)] where [f] may throw: the first exception ends the map. *)
Fixpoint mapThrowing {A B : Type} (f : A -> result B) (items : list A)
  : result (list B) :=
  match items with
  | [] => Ok []
  | item :: rest =>
      b <- f item ;;
      bs <- mapThrowing f rest ;;
      Ok (b :: bs)
  end.

(** The two nested loops of [applyTransformers]; the log numbers the
    transformers through the configurations. *)
Fixpoint transformGroups (i : nat) (groups : list (list Instance)) (openApi : json)
  : list nat * result json :=
  match groups with
  | [] => ([], Ok openApi)
  | transformers :: rest =>
      match WithConfig.transformLoop i transformers openApi with
      | (calls, Ok next) =>
          let (calls', r) := transformGroups (i + length transformers) rest next in
          ((calls ++ calls')%list, r)
      | (calls, Throw e) => (calls, Throw e)
      end
  end.

Section Run.

Variable w : World.
Variable process_cwd : string.

(** [configFilePath ? path.dirname(path.resolve(configFilePath)) : process.cwd()] *)
Definition searchPathOf (config : WithConfig.Config) : string :=
  match WithConfig.configFilePath config with
  | Some p =>
      if String.eqb p "" then process_cwd else path_dirname w (path_resolve w p)
  | None => process_cwd
  end.

(** The callback of [transformers.map]: [require.resolve] with the search
    path, [require], [new]. *)
Definition createTransformer (searchPath : string) (transformer : json)
  : result Instance :=
  let (name, options) := WithConfig.nameAndOptions transformer in
  match name with
  | Some (JString id) =>
      resolved <- nodeResolve w (RootPaths [searchPath]) id ;;
      Transformer <- import_default w resolved ;;
      Transformer options
  | _ => Throw (newTypeError "The id argument must be of type string")
  end.

Definition createTransformersForConfig (config : WithConfig.Config)
  : result (list Instance) :=
  mapThrowing (createTransformer (searchPathOf config))
    (WithConfig.transformers config).

Definition applyTransformers (configs : list WithConfig.Config) (openApi : json)
  : list nat * result json :=
  match mapThrowing createTransformersForConfig configs with
  | Ok groups => transformGroups 0 groups openApi
  | Throw e => ([], Throw e)
  end.

End Run.
End CommonJs.

(** *** The variant that appends the configuration to the flags

    The oldest [index.js]: [--transformer] values are collected into one
    list, [--config] keeps its last value, and the transformers of the
    file are pushed after those of the flags. *)
Module ConfigAfterFlags.

(** The body of [for (const transformer of transformers)]; [transformer[1]]
    of a tuple of one element is [undefined]. *)
Definition checkTransformer (transformer : json) : result unit :=
  match transformer with
  | JArray items =>
      if Nat.eqb (length items) 0 || Nat.ltb 2 (length items)
      then Throw (newError "config.transformers tuples must have 1 or 2 elements")
      else
        match items with
        | JString _ :: rest =>
            match rest with
            | JObject _ :: _ => Ok tt
            | _ => Throw (newTypeError
                            "config.transformers tuple second item must be an object")
            end
        | _ => Throw (newTypeError
                        "config.transformers tuple first item must be a string")
        end
  | JString _ => Ok tt
  | _ => Throw (newTypeError "config.transformers items must be strings or Arrays")
  end.

Fixpoint checkTransformers (transformers : list json) : result unit :=
  match transformers with
  | [] => Ok tt
  | transformer :: rest =>
      check checkTransformer transformer ;; checkTransformers rest
  end.

(** [readConfigFile] from the parsed [config] on; it returns [config], of
    which the caller reads [transformers]. *)
Definition validateConfig (config : json) : result (list json) :=
  match config with
  | JObject props =>
      check WithConfig.checkKeys (map fst props) ;;
      match getProp "transformers" props with
      | Some (JArray transformers) =>
          check checkTransformers transformers ;;
          Ok transformers
      | None | Some JUndefined => Throw (newTypeError "transformers is not iterable")
      | Some _ => Throw (newTypeError "config.transformers must be an Array")
      end
  | _ => Throw (newTypeError "config file must contain a JSON object")
  end.

(** [command.opts().config]: a repeated [--config] keeps its last value. *)
Fixpoint configOf (events : list OptionEvent) : option string :=
  match events with
  | [] => None
  | OptConfig configPath :: rest =>
      match configOf rest with
      | Some later => Some later
      | None => Some configPath
      end
  | OptTransformer _ :: rest => configOf rest
  end.

Section Run.

Variable w : World.

Definition readConfigFile (stream : Stream) : result (list json) :=
  config <- readJson w stream ;;
  validateConfig config.

(** The list [applyTransformers] is called with: the values of the
    [--transformer] flags, then the transformers of the file. *)
Definition assembled (events : list OptionEvent) : result (list json) :=
  let transformers := map JString (CliOnly.transformersOf events) in
  match configOf events with
  | None => Ok transformers
  | Some config =>
      fileTransformers <- readConfigFile (configStreamOf config) ;;
      Ok (transformers ++ fileTransformers)%list
  end.

End Run.
End ConfigAfterFlags.

(** *** Notions used in the statements on this code *)

(** What [readConfigFile] accepts: an object whose keys are all
    [transformers] and whose [transformers] is an array of references. *)
Definition acceptableConfig (config : json) : bool :=
  match config with
  | JObject props =>
      forallb (fun key => String.eqb key "transformers") (map fst props)
      && match getProp "transformers" props with
         | Some (JArray items) => forallb referenceShape items
         | _ => false
         end
  | _ => false
  end.

(** What the oldest variant accepts as a reference: a string, or a pair of
    a string and an object. *)
Definition pairShape (entry : json) : bool :=
  match entry with
  | JString _ => true
  | JArray [JString _; JObject _] => true
  | _ => false
  end.

(** The parent a reference is resolved with, beside the reference, for
    every reference a command line declares, in the order of its flags. *)
Definition declaredWithParent (w : World) (events : list OptionEvent)
  : list (option string * json) :=
  flat_map (fun event =>
              match event with
              | OptTransformer transformer => [(None, JString transformer)]
              | OptConfig configPath =>
                  match WithConfig.readConfigFile w (configStreamOf configPath) with
                  | Ok config =>
                      map (pair (WithConfig.resolveParentOf w config))
                          (WithConfig.transformers config)
                  | Throw _ => []
                  end
              end) events.

Definition withParent (w : World) (config : WithConfig.Config)
  : list (option string * json) :=
  map (pair (WithConfig.resolveParentOf w config)) (WithConfig.transformers config).

(** The marker a test transformer appends. *)
Definition markerOf (label : string) (args : list json) : json :=
  JArray (JString label :: args).

(** The earlier markers a test transformer finds in a document: none when
    [x-transformers] is absent or falsy, the items of an array, the
    characters of a string; [None] when the value cannot be spread. *)
Definition historyOf (props : list (string * json)) : option (list json) :=
  match getProp "x-transformers" props with
  | None => Some []
  | Some v =>
      if truthy v
      then match v with
           | JArray items => Some items
           | JString s =>
               Some (map (fun c => JString (String c EmptyString))
                         (list_ascii_of_string s))
           | _ => None
           end
      else Some []
  end.

(** Instances of the two test transformers: [true] for the asynchronous one. *)
Definition testTransformers (specs : list (bool * list json)) : list (result Instance) :=
  map (fun spec : bool * list json =>
         if fst spec then AsyncTransformer (snd spec)
         else SyncTransformer (snd spec)) specs.

Definition testMarkers (specs : list (bool * list json)) : list json :=
  map (fun spec : bool * list json =>
         markerOf (if fst spec then "async-transformer" else "sync-transformer")
                  (snd spec)) specs.

(** An element of [configsOrPromises] with its references and the parent
    each is resolved with. *)
Definition broughtWithParent (w : World) (c : WithConfig.ConfigOrPromise)
  : list (option string * json) :=
  match c with
  | WithConfig.ConfigObject config => withParent w config
  | WithConfig.ConfigPromise configStream =>
      match WithConfig.readConfigFile w configStream with
      | Ok config => withParent w config
      | Throw _ => []
      end
  end.

(** A configuration object as the [option:transformer] handler builds it:
    no file path, strings only. *)
Definition builtByFlags (c : WithConfig.ConfigOrPromise) : Prop :=
  match c with
  | WithConfig.ConfigObject config =>
      WithConfig.configFilePath config = None
      /\ Forall (fun t => exists name, t = JString name) (WithConfig.transformers config)
  | WithConfig.ConfigPromise _ => True
  end.


(** The world [w] when the loads of the transformers settle as [rank] tells. *)
Definition withLoadRank (w : World) (rank : nat -> nat) : World :=
  mkWorld (readString w) (JSON_parse w) (loadYaml w) (path_resolve w)
    (path_dirname w) (pathToFileURL w) (fileURLToPath w) (import_meta_url w)
    (import_meta_resolve w) (nodeResolve w) (import_default w) (configRank w)
    rank (awaitedRank w) (serialize w) (stdoutWrite w) (packageVersion w)
    (commanderParse w) (stackOf w).





(** The messages [readConfigFile] has for a configuration of the wrong
    shape, besides that for an unrecognized key; the last one is the
    engine's, for the [for...of] over [undefined]. *)
Definition configShapeMessages : list string :=
  ["config file must contain a JSON object";
   "config.transformers must be an Array";
   "config.transformers tuples must at least 1 element";
   "config.transformers tuple first item must be a string";
   "config.transformers items must be strings or Arrays";
   "transformers is not iterable"].

(** The chunks of text of a stream, as events. *)
Definition textEvents (chunks : list string) : list StreamEvent :=
  map (fun data => OnData (TextChunk data)) chunks.

(** Constructing a transformer and applying it to a document. *)
Definition transformWith (Transformer : Class) (args : list json) (openApi : json)
  : result json :=
  transformer <- Transformer args ;;
  transformOpenApi transformer openApi.

(** The class of a test transformer and its label. *)
Definition testClass (async : bool) : Class :=
  if async then AsyncTransformer else SyncTransformer.

Definition testLabel (async : bool) : string :=
  if async then "async-transformer" else "sync-transformer".

(** Running the rest of a pipeline after its first part: on the document
    the first part ended with, or not at all when it failed. *)
Definition thenRun (first : list nat * result json)
  (rest : json -> list nat * result json) : list nat * result json :=
  match first with
  | (calls, Ok next) =>
      let (calls', r) := rest next in ((calls ++ calls')%list, r)
  | (calls, Throw e) => (calls, Throw e)
  end.

(** Transformers that have loaded, with their names, as the entries of the
    loop of the variant with flags only. *)
Definition loadedEntries (named : list (string * Instance))
  : list (string * result Instance) :=
  map (fun entry : string * Instance => (fst entry, Ok (snd entry))) named.

(** The first rejection in the order of the list. *)
Fixpoint firstRejection {A : Type} (ps : list (result A)) : option Error :=
  match ps with
  | [] => None
  | Ok _ :: rest => firstRejection rest
  | Throw e :: _ => Some e
  end.

(** All the loads of the CommonJS variant, in declared order. *)
Definition CommonJs_loads (w : World) (process_cwd : string)
  (configs : list WithConfig.Config) : list (result Instance) :=
  flat_map (fun config =>
              map (CommonJs.createTransformer w
                     (CommonJs.searchPathOf w process_cwd config))
                  (WithConfig.transformers config))
           configs.


Definition isTransformerFlag (event : OptionEvent) : Prop :=
  match event with
  | OptTransformer _ => True
  | OptConfig _ => False
  end.

(** What the oldest variant accepts as a configuration. *)
Definition acceptablePairs (config : json) : bool :=
  match config with
  | JObject props =>
      forallb (fun key => String.eqb key "transformers") (map fst props)
      && match getProp "transformers" props with
         | Some (JArray items) => forallb pairShape items
         | _ => false
         end
  | _ => false
  end.

(** The stderr of a run before its last line: the warning for a terminal
    and the warnings of the YAML loader. *)
Definition stderrBefore (files : list string) (options : option OptionsValue)
  (warnings : list Error) : list string :=
  (ttyWarning files options
     ++ map (fun warning => line (Error_toString warning)) warnings)%list.






(** The pipeline of a run as one chain: the document through the awaited
    configurations, the serialization and the write. *)
Definition written (w : World) (events : list OptionEvent) (openApi : json)
  : result string :=
  configs <- WithConfig.awaitConfigs w (fold_left WithConfig.onOption events []) ;;
  newOpenApi <- snd (WithConfig.applyTransformers w configs openApi) ;;
  jsonText <- serialize w newOpenApi ;;
  streamWrite w (line jsonText).

Definition writtenByFlags (w : World) (events : list OptionEvent) (openApi : json)
  : result string :=
  newOpenApi <- snd (CliOnly.transformLoop 0
                       (CliOnly.loadAll w (CliOnly.transformersOf events)) openApi) ;;
  jsonText <- serialize w newOpenApi ;;
  streamWrite w (line jsonText).

(** How a run ends after its pipeline: with 0 and the chunk on stdout, or
    with 1 and the rendering of the error as the last line of stderr. *)
Definition endOfRun (render : Error -> string) (before : list string)
  (outcome : result string) : MainResult :=
  match outcome with
  | Ok chunk => Resolved 0%Z [chunk] before
  | Throw err => Resolved 1%Z [] (before ++ [line (render err)])%list
  end.



(* ================================================================== *)
(** ** Configuration validation *)

Lemma checkKeys_unrecognized : forall keys key,
  In key keys -> key <> "transformers" ->
  exists bad, In bad keys /\ bad <> "transformers" /\
    WithConfig.checkKeys keys
      = Throw (newError ("unrecognized key '" ++ bad ++ "' in config")).
Proof.
  induction keys as [|k keys IH]; intros key Hin Hneq; [destruct Hin|].
  simpl. destruct (String.eqb_spec k "transformers") as [Heq|Hk].
  - destruct Hin as [<-|Hin]; [congruence|].
    destruct (IH key Hin Hneq) as (bad & Hbad & Hne & Hthrow).
    exists bad. repeat split; auto.
  - exists k. repeat split; auto.
Qed.

Lemma checkKeys_outcome : forall keys,
  WithConfig.checkKeys keys = Ok tt \/
  exists bad, In bad keys /\ bad <> "transformers" /\
    WithConfig.checkKeys keys
      = Throw (newError ("unrecognized key '" ++ bad ++ "' in config")).
Proof.
  induction keys as [|k keys IH]; [left; reflexivity|].
  simpl. destruct (String.eqb_spec k "transformers") as [Heq|Hk].
  - destruct IH as [IH|(bad & Hbad & Hne & Hthrow)]; [left; exact IH|].
    right. exists bad. repeat split; auto.
  - right. exists k. repeat split; auto.
Qed.

Lemma checkTransformer_shape : forall entry,
  if referenceShape entry
  then WithConfig.checkTransformer entry = Ok tt
  else exists e, WithConfig.checkTransformer entry = Throw e
                 /\ In (message e) entryShapeMessages.
Proof.
  intros entry. unfold entryShapeMessages.
  destruct entry as [| b | n | s | items | props |]; simpl;
    try (eexists; split; [reflexivity|simpl; auto]); auto.
  destruct items as [|first rest]; simpl.
  - eexists; split; [reflexivity|simpl; auto].
  - destruct first; simpl; try (eexists; split; [reflexivity|simpl; auto]); auto.
Qed.

Lemma checkTransformers_accepts : forall items,
  forallb referenceShape items = true ->
  WithConfig.checkTransformers items = Ok tt.
Proof.
  induction items as [|entry items IH]; intros Hall; [reflexivity|].
  simpl in Hall. apply andb_prop in Hall as [Hentry Hrest].
  pose proof (checkTransformer_shape entry) as Hshape.
  rewrite Hentry in Hshape. simpl. rewrite Hshape. simpl. auto.
Qed.

Lemma checkTransformers_rejects : forall items entry,
  In entry items -> referenceShape entry = false ->
  exists e, WithConfig.checkTransformers items = Throw e
            /\ In (message e) entryShapeMessages.
Proof.
  induction items as [|first items IH]; intros entry Hin Hshape; [destruct Hin|].
  simpl. pose proof (checkTransformer_shape first) as Hfirst.
  destruct (referenceShape first) eqn:Hf.
  - rewrite Hfirst. simpl.
    destruct Hin as [<-|Hin]; [congruence|]. eauto.
  - destruct Hfirst as (e & He & Hmsg). rewrite He. simpl. eauto.
Qed.

(** C8.  A configuration object with a top-level key other than
    [transformers] is rejected with an error that names such a key, and a
    [transformers] list with an entry that is neither a string nor an array
    headed by a string is rejected: with one of the three messages on the
    shape of an entry, unless an unrecognized key was reported first. *)
Theorem closed_schema_rejections :
  forall (w : World) (stream : Stream) (props : list (string * json)),
    readJson w stream = Ok (JObject props) ->
    (forall key, In key (map fst props) -> key <> "transformers" ->
       exists bad, In bad (map fst props) /\ bad <> "transformers" /\
         WithConfig.readConfigFile w stream
           = Throw (newError ("unrecognized key '" ++ bad ++ "' in config")))
    /\
    (forall items entry,
       getProp "transformers" props = Some (JArray items) ->
       In entry items -> referenceShape entry = false ->
       exists e, WithConfig.readConfigFile w stream = Throw e /\
         ((exists bad, In bad (map fst props) /\ bad <> "transformers" /\
             e = newError ("unrecognized key '" ++ bad ++ "' in config"))
          \/ In (message e) entryShapeMessages)).
Proof.
  intros w stream props Hread. unfold WithConfig.readConfigFile.
  rewrite Hread. simpl. split.
  - intros key Hin Hneq.
    destruct (checkKeys_unrecognized _ _ Hin Hneq) as (bad & Hbad & Hne & Hthrow).
    exists bad. rewrite Hthrow. auto.
  - intros items entry Hget Hin Hshape.
    destruct (checkKeys_outcome (map fst props))
      as [Hkeys|(bad & Hbad & Hne & Hthrow)].
    + rewrite Hkeys, Hget. simpl.
      destruct (checkTransformers_rejects _ _ Hin Hshape) as (e & He & Hmsg).
      exists e. rewrite He. simpl. auto.
    + rewrite Hthrow. simpl. eexists. split; [reflexivity|].
      left. exists bad. auto.
Qed.

Lemma closed_schema_rejections_witness :
  (exists bad, In bad ["plugins"; "transformers"] /\ bad <> "transformers" /\
     WithConfig.readConfigFile
       (Example.world "{}"
          (JObject [("plugins", JArray []); ("transformers", JArray [])])
          (Parsed [] false []))
       (FileStream Example.configPath)
       = Throw (newError ("unrecognized key '" ++ bad ++ "' in config")))
  /\
  (exists e,
     WithConfig.readConfigFile
       (Example.world "{}"
          (JObject [("transformers", JArray [JString "a.js"; JArray [JNull]])])
          (Parsed [] false []))
       (FileStream Example.configPath) = Throw e /\
     ((exists bad, In bad ["transformers"] /\ bad <> "transformers" /\
         e = newError ("unrecognized key '" ++ bad ++ "' in config"))
      \/ In (message e) entryShapeMessages)).
Proof.
  split.
  - apply (proj1 (closed_schema_rejections
                    (Example.world "{}"
                       (JObject [("plugins", JArray []); ("transformers", JArray [])])
                       (Parsed [] false []))
                    (FileStream Example.configPath)
                    [("plugins", JArray []); ("transformers", JArray [])]
                    eq_refl) "plugins").
    + simpl; auto.
    + discriminate.
  - apply (proj2 (closed_schema_rejections
                    (Example.world "{}"
                       (JObject [("transformers", JArray [JString "a.js"; JArray [JNull]])])
                       (Parsed [] false []))
                    (FileStream Example.configPath)
                    [("transformers", JArray [JString "a.js"; JArray [JNull]])]
                    eq_refl)
                 [JString "a.js"; JArray [JNull]] (JArray [JNull])).
    + reflexivity.
    + simpl; auto.
    + reflexivity.
Defined.

(** C7.  A configuration object without [transformers] passes the guard on
    [transformers] and then fails in the [for...of] over [undefined]: the
    file is rejected, and the run of the example, in which the input is
    read before the file is rejected, ends with exit code 1.  An empty
    [transformers] array is accepted. *)
Theorem absent_transformers_rejected :
  (forall path,
     WithConfig.validateConfig (JObject []) path
       = Throw (newTypeError "transformers is not iterable"))
  /\
  (forall path,
     WithConfig.validateConfig (JObject [("transformers", JArray [])]) path
       = Ok (WithConfig.mkConfig path []))
  /\
  WithConfig.openapiTransformerMain
    (Example.world "{}" (JObject []) (Parsed [OptConfig Example.configPath] false []))
    Example.args Example.options
    = Resolved 1 [] [line "TypeError: transformers is not iterable"]
  /\
  WithConfig.openapiTransformerMain
    (Example.world "{}" (JObject [("transformers", JArray [])])
       (Parsed [OptConfig Example.configPath] false []))
    Example.args Example.options
    = Resolved 0 [line "{}"] [].
Proof.
  repeat split; reflexivity.
Qed.

(** C6, as the code has it.  Validation looks at the type of a specifier
    only: a [transformers] list of strings and of arrays headed by a string
    is accepted whatever the strings are, the empty one included, and the
    empty specifier is then handed to the resolver. *)
Theorem validation_checks_specifier_type_only :
  forall (w : World) (stream : Stream) (items : list json),
    readJson w stream = Ok (JObject [("transformers", JArray items)]) ->
    forallb referenceShape items = true ->
    WithConfig.readConfigFile w stream
      = Ok (WithConfig.mkConfig (streamPath stream) items)
    /\
    (forall parent options,
       WithConfig.createTransformer w parent (JArray (JString "" :: options))
       = (resolved <- WithConfig.resolveTransformer w "" parent ;;
          Transformer <- import_default w resolved ;;
          Transformer options))
    /\
    (forall parent,
       WithConfig.createTransformer w parent (JString "")
       = (resolved <- WithConfig.resolveTransformer w "" parent ;;
          Transformer <- import_default w resolved ;;
          Transformer [])).
Proof.
  intros w stream items Hread Hshape. split; [|split; reflexivity].
  unfold WithConfig.readConfigFile. rewrite Hread. simpl.
  rewrite (checkTransformers_accepts _ Hshape). reflexivity.
Qed.

Lemma validation_checks_specifier_type_only_witness :
  WithConfig.readConfigFile
    (Example.world "{}"
       (JObject [("transformers", JArray [JString ""; JArray [JString ""; JNull]])])
       (Parsed [] false []))
    (FileStream Example.configPath)
  = Ok (WithConfig.mkConfig (Some Example.configPath)
          [JString ""; JArray [JString ""; JNull]]).
Proof.
  exact (proj1 (validation_checks_specifier_type_only
                  (Example.world "{}"
                     (JObject [("transformers",
                                JArray [JString ""; JArray [JString ""; JNull]])])
                     (Parsed [] false []))
                  (FileStream Example.configPath)
                  [JString ""; JArray [JString ""; JNull]]
                  eq_refl eq_refl)).
Defined.

(** In the example, whose module lookup refuses the empty specifier, a
    configuration file with the reference [""] is read without complaint
    and the run ends with the error of the lookup. *)
Example run_with_empty_specifier :
  WithConfig.openapiTransformerMain
    (Example.world "{}" (JObject [("transformers", JArray [JString ""])])
       (Parsed [OptConfig Example.configPath] false []))
    Example.args Example.options
  = Resolved 1 []
      [line "TypeError: The argument 'id' must be a non-empty string"].
Proof. reflexivity. Qed.

(** C6, as stated, fails: a configuration whose [transformers] list holds
    the empty string, and a tuple headed by it, passes validation. *)
Lemma empty_specifier_passes_validation :
  WithConfig.validateConfig
    (JObject [("transformers", JArray [JString ""; JArray [JString ""]])]) None
  = Ok (WithConfig.mkConfig None [JString ""; JArray [JString ""]])
  /\
  ~ (exists e,
       WithConfig.validateConfig
         (JObject [("transformers", JArray [JString ""; JArray [JString ""]])]) None
       = Throw e).
Proof.
  split; [reflexivity|]. intros [e He]. discriminate He.
Qed.

(* ================================================================== *)
(** ** [Promise.all] *)

Section PromiseAllFacts.
Context {A : Type}.

Lemma rejections_none : forall (ps : list (result A)) i,
  forallb isOk ps = true -> rejections i ps = [].
Proof.
  induction ps as [|[a|e] ps IH]; intros i Hall; simpl in *;
    [reflexivity | auto | discriminate].
Qed.

Lemma rejections_nil_inv : forall (ps : list (result A)) i,
  rejections i ps = [] -> ps = map Ok (fulfilled ps).
Proof.
  induction ps as [|[a|e] ps IH]; intros i Hnil; simpl in *;
    [reflexivity | f_equal; eauto | discriminate].
Qed.

Lemma rejections_sound : forall (ps : list (result A)) i j e,
  In (j, e) (rejections i ps) -> i <= j /\ nth_error ps (j - i) = Some (Throw e).
Proof.
  induction ps as [|[a|e'] ps IH]; intros i j e Hin; simpl in *.
  - destruct Hin.
  - apply IH in Hin as [Hle Hnth]. split; [lia|].
    replace (j - i) with (S (j - S i)) by lia. exact Hnth.
  - destruct Hin as [Heq|Hin].
    + inversion Heq; subst. split; [lia|]. rewrite Nat.sub_diag. reflexivity.
    + apply IH in Hin as [Hle Hnth]. split; [lia|].
      replace (j - i) with (S (j - S i)) by lia. exact Hnth.
Qed.

Lemma earliest_In : forall rank (rs : list (nat * Error)) r,
  earliest rank rs = Some r -> In r rs.
Proof.
  induction rs as [|[i e] rs IH]; intros r Hr; simpl in *; [discriminate|].
  destruct (earliest rank rs) as [[j e']|] eqn:Hrest.
  - destruct (Nat.ltb (rank j) (rank i)); inversion Hr; subst; auto.
  - inversion Hr; subst; auto.
Qed.

Lemma earliest_none : forall rank (rs : list (nat * Error)),
  earliest rank rs = None -> rs = [].
Proof.
  destruct rs as [|[i e] rs]; simpl; [reflexivity|].
  destruct (earliest rank rs) as [[j e']|];
    [destruct (Nat.ltb (rank j) (rank i))|]; discriminate.
Qed.

(** When every promise fulfils, [Promise.all] fulfils with the values in
    the order of the promises, whenever they settle. *)
Lemma Promise_all_fulfilled : forall rank (ps : list (result A)),
  forallb isOk ps = true -> Promise_all rank ps = Ok (fulfilled ps).
Proof.
  intros rank ps Hall. unfold Promise_all.
  rewrite (rejections_none ps 0 Hall). reflexivity.
Qed.

Lemma Promise_all_Ok_inv : forall rank (ps : list (result A)) values,
  Promise_all rank ps = Ok values -> ps = map Ok values.
Proof.
  intros rank ps values. unfold Promise_all.
  destruct (earliest rank (rejections 0 ps)) as [[j e]|] eqn:He; [discriminate|].
  intros Hok. inversion Hok; subst.
  apply earliest_none in He. eapply rejections_nil_inv; eauto.
Qed.


Lemma fulfilled_map_Ok : forall values : list A, fulfilled (map Ok values) = values.
Proof. induction values; simpl; congruence. Qed.

End PromiseAllFacts.

(* ================================================================== *)
(** ** The fold of [applyTransformers] *)

Lemma no_transformers_no_loads : forall (w : World) (configs : list WithConfig.Config),
  Forall (fun config => WithConfig.transformers config = []) configs ->
  flat_map (WithConfig.createTransformersForConfig w) configs = [].
Proof.
  intros w configs Hall. induction Hall as [|config configs Hnil _ IH]; [reflexivity|].
  simpl. unfold WithConfig.createTransformersForConfig at 1.
  rewrite Hnil, IH. reflexivity.
Qed.

(** C9.  With no transformer reference at all, from the flags or from a
    configuration, the pipeline calls nothing and returns the document it
    was given; so does the loop of the variant with flags only. *)
Theorem empty_pipeline_identity :
  forall (w : World) (configs : list WithConfig.Config) (openApi : json),
    Forall (fun config => WithConfig.transformers config = []) configs ->
    WithConfig.applyTransformers w configs openApi = ([], Ok openApi)
    /\ CliOnly.transformLoop 0 (CliOnly.loadAll w (CliOnly.transformersOf [])) openApi
       = ([], Ok openApi).
Proof.
  intros w configs openApi Hall. split; [|reflexivity].
  unfold WithConfig.applyTransformers.
  rewrite (no_transformers_no_loads w configs Hall). reflexivity.
Qed.

Lemma empty_pipeline_identity_witness :
  WithConfig.applyTransformers
    (Example.world "{}" (JObject [("transformers", JArray [])]) (Parsed [] false []))
    [WithConfig.mkConfig None []; WithConfig.mkConfig (Some Example.configPath) []]
    (JObject [("openapi", JString "3.0.2")])
  = ([], Ok (JObject [("openapi", JString "3.0.2")])).
Proof.
  apply (empty_pipeline_identity
           (Example.world "{}" (JObject [("transformers", JArray [])]) (Parsed [] false []))
           [WithConfig.mkConfig None []; WithConfig.mkConfig (Some Example.configPath) []]
           (JObject [("openapi", JString "3.0.2")])).
  repeat constructor.
Defined.

(** C5.  Where the two specifiers resolve to modules whose default exports
    are the two test transformers, the pipeline turns the document [{}]
    into the document with the marker of [sync-transformer], and with
    both markers in declared order when [async-transformer] follows. *)
Theorem scenario_sync_then_async :
  forall (w : World) (syncModule asyncModule : string),
    WithConfig.resolveTransformer w "sync-transformer" None = Ok syncModule ->
    import_default w syncModule = Ok SyncTransformer ->
    WithConfig.resolveTransformer w "async-transformer" None = Ok asyncModule ->
    import_default w asyncModule = Ok AsyncTransformer ->
    WithConfig.applyTransformers w
      [WithConfig.mkConfig None [JString "sync-transformer"]] (JObject [])
    = ([0],
       Ok (JObject [("x-transformers", JArray [JArray [JString "sync-transformer"]])]))
    /\
    WithConfig.applyTransformers w
      [WithConfig.mkConfig None
         [JString "sync-transformer"; JString "async-transformer"]]
      (JObject [])
    = ([0; 1],
       Ok (JObject [("x-transformers",
                     JArray [JArray [JString "sync-transformer"];
                             JArray [JString "async-transformer"]])])).
Proof.
  intros w syncModule asyncModule Hsync HsyncClass Hasync HasyncClass.
  unfold WithConfig.applyTransformers. simpl flat_map.
  unfold WithConfig.createTransformersForConfig. simpl map.
  change (WithConfig.resolveParentOf w _) with (@None string).
  unfold WithConfig.createTransformer. cbn [WithConfig.nameAndOptions].
  rewrite Hsync, Hasync. cbn [bind]. rewrite HsyncClass, HasyncClass.
  split; reflexivity.
Qed.

Lemma scenario_sync_then_async_witness :
  WithConfig.applyTransformers Example.plainRun
    [WithConfig.mkConfig None
       [JString "sync-transformer"; JString "async-transformer"]]
    (JObject [])
  = ([0; 1],
     Ok (JObject [("x-transformers",
                   JArray [JArray [JString "sync-transformer"];
                           JArray [JString "async-transformer"]])])).
Proof.
  exact (proj2 (scenario_sync_then_async Example.plainRun
                  "/opt/cli/sync-transformer" "/opt/cli/async-transformer"
                  eq_refl eq_refl eq_refl eq_refl)).
Defined.

(* ================================================================== *)
(** ** Assembling the pipeline from the flags *)

Lemma awaitConfigs_Ok_no_rejection : forall w configsOrPromises configs,
  WithConfig.awaitConfigs w configsOrPromises = Ok configs ->
  WithConfig.earlyRejection w configsOrPromises = None.
Proof.
  intros w configsOrPromises configs. unfold WithConfig.awaitConfigs, Promise_all.
  destruct (earliest (configRank w)
              (rejections 0 (WithConfig.settledConfigs w configsOrPromises)))
    as [[j e]|] eqn:Hearliest; [discriminate|].
  intros _. apply earliest_none in Hearliest.
  unfold WithConfig.earlyRejection. rewrite Hearliest. reflexivity.
Qed.

(** A run of the variant with configuration files whose command line was
    parsed and in which no configuration file was rejected before the input
    was read: the input is read, then the pipeline runs, and the run ends
    with 0 and the serialized document, or with 1 and the error. *)
Lemma WithConfig_main_run :
  forall w items options events files,
    checkArguments (ArgsArray items) options = None ->
    commanderParse w items = Parsed events false files ->
    WithConfig.earlyRejection w (fold_left WithConfig.onOption events []) = None ->
    WithConfig.openapiTransformerMain w (ArgsArray items) options
    = endOfRun Error_toString
        (stderrBefore files options (fst (readJsonOrYaml w (openApiStreamOf files))))
        (openApi <- snd (readJsonOrYaml w (openApiStreamOf files)) ;;
         written w events openApi).
Proof.
  intros w items options events files Hargs Hparse Hearly.
  unfold WithConfig.openapiTransformerMain.
  rewrite Hargs. cbv beta iota. rewrite Hparse. cbv beta iota zeta. rewrite Hearly.
  destruct (readJsonOrYaml w (openApiStreamOf files)) as [warnings parsed].
  reflexivity.
Qed.

Lemma CliOnly_main_run :
  forall w items options events files,
    checkArguments (ArgsArray items) options = None ->
    commanderParse w items = Parsed events false files ->
    CliOnly.openapiTransformerMain w (ArgsArray items) options
    = endOfRun (stackOf w)
        (stderrBefore files options (fst (readJsonOrYaml w (openApiStreamOf files))))
        (openApi <- snd (readJsonOrYaml w (openApiStreamOf files)) ;;
         writtenByFlags w events openApi).
Proof.
  intros w items options events files Hargs Hparse.
  unfold CliOnly.openapiTransformerMain.
  rewrite Hargs. cbv beta iota. rewrite Hparse. cbv beta iota zeta.
  destruct (readJsonOrYaml w (openApiStreamOf files)) as [warnings parsed].
  reflexivity.
Qed.

(** C1.  For the flags [--transformer A --config file --transformer B],
    where the file holds the references [C] and [D], the configurations
    awaited are those of [A], of the file and of [B], and
    [applyTransformers] awaits the loads of [A], [C], [D], [B], in this
    order: [A] and [B] without a configuration file path, [C] and [D] with
    that of the file.  When the four load, it runs the loop over their
    instances in this order, so that the document goes through [A], then
    [C], then [D], then [B], and the run writes the serialization of that
    document. *)
Theorem config_transformers_at_flag_position :
  forall (w : World) (A B configPath : string) (C D : json)
         (config : WithConfig.Config),
    WithConfig.readConfigFile w (configStreamOf configPath) = Ok config ->
    WithConfig.transformers config = [C; D] ->
    WithConfig.awaitConfigs w
      (fold_left WithConfig.onOption
         [OptTransformer A; OptConfig configPath; OptTransformer B] [])
    = Ok [WithConfig.mkConfig None [JString A]; config;
          WithConfig.mkConfig None [JString B]]
    /\
    flat_map WithConfig.transformers
      [WithConfig.mkConfig None [JString A]; config;
       WithConfig.mkConfig None [JString B]]
    = [JString A; C; D; JString B]
    /\
    (forall openApi,
       WithConfig.applyTransformers w
         [WithConfig.mkConfig None [JString A]; config;
          WithConfig.mkConfig None [JString B]] openApi
       = match Promise_all (loadRank w)
                 [WithConfig.createTransformer w None (JString A);
                  WithConfig.createTransformer w (WithConfig.resolveParentOf w config) C;
                  WithConfig.createTransformer w (WithConfig.resolveParentOf w config) D;
                  WithConfig.createTransformer w None (JString B)] with
         | Ok transformers => WithConfig.transformLoop 0 transformers openApi
         | Throw e => ([], Throw e)
         end)
    /\
    (forall tA tC tD tB : Instance,
       WithConfig.createTransformer w None (JString A) = Ok tA ->
       WithConfig.createTransformer w (WithConfig.resolveParentOf w config) C = Ok tC ->
       WithConfig.createTransformer w (WithConfig.resolveParentOf w config) D = Ok tD ->
       WithConfig.createTransformer w None (JString B) = Ok tB ->
       (forall openApi,
          WithConfig.applyTransformers w
            [WithConfig.mkConfig None [JString A]; config;
             WithConfig.mkConfig None [JString B]] openApi
          = WithConfig.transformLoop 0 [tA; tC; tD; tB] openApi
          /\
          snd (WithConfig.applyTransformers w
                 [WithConfig.mkConfig None [JString A]; config;
                  WithConfig.mkConfig None [JString B]] openApi)
          = (afterA <- transformOpenApi tA openApi ;;
             afterC <- transformOpenApi tC afterA ;;
             afterD <- transformOpenApi tD afterC ;;
             transformOpenApi tB afterD))
       /\
       (forall items options files warnings openApi,
          checkArguments (ArgsArray items) options = None ->
          commanderParse w items
            = Parsed [OptTransformer A; OptConfig configPath; OptTransformer B]
                false files ->
          readJsonOrYaml w (openApiStreamOf files) = (warnings, Ok openApi) ->
          WithConfig.openapiTransformerMain w (ArgsArray items) options
          = endOfRun Error_toString (stderrBefore files options warnings)
              (afterA <- transformOpenApi tA openApi ;;
               afterC <- transformOpenApi tC afterA ;;
               afterD <- transformOpenApi tD afterC ;;
               newOpenApi <- transformOpenApi tB afterD ;;
               jsonText <- serialize w newOpenApi ;;
               streamWrite w (line jsonText)))).
Proof.
  intros w A B configPath C D config Hread Htransformers.
  assert (Hconfigs :
    WithConfig.awaitConfigs w
      (fold_left WithConfig.onOption
         [OptTransformer A; OptConfig configPath; OptTransformer B] [])
    = Ok [WithConfig.mkConfig None [JString A]; config;
          WithConfig.mkConfig None [JString B]]).
  { unfold WithConfig.awaitConfigs, WithConfig.settledConfigs. simpl.
    fold (configStreamOf configPath). rewrite Hread. reflexivity. }
  assert (Hloads :
    flat_map (WithConfig.createTransformersForConfig w)
      [WithConfig.mkConfig None [JString A]; config;
       WithConfig.mkConfig None [JString B]]
    = [WithConfig.createTransformer w None (JString A);
       WithConfig.createTransformer w (WithConfig.resolveParentOf w config) C;
       WithConfig.createTransformer w (WithConfig.resolveParentOf w config) D;
       WithConfig.createTransformer w None (JString B)]).
  { simpl. unfold WithConfig.createTransformersForConfig.
    rewrite Htransformers. reflexivity. }
  split; [exact Hconfigs|]. split; [simpl; rewrite Htransformers; reflexivity|].
  split.
  { intros openApi. unfold WithConfig.applyTransformers. rewrite Hloads. reflexivity. }
  intros tA tC tD tB HA HC HD HB.
  assert (Happly : forall openApi,
    WithConfig.applyTransformers w
      [WithConfig.mkConfig None [JString A]; config;
       WithConfig.mkConfig None [JString B]] openApi
    = WithConfig.transformLoop 0 [tA; tC; tD; tB] openApi).
  { intros openApi. unfold WithConfig.applyTransformers.
    rewrite Hloads, HA, HC, HD, HB. reflexivity. }
  assert (Hchain : forall openApi,
    snd (WithConfig.transformLoop 0 [tA; tC; tD; tB] openApi)
    = (afterA <- transformOpenApi tA openApi ;;
       afterC <- transformOpenApi tC afterA ;;
       afterD <- transformOpenApi tD afterC ;;
       transformOpenApi tB afterD)).
  { intros openApi. simpl.
    destruct (transformOpenApi tA openApi) as [afterA|e]; [|reflexivity]. simpl.
    destruct (transformOpenApi tC afterA) as [afterC|e]; [|reflexivity]. simpl.
    destruct (transformOpenApi tD afterC) as [afterD|e]; [|reflexivity]. simpl.
    destruct (transformOpenApi tB afterD) as [afterB|e]; reflexivity. }
  split.
  - intros openApi. split; [apply Happly|]. rewrite Happly. apply Hchain.
  - intros items options files warnings openApi Hargs Hparse Hinput.
    rewrite (WithConfig_main_run w items options _ files Hargs Hparse
               (awaitConfigs_Ok_no_rejection _ _ _ Hconfigs)).
    rewrite Hinput. cbn [fst snd bind]. unfold written.
    rewrite Hconfigs. cbn [bind]. rewrite Happly, Hchain.
    destruct (transformOpenApi tA openApi) as [afterA|e]; [|reflexivity]. cbn [bind].
    destruct (transformOpenApi tC afterA) as [afterC|e]; [|reflexivity]. cbn [bind].
    destruct (transformOpenApi tD afterC) as [afterD|e]; reflexivity.
Qed.

Lemma config_transformers_at_flag_position_witness :
  WithConfig.awaitConfigs
    (Example.world "{}" Example.configJson
       (Parsed [OptTransformer "./async-transformer.js";
                OptConfig Example.configPath;
                OptTransformer "./sync-transformer.js"] false []))
    (fold_left WithConfig.onOption
       [OptTransformer "./async-transformer.js"; OptConfig Example.configPath;
        OptTransformer "./sync-transformer.js"] [])
  = Ok [WithConfig.mkConfig None [JString "./async-transformer.js"];
        WithConfig.mkConfig (Some Example.configPath)
          [JString "./sync-transformer.js";
           JArray [JString "./async-transformer.js"; JString "asyncArg"]];
        WithConfig.mkConfig None [JString "./sync-transformer.js"]]
  /\
  WithConfig.applyTransformers
    (Example.world "{}" Example.configJson
       (Parsed [OptTransformer "./async-transformer.js";
                OptConfig Example.configPath;
                OptTransformer "./sync-transformer.js"] false []))
    [WithConfig.mkConfig None [JString "./async-transformer.js"];
     WithConfig.mkConfig (Some Example.configPath)
       [JString "./sync-transformer.js";
        JArray [JString "./async-transformer.js"; JString "asyncArg"]];
     WithConfig.mkConfig None [JString "./sync-transformer.js"]]
    (JObject [])
  = ([0; 1; 2; 3],
     Ok (JObject [("x-transformers",
           JArray [JArray [JString "async-transformer"];
                   JArray [JString "sync-transformer"];
                   JArray [JString "async-transformer"; JString "asyncArg"];
                   JArray [JString "sync-transformer"]])]))
  /\
  WithConfig.openapiTransformerMain
    (Example.world "{}" Example.configJson
       (Parsed [OptTransformer "./async-transformer.js";
                OptConfig Example.configPath;
                OptTransformer "./sync-transformer.js"] false []))
    Example.args Example.options
  = Resolved 0
      [line (Example.stringify ""
         (JObject [("x-transformers",
            JArray [JArray [JString "async-transformer"];
                    JArray [JString "sync-transformer"];
                    JArray [JString "async-transformer"; JString "asyncArg"];
                    JArray [JString "sync-transformer"]])]))]
      [].
Proof.
  pose proof (config_transformers_at_flag_position
                (Example.world "{}" Example.configJson
                   (Parsed [OptTransformer "./async-transformer.js";
                            OptConfig Example.configPath;
                            OptTransformer "./sync-transformer.js"] false []))
                "./async-transformer.js" "./sync-transformer.js" Example.configPath
                (JString "./sync-transformer.js")
                (JArray [JString "./async-transformer.js"; JString "asyncArg"])
                (WithConfig.mkConfig (Some Example.configPath)
                   [JString "./sync-transformer.js";
                    JArray [JString "./async-transformer.js"; JString "asyncArg"]])
                eq_refl eq_refl)
    as (Hconfigs & _ & _ & Hloaded).
  destruct (Hloaded _ _ _ _ eq_refl eq_refl eq_refl eq_refl) as [Happly Hmain].
  split; [exact Hconfigs|]. split.
  - exact (proj1 (Happly (JObject []))).
  - exact (Hmain ["node"; "openapi-transformer"] Example.options [] [] (JObject [])
             eq_refl eq_refl eq_refl).
Defined.

(** The whole run of the example: the markers come out in the order of the
    flags, the file's transformers between those of the two flags. *)
Example run_with_config_between_flags :
  WithConfig.openapiTransformerMain
    (Example.world "{}" Example.configJson
       (Parsed [OptTransformer "./async-transformer.js";
                OptConfig Example.configPath;
                OptTransformer "./sync-transformer.js"] false []))
    Example.args Example.options
  = Resolved 0
      [line (Example.stringify ""
         (JObject [("x-transformers",
            JArray [JArray [JString "async-transformer"];
                    JArray [JString "sync-transformer"];
                    JArray [JString "async-transformer"; JString "asyncArg"];
                    JArray [JString "sync-transformer"]])]))]
      [].
Proof. reflexivity. Qed.

(* ================================================================== *)
(** ** The order of the flags, in general *)

Lemma nth_error_last : forall (A : Type) (l : list A) (x : A),
  nth_error (l ++ [x]) (length (l ++ [x]) - 1) = Some x.
Proof.
  intros A l x. rewrite length_app. simpl.
  replace (length l + 1 - 1) with (length l) by lia.
  rewrite nth_error_app2 by lia. rewrite Nat.sub_diag. reflexivity.
Qed.

Lemma onOptionTransformer_brings : forall w transformer configsOrPromises,
  flat_map (broughtBy w) (WithConfig.onOptionTransformer transformer configsOrPromises)
  = (flat_map (broughtBy w) configsOrPromises ++ [JString transformer])%list.
Proof.
  intros w transformer configsOrPromises.
  destruct configsOrPromises as [|c0 rest] using rev_ind; [reflexivity|].
  unfold WithConfig.onOptionTransformer. rewrite nth_error_last.
  destruct c0 as [lastConfig|configStream].
  - rewrite removelast_last, !flat_map_app. simpl.
    rewrite !app_nil_r, app_assoc. reflexivity.
  - rewrite !flat_map_app. reflexivity.
Qed.

Lemma fold_onOption_brings : forall w events configsOrPromises,
  flat_map (broughtBy w) (fold_left WithConfig.onOption events configsOrPromises)
  = (flat_map (broughtBy w) configsOrPromises ++ declared w events)%list.
Proof.
  intros w events. induction events as [|event events IH]; intros configsOrPromises.
  - simpl. rewrite app_nil_r. reflexivity.
  - simpl fold_left. rewrite IH. unfold declared. simpl flat_map.
    rewrite app_assoc. f_equal.
    destruct event as [configPath|transformer]; simpl WithConfig.onOption.
    + unfold WithConfig.onOptionConfig. rewrite flat_map_app. simpl.
      rewrite app_nil_r. reflexivity.
    + apply onOptionTransformer_brings.
Qed.

Lemma awaited_configs_bring : forall w configsOrPromises configs,
  map (fun c => match c with
                | WithConfig.ConfigObject config => Ok config
                | WithConfig.ConfigPromise configStream =>
                    WithConfig.readConfigFile w configStream
                end) configsOrPromises
  = map Ok configs ->
  flat_map WithConfig.transformers configs = flat_map (broughtBy w) configsOrPromises.
Proof.
  intros w configsOrPromises. induction configsOrPromises as [|c rest IH];
    intros [|config configs] Hmap; simpl in *; try discriminate; [reflexivity|].
  injection Hmap as Hc Hrest. rewrite (IH _ Hrest). f_equal.
  destruct c as [config'|configStream]; simpl.
  - congruence.
  - rewrite Hc. reflexivity.
Qed.

(** Whatever the flags, once the configuration files are read the
    references of the pipeline are those the command line declares, in the
    order of its flags: the [transformers] of a file stand where its
    [--config] flag stands among the [--transformer] flags. *)
Lemma assembled_in_flag_order :
  forall (w : World) (events : list OptionEvent) (configs : list WithConfig.Config),
    WithConfig.awaitConfigs w (fold_left WithConfig.onOption events []) = Ok configs ->
    flat_map WithConfig.transformers configs = declared w events.
Proof.
  intros w events configs Hawait. unfold WithConfig.awaitConfigs in Hawait.
  apply Promise_all_Ok_inv in Hawait.
  rewrite (awaited_configs_bring _ _ _ Hawait), fold_onOption_brings.
  reflexivity.
Qed.

(* ================================================================== *)
(** ** Where a transformer named on the command line is looked up *)

(** In the variant with flags only, every transformer is loaded with the
    URL of a file in the working directory as its parent, so that the
    lookup starts from the working directory. *)
Lemma flag_transformer_looked_up_from_cwd :
  forall (w : World) (cwd name : string),
    fileURLToPath w (CliOnly.cwdUrl w) = Ok (path_resolve w "dummy.js") ->
    path_dirname w (path_resolve w "dummy.js") = cwd ->
    CliOnly.cwdUrl w <> "" ->
    String.prefix "file:" name = false ->
    CliOnly.loadTransformer w name (Some (CliOnly.cwdUrl w))
    = (resolved <- nodeResolve w (RootPaths [cwd]) name ;;
       Transformer <- import_default w (pathToFileURL w resolved) ;;
       Transformer []).
Proof.
  intros w cwd name Hurl Hdir Hne Hprefix.
  unfold CliOnly.loadTransformer, CliOnly.resolveTransformer.
  rewrite Hprefix. simpl.
  destruct (String.eqb_spec (CliOnly.cwdUrl w) "") as [Heq|_]; [contradiction|].
  rewrite Hurl. simpl. rewrite Hdir.
  destruct (nodeResolve w (RootPaths [cwd]) name); reflexivity.
Qed.

Lemma flag_transformer_looked_up_from_cwd_witness :
  CliOnly.loadTransformer
    (Example.world "{}" (JObject []) (Parsed [] false []))
    "./sync-transformer.js"
    (Some (CliOnly.cwdUrl (Example.world "{}" (JObject []) (Parsed [] false []))))
  = (resolved <- nodeResolve (Example.world "{}" (JObject []) (Parsed [] false []))
                   (RootPaths [Example.cwd]) "./sync-transformer.js" ;;
     Transformer <- import_default (Example.world "{}" (JObject []) (Parsed [] false []))
                      (pathToFileURL (Example.world "{}" (JObject []) (Parsed [] false []))
                         resolved) ;;
     Transformer []).
Proof.
  apply (flag_transformer_looked_up_from_cwd
           (Example.world "{}" (JObject []) (Parsed [] false []))
           Example.cwd "./sync-transformer.js").
  - reflexivity.
  - reflexivity.
  - discriminate.
  - reflexivity.
Defined.

(** C3, on the variant with configuration files.  A transformer named by a
    [--transformer] flag becomes a configuration without a file path; its
    specifier is resolved with no parent, and the lookup of [makeResolver()]
    then starts from the module of the command itself, not from the working
    directory; where the runtime has [import.meta.resolve], that function is
    called with the specifier and no parent.  In the example the command
    lies in [/opt/cli] and the process runs in [/work]: [./t.js] is looked
    up as [/opt/cli/./t.js]. *)
Theorem flag_transformer_looked_up_from_module :
  (forall (w : World) (name : string),
     fold_left WithConfig.onOption [OptTransformer name] []
       = [WithConfig.ConfigObject (WithConfig.mkConfig None [JString name])]
     /\
     WithConfig.createTransformersForConfig w (WithConfig.mkConfig None [JString name])
       = [resolved <- match import_meta_resolve w with
                      | Some resolve => resolve name None
                      | None => nodeResolve w (RootOfModule (import_meta_url w)) name
                      end ;;
          Transformer <- import_default w resolved ;;
          Transformer []])
  /\
  WithConfig.resolveTransformer
    (Example.world "{}" (JObject []) (Parsed [OptTransformer "./t.js"] false []))
    "./t.js" None
    = Ok "/opt/cli/./t.js"
  /\
  nodeResolve
    (Example.world "{}" (JObject []) (Parsed [OptTransformer "./t.js"] false []))
    (RootPaths [Example.cwd]) "./t.js"
    = Ok "/work/./t.js".
Proof.
  repeat split; reflexivity.
Qed.

(* ================================================================== *)
(** ** The message of an attributed error *)

Lemma prefix_refl_app : forall needle rest, String.prefix needle (needle ++ rest) = true.
Proof.
  induction needle as [|c needle IH]; intros rest; simpl.
  - destruct rest; reflexivity.
  - rewrite IH. destruct (ascii_dec c c); [reflexivity|contradiction].
Qed.

Lemma includes_prefix : forall needle hay,
  String.prefix needle hay = true -> includes needle hay = true.
Proof.
  intros needle hay Hprefix. destruct hay; cbn [includes]; rewrite Hprefix; reflexivity.
Qed.

Lemma includes_suffix : forall before needle after,
  includes needle (before ++ needle ++ after) = true.
Proof.
  induction before as [|c before IH]; intros needle after.
  - change ("" ++ needle ++ after) with (needle ++ after).
    apply includes_prefix, prefix_refl_app.
  - cbn [append includes].
    destruct (String.prefix needle (String c (before ++ needle ++ after)));
      [reflexivity|apply IH].
Qed.

Lemma append_nil_r : forall s : string, s ++ "" = s.
Proof. induction s; simpl; congruence. Qed.

Lemma append_assoc : forall a b c : string, (a ++ b) ++ c = a ++ b ++ c.
Proof. induction a; intros; simpl; congruence. Qed.

(** The message of an error the loop has attributed names the transformer. *)
Lemma attributed_message_includes : forall e0 name,
  includes name
    (message (appendMessage e0 (" applying transformer " ++ name))) = true.
Proof.
  intros e0 name. unfold appendMessage. cbn [message].
  pose proof (includes_suffix (message e0 ++ " applying transformer ") name "") as H.
  rewrite append_nil_r, append_assoc in H. exact H.
Qed.

(* ================================================================== *)
(** ** The exit code of the entry point *)






(** A run on an empty input: js-yaml gives [undefined] for it, which the
    serialization of the end of the run can not take; the run ends with 1,
    in both variants. *)
Example empty_input_is_a_failure :
  WithConfig.openapiTransformerMain
    (Example.world "" (JObject []) (Parsed [] false []))
    Example.args Example.options
  = Resolved 1 []
      [line "TypeError: Cannot read properties of undefined (reading 'replace')"]
  /\
  CliOnly.openapiTransformerMain
    (Example.world "" (JObject []) (Parsed [] false []))
    Example.args Example.options
  = Resolved 1 []
      [line (stackOf (Example.world "" (JObject []) (Parsed [] false []))
               (newTypeError
                  "Cannot read properties of undefined (reading 'replace')"))].
Proof. split; reflexivity. Qed.


(* ================================================================== *)
(** ** The order of the fold against the order of the loads *)

Lemma calledOf_app : forall t1 t2 : list Event,
  calledOf (t1 ++ t2) = (calledOf t1 ++ calledOf t2)%list.
Proof. intros. unfold calledOf. apply flat_map_app. Qed.

Lemma calledOf_snoc_Settled : forall (trace : list Event) i,
  calledOf (trace ++ [Settled i]) = calledOf trace.
Proof. intros. rewrite calledOf_app. simpl. apply app_nil_r. Qed.

Lemma calledOf_snoc_Returned : forall (trace : list Event) i,
  calledOf (trace ++ [Returned i]) = calledOf trace.
Proof. intros. rewrite calledOf_app. simpl. apply app_nil_r. Qed.

Lemma calledOf_snoc_Called : forall (trace : list Event) n,
  calledOf trace = seq 0 n -> calledOf (trace ++ [Called n]) = seq 0 (S n).
Proof.
  intros trace n H. rewrite calledOf_app, H, seq_S. reflexivity.
Qed.

Lemma foldTo_step : forall loads openApi k current transformer next,
  foldTo k loads openApi = Some current ->
  nth_error loads k = Some (Ok transformer) ->
  transformOpenApi transformer current = Ok next ->
  foldTo (S k) loads openApi = Some next.
Proof.
  intros loads openApi k current transformer next Hfold Hnth Hcall.
  simpl. rewrite Hfold, Hnth, Hcall. reflexivity.
Qed.

Lemma nth_error_lt : forall (A : Type) (l : list A) k x,
  nth_error l k = Some x -> k < length l.
Proof.
  intros A l k x H. apply nth_error_Some. congruence.
Qed.

Lemma inDeclaredOrder_prefix : forall loads openApi s,
  inDeclaredOrder loads openApi s ->
  exists k, k <= length loads /\ st_next s <= k <= S (st_next s)
            /\ calledOf (st_trace s) = seq 0 k.
Proof.
  intros loads openApi s (Hle & _ & Hphase).
  destruct (st_phase s).
  - exists (st_next s). repeat split; auto.
  - exists (st_next s). repeat split; auto.
  - destruct Hphase as [Hlt Hcalled]. exists (S (st_next s)). repeat split; auto.
  - destruct Hphase as [Hcalled|[Hlt Hcalled]].
    + exists (st_next s). repeat split; auto.
    + exists (S (st_next s)). repeat split; auto.
Qed.

Lemma CliOnly_step_inDeclaredOrder : forall entries openApi s s',
  inDeclaredOrder (map snd entries) openApi s ->
  CliOnly.step entries s s' ->
  inDeclaredOrder (map snd entries) openApi s'.
Proof.
  intros entries openApi s s' (Hle & Hfold & Hphase) Hstep.
  assert (Hsnd : forall k name p, nth_error entries k = Some (name, p) ->
                                  nth_error (map snd entries) k = Some p).
  { intros k name p H. rewrite nth_error_map, H. reflexivity. }
  inversion Hstep; subst; unfold inDeclaredOrder; simpl.
  - split; [exact Hle|]. split; [exact Hfold|].
    rewrite calledOf_snoc_Settled. exact Hphase.
  - rewrite H in Hphase. split; [exact Hle|]. split; [exact Hfold|].
    split; [eapply nth_error_lt; eauto|].
    apply calledOf_snoc_Called; exact Hphase.
  - rewrite H in Hphase. split; [exact Hle|]. split; [exact Hfold|]. left; exact Hphase.
  - rewrite H in Hphase. destruct Hphase as [Hlt Hcalled].
    split; [exact Hlt|].
    split; [eapply foldTo_step; eauto|].
    rewrite calledOf_snoc_Returned. exact Hcalled.
  - rewrite H in Hphase. split; [exact Hle|]. split; [exact Hfold|]. right; exact Hphase.
Qed.

Lemma WithConfig_step_inDeclaredOrder : forall loads openApi s s',
  inDeclaredOrder loads openApi s ->
  WithConfig.step loads s s' ->
  inDeclaredOrder loads openApi s'.
Proof.
  intros loads openApi s s' (Hle & Hfold & Hphase) Hstep.
  inversion Hstep; subst; unfold inDeclaredOrder; simpl.
  - split; [exact Hle|]. split; [exact Hfold|].
    rewrite calledOf_snoc_Settled. exact Hphase.
  - split; [exact Hle|]. split; [exact Hfold|].
    rewrite calledOf_snoc_Settled.
    destruct (st_phase s); auto.
  - rewrite H in Hphase. split; [exact Hle|]. split; [exact Hfold|]. exact Hphase.
  - rewrite H in Hphase. split; [exact Hle|]. split; [exact Hfold|].
    split; [eapply nth_error_lt; eauto|].
    apply calledOf_snoc_Called; exact Hphase.
  - rewrite H in Hphase. destruct Hphase as [Hlt Hcalled].
    split; [exact Hlt|].
    split; [eapply foldTo_step; eauto|].
    rewrite calledOf_snoc_Returned. exact Hcalled.
  - rewrite H in Hphase. split; [exact Hle|]. split; [exact Hfold|]. right; exact Hphase.
Qed.

Lemma CliOnly_reachable_inDeclaredOrder : forall entries openApi s,
  CliOnly.reachable entries openApi s ->
  inDeclaredOrder (map snd entries) openApi s.
Proof.
  intros entries openApi s Hreach. induction Hreach as [|s s' _ IH Hstep].
  - unfold inDeclaredOrder. simpl. repeat split; auto. lia.
  - eapply CliOnly_step_inDeclaredOrder; eauto.
Qed.

Lemma WithConfig_reachable_inDeclaredOrder : forall loads openApi s,
  WithConfig.reachable loads openApi s ->
  inDeclaredOrder loads openApi s.
Proof.
  intros loads openApi s Hreach. induction Hreach as [|s s' _ IH Hstep].
  - unfold inDeclaredOrder. simpl. repeat split; auto. lia.
  - eapply WithConfig_step_inDeclaredOrder; eauto.
Qed.

Lemma CliOnly_secondSettledFirst_reachable :
  CliOnly.reachable Example.twoEntries (JObject []) Example.secondSettledFirst.
Proof.
  pose proof (CliOnly.reach_init Example.twoEntries (JObject [])) as H0.
  assert (H1 : CliOnly.reachable Example.twoEntries (JObject [])
                 (mkState [1] Idle 0 (JObject []) [Settled 1])).
  { eapply CliOnly.reach_step; [exact H0|].
    apply (CliOnly.step_settle Example.twoEntries (CliOnly.init (JObject [])) 1);
      simpl; [lia|tauto]. }
  assert (H2 : CliOnly.reachable Example.twoEntries (JObject [])
                 (mkState [0; 1] Idle 0 (JObject []) [Settled 1; Settled 0])).
  { eapply CliOnly.reach_step; [exact H1|].
    apply (CliOnly.step_settle Example.twoEntries
             (mkState [1] Idle 0 (JObject []) [Settled 1]) 0);
      simpl; [lia|intros [H|[]]; discriminate]. }
  assert (H3 : CliOnly.reachable Example.twoEntries (JObject [])
                 (mkState [0; 1] Running 0 (JObject [])
                    [Settled 1; Settled 0; Called 0])).
  { eapply CliOnly.reach_step; [exact H2|].
    eapply (CliOnly.step_call Example.twoEntries
              (mkState [0; 1] Idle 0 (JObject []) [Settled 1; Settled 0]));
      [reflexivity|reflexivity|simpl; auto]. }
  assert (H4 : CliOnly.reachable Example.twoEntries (JObject [])
                 (mkState [0; 1] Idle 1 Example.afterA
                    [Settled 1; Settled 0; Called 0; Returned 0])).
  { eapply CliOnly.reach_step; [exact H3|].
    eapply (CliOnly.step_return Example.twoEntries
              (mkState [0; 1] Running 0 (JObject []) [Settled 1; Settled 0; Called 0]));
      reflexivity. }
  assert (H5 : CliOnly.reachable Example.twoEntries (JObject [])
                 (mkState [0; 1] Running 1 Example.afterA
                    [Settled 1; Settled 0; Called 0; Returned 0; Called 1])).
  { eapply CliOnly.reach_step; [exact H4|].
    eapply (CliOnly.step_call Example.twoEntries
              (mkState [0; 1] Idle 1 Example.afterA
                 [Settled 1; Settled 0; Called 0; Returned 0]));
      [reflexivity|reflexivity|simpl; auto]. }
  eapply CliOnly.reach_step; [exact H5|].
  eapply (CliOnly.step_return Example.twoEntries
            (mkState [0; 1] Running 1 Example.afterA
               [Settled 1; Settled 0; Called 0; Returned 0; Called 1]));
    reflexivity.
Qed.

Lemma WithConfig_secondSettledFirst_reachable :
  WithConfig.reachable (map snd Example.twoEntries) (JObject [])
    Example.secondSettledFirst.
Proof.
  pose proof (WithConfig.reach_init (map snd Example.twoEntries) (JObject [])) as H0.
  assert (H1 : WithConfig.reachable (map snd Example.twoEntries) (JObject [])
                 (mkState [1] Loading 0 (JObject []) [Settled 1])).
  { eapply WithConfig.reach_step; [exact H0|].
    eapply (WithConfig.step_settle_fulfilled (map snd Example.twoEntries)
              (WithConfig.init (JObject [])) 1);
      [simpl; tauto|reflexivity]. }
  assert (H2 : WithConfig.reachable (map snd Example.twoEntries) (JObject [])
                 (mkState [0; 1] Loading 0 (JObject []) [Settled 1; Settled 0])).
  { eapply WithConfig.reach_step; [exact H1|].
    eapply (WithConfig.step_settle_fulfilled (map snd Example.twoEntries)
              (mkState [1] Loading 0 (JObject []) [Settled 1]) 0);
      [simpl; intros [H|[]]; discriminate|reflexivity]. }
  assert (H2' : WithConfig.reachable (map snd Example.twoEntries) (JObject [])
                  (mkState [0; 1] Idle 0 (JObject []) [Settled 1; Settled 0])).
  { eapply WithConfig.reach_step; [exact H2|].
    apply (WithConfig.step_all_fulfilled (map snd Example.twoEntries)
             (mkState [0; 1] Loading 0 (JObject []) [Settled 1; Settled 0]));
      [reflexivity| |reflexivity].
    simpl. intros i Hi. destruct i as [|[|i]]; [auto|auto|lia]. }
  assert (H3 : WithConfig.reachable (map snd Example.twoEntries) (JObject [])
                 (mkState [0; 1] Running 0 (JObject [])
                    [Settled 1; Settled 0; Called 0])).
  { eapply WithConfig.reach_step; [exact H2'|].
    eapply (WithConfig.step_call (map snd Example.twoEntries)
              (mkState [0; 1] Idle 0 (JObject []) [Settled 1; Settled 0]));
      reflexivity. }
  assert (H4 : WithConfig.reachable (map snd Example.twoEntries) (JObject [])
                 (mkState [0; 1] Idle 1 Example.afterA
                    [Settled 1; Settled 0; Called 0; Returned 0])).
  { eapply WithConfig.reach_step; [exact H3|].
    eapply (WithConfig.step_return (map snd Example.twoEntries)
              (mkState [0; 1] Running 0 (JObject []) [Settled 1; Settled 0; Called 0]));
      reflexivity. }
  assert (H5 : WithConfig.reachable (map snd Example.twoEntries) (JObject [])
                 (mkState [0; 1] Running 1 Example.afterA
                    [Settled 1; Settled 0; Called 0; Returned 0; Called 1])).
  { eapply WithConfig.reach_step; [exact H4|].
    eapply (WithConfig.step_call (map snd Example.twoEntries)
              (mkState [0; 1] Idle 1 Example.afterA
                 [Settled 1; Settled 0; Called 0; Returned 0]));
      reflexivity. }
  eapply WithConfig.reach_step; [exact H5|].
  eapply (WithConfig.step_return (map snd Example.twoEntries)
            (mkState [0; 1] Running 1 Example.afterA
               [Settled 1; Settled 0; Called 0; Returned 0; Called 1]));
    reflexivity.
Qed.

(* ================================================================== *)
(** ** Every order of settling is possible, and the run goes through *)

Lemma settledOf_app : forall t1 t2 : list Event,
  settledOf (t1 ++ t2) = (settledOf t1 ++ settledOf t2)%list.
Proof. intros. unfold settledOf. apply flat_map_app. Qed.

Lemma settledOf_map_Settled : forall order, settledOf (map Settled order) = order.
Proof. induction order; simpl; congruence. Qed.

Lemma calledOf_map_Settled : forall order, calledOf (map Settled order) = [].
Proof. induction order; simpl; auto. Qed.

Lemma skipn_nth_error : forall (A : Type) (l : list A) k x,
  nth_error l k = Some x -> skipn k l = x :: skipn (S k) l.
Proof.
  induction l as [|a l IH]; intros [|k] x H; simpl in *; try discriminate.
  - inversion H; reflexivity.
  - apply IH; exact H.
Qed.

(** The loads of the variant with flags only can settle in any order
    before the loop starts. *)
Lemma CliOnly_settle_any_order :
  forall entries openApi order,
    NoDup order ->
    Forall (fun i => i < length entries) order ->
    CliOnly.reachable entries openApi
      (mkState (rev order) Idle 0 openApi (map Settled order)).
Proof.
  intros entries openApi order. induction order as [|i order IH] using rev_ind;
    intros Hnodup Hall.
  - apply CliOnly.reach_init.
  - apply NoDup_remove in Hnodup. rewrite app_nil_r in Hnodup.
    destruct Hnodup as [Hnodup Hnotin].
    apply Forall_app in Hall as [Hall Hi]. inversion Hi; subst.
    rewrite rev_unit, map_app. simpl.
    eapply CliOnly.reach_step; [apply IH; assumption|].
    apply (CliOnly.step_settle entries
             (mkState (rev order) Idle 0 openApi (map Settled order)) i);
      simpl; [assumption|].
    rewrite <- in_rev. exact Hnotin.
Qed.

(** From a state between two transformers in which every load has settled,
    the run goes on as [transformLoop] computes: it calls what the loop
    calls and ends with the loop's document, or with its error. *)
Lemma CliOnly_run_goes_through :
  forall entries openApi n s,
    n = length entries - st_next s ->
    CliOnly.reachable entries openApi s ->
    st_phase s = Idle ->
    (forall i, i < length entries -> In i (st_settled s)) ->
    forall calls r,
      CliOnly.transformLoop (st_next s) (skipn (st_next s) entries) (st_openApi s)
        = (calls, r) ->
      exists s',
        CliOnly.reachable entries openApi s' /\
        settledOf (st_trace s') = settledOf (st_trace s) /\
        calledOf (st_trace s') = (calledOf (st_trace s) ++ calls)%list /\
        match r with
        | Ok final =>
            st_phase s' = Idle /\ st_next s' = length entries /\ st_openApi s' = final
        | Throw e => st_phase s' = Failed e
        end.
Proof.
  intros entries openApi n. induction n as [|n IH];
    intros s Hn Hreach Hidle Hsettled calls r Hloop.
  - pose proof (CliOnly_reachable_inDeclaredOrder _ _ _ Hreach) as (Hle & _ & _).
    rewrite length_map in Hle.
    assert (Hnext : st_next s = length entries) by lia.
    rewrite Hnext, skipn_all in Hloop. simpl in Hloop. injection Hloop as <- <-.
    exists s. rewrite app_nil_r. repeat split; auto.
  - assert (Hlt : st_next s < length entries) by lia.
    destruct (nth_error entries (st_next s)) as [[name transformerP]|] eqn:Hnth;
      [|apply nth_error_None in Hnth; lia].
    rewrite (skipn_nth_error _ _ _ _ Hnth) in Hloop.
    cbn [CliOnly.transformLoop] in Hloop.
    destruct transformerP as [transformer|e0].
    + pose (s1 := mkState (st_settled s) Running (st_next s) (st_openApi s)
                    (st_trace s ++ [Called (st_next s)])).
      assert (Hreach1 : CliOnly.reachable entries openApi s1).
      { eapply CliOnly.reach_step; [exact Hreach|].
        eapply CliOnly.step_call; eauto. }
      destruct (transformOpenApi transformer (st_openApi s)) as [next|e0] eqn:Hcall.
      * destruct (CliOnly.transformLoop (S (st_next s)) (skipn (S (st_next s)) entries) next)
          as [calls' r'] eqn:Hrest.
        injection Hloop as <- <-.
        pose (s2 := mkState (st_settled s) Idle (S (st_next s)) next
                      (st_trace s1 ++ [Returned (st_next s)])).
        assert (Hreach2 : CliOnly.reachable entries openApi s2).
        { eapply CliOnly.reach_step; [exact Hreach1|].
          eapply (CliOnly.step_return entries s1); [reflexivity| |]; simpl; eauto. }
        destruct (IH s2) with (calls := calls') (r := r')
          as (s' & Hreach' & Hsettled' & Hcalled' & Hend); simpl; auto; [lia|].
        exists s'. split; [exact Hreach'|].
        split.
        { rewrite Hsettled'. simpl.
          rewrite !settledOf_app. simpl. rewrite !app_nil_r. reflexivity. }
        split; [|exact Hend].
        rewrite Hcalled'. simpl.
        rewrite calledOf_snoc_Returned, calledOf_app. simpl.
        rewrite <- app_assoc. reflexivity.
      * injection Hloop as <- <-.
        exists (mkState (st_settled s)
                  (Failed (appendMessage e0 (" applying transformer " ++ name)))
                  (st_next s) (st_openApi s) (st_trace s1)).
        split.
        { eapply CliOnly.reach_step; [exact Hreach1|].
          eapply (CliOnly.step_throw entries s1); [reflexivity| |]; simpl; eauto. }
        simpl. rewrite settledOf_app, calledOf_app. simpl.
        rewrite app_nil_r. auto.
    + injection Hloop as <- <-.
      exists (mkState (st_settled s)
                (Failed (appendMessage e0 (" applying transformer " ++ name)))
                (st_next s) (st_openApi s) (st_trace s)).
      split.
      { eapply CliOnly.reach_step; [exact Hreach|].
        eapply CliOnly.step_load_rejected; eauto. }
      simpl. rewrite app_nil_r. auto.
Qed.

(** Whatever the order in which the loads settle, there is a run with that
    order that calls the transformers [transformLoop] calls, in its order,
    and ends as it ends. *)
Lemma CliOnly_run_for_every_order :
  forall entries openApi order calls r,
    NoDup order ->
    (forall i, In i order <-> i < length entries) ->
    CliOnly.transformLoop 0 entries openApi = (calls, r) ->
    exists s,
      CliOnly.reachable entries openApi s /\
      settledOf (st_trace s) = order /\
      calledOf (st_trace s) = calls /\
      match r with
      | Ok final =>
          st_phase s = Idle /\ st_next s = length entries /\ st_openApi s = final
      | Throw e => st_phase s = Failed e
      end.
Proof.
  intros entries openApi order calls r Hnodup Hall Hloop.
  pose (s0 := mkState (rev order) Idle 0 openApi (map Settled order)).
  assert (Hreach : CliOnly.reachable entries openApi s0).
  { apply CliOnly_settle_any_order; [exact Hnodup|].
    apply Forall_forall. intros i Hi. apply Hall. exact Hi. }
  destruct (CliOnly_run_goes_through entries openApi (length entries - 0) s0)
    with (calls := calls) (r := r) as (s & Hs & Hsettled & Hcalled & Hend); auto.
  - simpl. intros i Hi. rewrite <- in_rev. apply Hall. exact Hi.
  - exists s. split; [exact Hs|].
    split; [rewrite Hsettled; simpl; apply settledOf_map_Settled|].
    split; [rewrite Hcalled; simpl; rewrite calledOf_map_Settled; reflexivity|].
    exact Hend.
Qed.

(** The same for [applyTransformers], when every load fulfils: the loads
    settle in any order while [Promise.all] is awaited. *)
Lemma WithConfig_settle_any_order :
  forall transformers openApi order,
    NoDup order ->
    Forall (fun i => i < length transformers) order ->
    WithConfig.reachable (map Ok transformers) openApi
      (mkState (rev order) Loading 0 openApi (map Settled order)).
Proof.
  intros transformers openApi order. induction order as [|i order IH] using rev_ind;
    intros Hnodup Hall.
  - apply WithConfig.reach_init.
  - apply NoDup_remove in Hnodup. rewrite app_nil_r in Hnodup.
    destruct Hnodup as [Hnodup Hnotin].
    apply Forall_app in Hall as [Hall Hi]. inversion Hi; subst.
    rewrite rev_unit, map_app. simpl.
    destruct (nth_error transformers i) as [transformer|] eqn:Hnth;
      [|apply nth_error_None in Hnth; lia].
    eapply WithConfig.reach_step; [apply IH; assumption|].
    apply (WithConfig.step_settle_fulfilled (map Ok transformers)
             (mkState (rev order) Loading 0 openApi (map Settled order)) i transformer);
      simpl.
    + rewrite <- in_rev. exact Hnotin.
    + rewrite nth_error_map, Hnth. reflexivity.
Qed.

Lemma forallb_isOk_map_Ok : forall (A : Type) (values : list A),
  forallb isOk (map Ok values) = true.
Proof. induction values; simpl; auto. Qed.

Lemma WithConfig_run_goes_through :
  forall transformers openApi n s,
    n = length transformers - st_next s ->
    WithConfig.reachable (map Ok transformers) openApi s ->
    st_phase s = Idle ->
    forall calls r,
      WithConfig.transformLoop (st_next s) (skipn (st_next s) transformers) (st_openApi s)
        = (calls, r) ->
      exists s',
        WithConfig.reachable (map Ok transformers) openApi s' /\
        settledOf (st_trace s') = settledOf (st_trace s) /\
        calledOf (st_trace s') = (calledOf (st_trace s) ++ calls)%list /\
        match r with
        | Ok final =>
            st_phase s' = Idle /\ st_next s' = length transformers
            /\ st_openApi s' = final
        | Throw e => st_phase s' = Failed e
        end.
Proof.
  intros transformers openApi n. induction n as [|n IH];
    intros s Hn Hreach Hidle calls r Hloop.
  - pose proof (WithConfig_reachable_inDeclaredOrder _ _ _ Hreach) as (Hle & _ & _).
    rewrite length_map in Hle.
    assert (Hnext : st_next s = length transformers) by lia.
    rewrite Hnext, skipn_all in Hloop. simpl in Hloop. injection Hloop as <- <-.
    exists s. rewrite app_nil_r. repeat split; auto.
  - assert (Hlt : st_next s < length transformers) by lia.
    destruct (nth_error transformers (st_next s)) as [transformer|] eqn:Hnth;
      [|apply nth_error_None in Hnth; lia].
    assert (Hload : nth_error (map Ok transformers) (st_next s) = Some (Ok transformer)).
    { rewrite nth_error_map, Hnth. reflexivity. }
    rewrite (skipn_nth_error _ _ _ _ Hnth) in Hloop.
    cbn [WithConfig.transformLoop] in Hloop.
    pose (s1 := mkState (st_settled s) Running (st_next s) (st_openApi s)
                  (st_trace s ++ [Called (st_next s)])).
    assert (Hreach1 : WithConfig.reachable (map Ok transformers) openApi s1).
    { eapply WithConfig.reach_step; [exact Hreach|].
      eapply WithConfig.step_call; eauto. }
    destruct (transformOpenApi transformer (st_openApi s)) as [next|e0] eqn:Hcall.
    + destruct (WithConfig.transformLoop (S (st_next s))
                  (skipn (S (st_next s)) transformers) next)
        as [calls' r'] eqn:Hrest.
      injection Hloop as <- <-.
      pose (s2 := mkState (st_settled s) Idle (S (st_next s)) next
                    (st_trace s1 ++ [Returned (st_next s)])).
      assert (Hreach2 : WithConfig.reachable (map Ok transformers) openApi s2).
      { eapply WithConfig.reach_step; [exact Hreach1|].
        eapply (WithConfig.step_return (map Ok transformers) s1);
          [reflexivity| |]; simpl; eauto. }
      destruct (IH s2) with (calls := calls') (r := r')
        as (s' & Hreach' & Hsettled' & Hcalled' & Hend); simpl; auto; [lia|].
      exists s'. split; [exact Hreach'|].
      split.
      { rewrite Hsettled'. simpl.
        rewrite !settledOf_app. simpl. rewrite !app_nil_r. reflexivity. }
      split; [|exact Hend].
      rewrite Hcalled'. simpl.
      rewrite calledOf_snoc_Returned, calledOf_app. simpl.
      rewrite <- app_assoc. reflexivity.
    + injection Hloop as <- <-.
      exists (mkState (st_settled s) (Failed e0) (st_next s) (st_openApi s) (st_trace s1)).
      split.
      { eapply WithConfig.reach_step; [exact Hreach1|].
        eapply (WithConfig.step_throw (map Ok transformers) s1);
          [reflexivity| |]; simpl; eauto. }
      simpl. rewrite settledOf_app, calledOf_app. simpl.
      rewrite app_nil_r. auto.
Qed.

Lemma WithConfig_run_for_every_order :
  forall transformers openApi order calls r,
    NoDup order ->
    (forall i, In i order <-> i < length transformers) ->
    WithConfig.transformLoop 0 transformers openApi = (calls, r) ->
    exists s,
      WithConfig.reachable (map Ok transformers) openApi s /\
      settledOf (st_trace s) = order /\
      calledOf (st_trace s) = calls /\
      match r with
      | Ok final =>
          st_phase s = Idle /\ st_next s = length transformers /\ st_openApi s = final
      | Throw e => st_phase s = Failed e
      end.
Proof.
  intros transformers openApi order calls r Hnodup Hall Hloop.
  pose (s0 := mkState (rev order) Loading 0 openApi (map Settled order)).
  assert (Hreach0 : WithConfig.reachable (map Ok transformers) openApi s0).
  { apply WithConfig_settle_any_order; [exact Hnodup|].
    apply Forall_forall. intros i Hi. apply Hall. exact Hi. }
  pose (s1 := mkState (rev order) Idle 0 openApi (map Settled order)).
  assert (Hreach1 : WithConfig.reachable (map Ok transformers) openApi s1).
  { eapply WithConfig.reach_step; [exact Hreach0|].
    apply (WithConfig.step_all_fulfilled (map Ok transformers) s0);
      [reflexivity| |apply forallb_isOk_map_Ok].
    simpl. intros i Hi. rewrite length_map in Hi. rewrite <- in_rev.
    apply Hall. exact Hi. }
  destruct (WithConfig_run_goes_through transformers openApi
              (length transformers - 0) s1)
    with (calls := calls) (r := r) as (s & Hs & Hsettled & Hcalled & Hend); auto.
  exists s. split; [exact Hs|].
  split; [rewrite Hsettled; simpl; apply settledOf_map_Settled|].
  split; [rewrite Hcalled; simpl; rewrite calledOf_map_Settled; reflexivity|].
  exact Hend.
Qed.

(* ================================================================== *)
(** ** What [readConfigFile] accepts, and what it hands on *)

Lemma checkKeys_Ok_iff : forall keys,
  isOk (WithConfig.checkKeys keys)
  = forallb (fun key => String.eqb key "transformers") keys.
Proof.
  induction keys as [|key keys IH]; [reflexivity|].
  simpl. destruct (String.eqb key "transformers"); simpl; auto.
Qed.

Lemma checkTransformers_Ok_iff : forall items,
  isOk (WithConfig.checkTransformers items) = forallb referenceShape items.
Proof.
  induction items as [|entry items IH]; [reflexivity|].
  simpl. pose proof (checkTransformer_shape entry) as Hshape.
  destruct (referenceShape entry).
  - rewrite Hshape. simpl. exact IH.
  - destruct Hshape as (e & He & _). rewrite He. reflexivity.
Qed.

Lemma isOk_unit : forall r : result unit, isOk r = true -> r = Ok tt.
Proof. intros [[]|e] H; [reflexivity|discriminate]. Qed.

Lemma isOk_false : forall (A : Type) (r : result A),
  isOk r = false -> exists e, r = Throw e.
Proof. intros A [a|e] H; [discriminate|eauto]. Qed.

(** X1.  [readConfigFile] accepts a parsed configuration exactly when it
    is an object whose keys are all [transformers] and whose
    [transformers] is an array of strings and of arrays headed by a
    string; what it returns is that array, as it is, with the path of the
    stream as [configFilePath]. *)
Theorem readConfigFile_accepts_exactly :
  forall (config : json) (path : option string),
    isOk (WithConfig.validateConfig config path) = acceptableConfig config
    /\
    (forall c, WithConfig.validateConfig config path = Ok c ->
       WithConfig.configFilePath c = path
       /\ exists props, config = JObject props
            /\ getProp "transformers" props = Some (JArray (WithConfig.transformers c))).
Proof.
  intros config path. split.
  - destruct config as [| b | n | s | items | props |]; try reflexivity.
    unfold WithConfig.validateConfig, acceptableConfig.
    rewrite <- checkKeys_Ok_iff.
    destruct (WithConfig.checkKeys (map fst props)) as [[]|e]; [|reflexivity].
    simpl. destruct (getProp "transformers" props) as [[| b | n | s | items | ps |]|];
      try reflexivity.
    rewrite <- checkTransformers_Ok_iff.
    destruct (WithConfig.checkTransformers items); reflexivity.
  - intros c Hok.
    destruct config as [| b | n | s | items | props |]; try discriminate.
    unfold WithConfig.validateConfig in Hok.
    destruct (WithConfig.checkKeys (map fst props)) as [[]|e]; [|discriminate].
    simpl in Hok.
    destruct (getProp "transformers" props) as [[| b | n | s | items | ps |]|] eqn:Hget;
      try discriminate.
    destruct (WithConfig.checkTransformers items); [|discriminate].
    simpl in Hok. injection Hok as <-. simpl. split; [reflexivity|].
    exists props. auto.
Qed.

Lemma readConfigFile_accepts_exactly_witness :
  WithConfig.configFilePath
    (WithConfig.mkConfig (Some Example.configPath)
       [JString "./sync-transformer.js";
        JArray [JString "./async-transformer.js"; JString "asyncArg"]])
    = Some Example.configPath
  /\ exists props,
       Example.configJson = JObject props
       /\ getProp "transformers" props
          = Some (JArray
                    (WithConfig.transformers
                       (WithConfig.mkConfig (Some Example.configPath)
                          [JString "./sync-transformer.js";
                           JArray [JString "./async-transformer.js";
                                   JString "asyncArg"]]))).
Proof.
  exact (proj2 (readConfigFile_accepts_exactly Example.configJson
                  (Some Example.configPath))
           (WithConfig.mkConfig (Some Example.configPath)
              [JString "./sync-transformer.js";
               JArray [JString "./async-transformer.js"; JString "asyncArg"]])
           eq_refl).
Defined.

Lemma validateConfig_Ok_shapes : forall config path c,
  WithConfig.validateConfig config path = Ok c ->
  forallb referenceShape (WithConfig.transformers c) = true.
Proof.
  intros config path c Hok.
  destruct config as [| b | n | s | items | props |]; try discriminate.
  unfold WithConfig.validateConfig in Hok.
  destruct (WithConfig.checkKeys (map fst props)) as [[]|e]; [|discriminate].
  simpl in Hok.
  destruct (getProp "transformers" props) as [[| b | n | s | items | ps |]|];
    try discriminate.
  destruct (WithConfig.checkTransformers items) eqn:Hcheck; [|discriminate].
  simpl in Hok. injection Hok as <-. simpl.
  rewrite <- checkTransformers_Ok_iff, Hcheck. reflexivity.
Qed.

Lemma readConfigFile_Ok_shapes : forall w stream c,
  WithConfig.readConfigFile w stream = Ok c ->
  forallb referenceShape (WithConfig.transformers c) = true.
Proof.
  intros w stream c. unfold WithConfig.readConfigFile.
  destruct (readJson w stream) as [config|e]; [|discriminate].
  simpl. apply validateConfig_Ok_shapes.
Qed.

Lemma onOptionTransformer_builtByFlags : forall transformer configsOrPromises,
  Forall builtByFlags configsOrPromises ->
  Forall builtByFlags (WithConfig.onOptionTransformer transformer configsOrPromises).
Proof.
  intros transformer configsOrPromises Hall.
  destruct configsOrPromises as [|c0 rest] using rev_ind.
  - repeat constructor. eauto.
  - unfold WithConfig.onOptionTransformer. rewrite nth_error_last.
    apply Forall_app in Hall as [Hrest Hlast].
    destruct c0 as [lastConfig|configStream].
    + rewrite removelast_last. apply Forall_app. split; [exact Hrest|].
      inversion Hlast as [|? ? Hc _]; subst. simpl in Hc.
      destruct Hc as [Hpath Hnames].
      repeat constructor; simpl; [exact Hpath|].
      apply Forall_app. split; [exact Hnames|]. repeat constructor. eauto.
    + apply Forall_app. split; [apply Forall_app; auto|].
      repeat constructor. eauto.
Qed.

Lemma fold_onOption_builtByFlags : forall events configsOrPromises,
  Forall builtByFlags configsOrPromises ->
  Forall builtByFlags (fold_left WithConfig.onOption events configsOrPromises).
Proof.
  induction events as [|event events IH]; intros configsOrPromises Hall; [exact Hall|].
  simpl. apply IH. destruct event as [configPath|transformer]; simpl.
  - unfold WithConfig.onOptionConfig. apply Forall_app. split; [exact Hall|].
    repeat constructor.
  - apply onOptionTransformer_builtByFlags. exact Hall.
Qed.

Lemma onOptionTransformer_brings_with_parent : forall w transformer configsOrPromises,
  Forall builtByFlags configsOrPromises ->
  flat_map (broughtWithParent w)
    (WithConfig.onOptionTransformer transformer configsOrPromises)
  = (flat_map (broughtWithParent w) configsOrPromises
       ++ [(None, JString transformer)])%list.
Proof.
  intros w transformer configsOrPromises Hall.
  destruct configsOrPromises as [|c0 rest] using rev_ind; [reflexivity|].
  unfold WithConfig.onOptionTransformer. rewrite nth_error_last.
  apply Forall_app in Hall as [_ Hlast].
  destruct c0 as [lastConfig|configStream].
  - inversion Hlast as [|? ? Hc _]; subst. simpl in Hc. destruct Hc as [Hpath _].
    rewrite removelast_last, !flat_map_app. simpl.
    unfold withParent, WithConfig.resolveParentOf. simpl. rewrite Hpath.
    rewrite map_app, !app_nil_r, app_assoc. reflexivity.
  - rewrite !flat_map_app. reflexivity.
Qed.

Lemma fold_onOption_brings_with_parent : forall w events configsOrPromises,
  Forall builtByFlags configsOrPromises ->
  flat_map (broughtWithParent w) (fold_left WithConfig.onOption events configsOrPromises)
  = (flat_map (broughtWithParent w) configsOrPromises
       ++ declaredWithParent w events)%list.
Proof.
  intros w events. induction events as [|event events IH];
    intros configsOrPromises Hall.
  - simpl. rewrite app_nil_r. reflexivity.
  - simpl fold_left. rewrite IH.
    + unfold declaredWithParent. simpl flat_map. rewrite app_assoc. f_equal.
      destruct event as [configPath|transformer]; simpl WithConfig.onOption.
      * unfold WithConfig.onOptionConfig. rewrite flat_map_app. simpl.
        rewrite app_nil_r. reflexivity.
      * apply onOptionTransformer_brings_with_parent. exact Hall.
    + apply (fold_onOption_builtByFlags [event]). exact Hall.
Qed.

Lemma awaited_configs_bring_with_parent : forall w configsOrPromises configs,
  map (fun c => match c with
                | WithConfig.ConfigObject config => Ok config
                | WithConfig.ConfigPromise configStream =>
                    WithConfig.readConfigFile w configStream
                end) configsOrPromises
  = map Ok configs ->
  flat_map (withParent w) configs = flat_map (broughtWithParent w) configsOrPromises.
Proof.
  intros w configsOrPromises. induction configsOrPromises as [|c rest IH];
    intros [|config configs] Hmap; simpl in *; try discriminate; [reflexivity|].
  injection Hmap as Hc Hrest. rewrite (IH _ Hrest). f_equal.
  destruct c as [config'|configStream]; simpl.
  - congruence.
  - rewrite Hc. reflexivity.
Qed.

(** X2.  Whatever the flags, once the configuration files are read each
    reference of the pipeline is resolved with the parent its source gives
    it: a reference from a [--transformer] flag with none, wherever the
    flag stands, also right after a [--config] flag; a reference from a
    file with the resolved path of that file. *)
Theorem references_keep_their_parent :
  forall (w : World) (events : list OptionEvent) (configs : list WithConfig.Config),
    WithConfig.awaitConfigs w (fold_left WithConfig.onOption events []) = Ok configs ->
    flat_map (withParent w) configs = declaredWithParent w events
    /\
    flat_map (WithConfig.createTransformersForConfig w) configs
    = map (fun reference =>
             WithConfig.createTransformer w (fst reference) (snd reference))
          (declaredWithParent w events).
Proof.
  intros w events configs Hawait. unfold WithConfig.awaitConfigs in Hawait.
  apply Promise_all_Ok_inv in Hawait.
  assert (Hparents : flat_map (withParent w) configs = declaredWithParent w events).
  { rewrite (awaited_configs_bring_with_parent _ _ _ Hawait).
    rewrite fold_onOption_brings_with_parent by constructor. reflexivity. }
  split; [exact Hparents|].
  rewrite <- Hparents. clear. induction configs as [|config configs IH]; [reflexivity|].
  simpl. rewrite map_app, IH. f_equal.
  unfold WithConfig.createTransformersForConfig, withParent.
  rewrite map_map. reflexivity.
Qed.

Lemma references_keep_their_parent_witness :
  flat_map (withParent (Example.world "{}" Example.configJson (Parsed [] false [])))
    [WithConfig.mkConfig (Some Example.configPath)
       [JString "./sync-transformer.js";
        JArray [JString "./async-transformer.js"; JString "asyncArg"]];
     WithConfig.mkConfig None [JString "./b.js"; JString "./c.js"]]
  = [(Some Example.configPath, JString "./sync-transformer.js");
     (Some Example.configPath,
      JArray [JString "./async-transformer.js"; JString "asyncArg"]);
     (None, JString "./b.js"); (None, JString "./c.js")].
Proof.
  exact (proj1 (references_keep_their_parent
                  (Example.world "{}" Example.configJson (Parsed [] false []))
                  [OptConfig Example.configPath; OptTransformer "./b.js";
                   OptTransformer "./c.js"]
                  [WithConfig.mkConfig (Some Example.configPath)
                     [JString "./sync-transformer.js";
                      JArray [JString "./async-transformer.js"; JString "asyncArg"]];
                   WithConfig.mkConfig None [JString "./b.js"; JString "./c.js"]]
                  eq_refl)).
Defined.

Lemma referenceShape_specifier : forall entry,
  referenceShape entry = true ->
  exists id options, WithConfig.nameAndOptions entry = (Some (JString id), options).
Proof.
  intros [| b | n | s | items | props |] H; try discriminate.
  - exists s, []. reflexivity.
  - destruct items as [|[| b | n | s | its | ps |] rest]; try discriminate.
    exists s, rest. reflexivity.
Qed.

Lemma awaited_configs_shapes : forall w configsOrPromises configs,
  Forall builtByFlags configsOrPromises ->
  map (fun c => match c with
                | WithConfig.ConfigObject config => Ok config
                | WithConfig.ConfigPromise configStream =>
                    WithConfig.readConfigFile w configStream
                end) configsOrPromises
  = map Ok configs ->
  Forall (fun config =>
            forallb referenceShape (WithConfig.transformers config) = true) configs.
Proof.
  intros w configsOrPromises. induction configsOrPromises as [|c rest IH];
    intros [|config configs] Hbuilt Hmap; simpl in *; try discriminate;
    [constructor|].
  injection Hmap as Hc Hrest. inversion Hbuilt as [|? ? Hc0 Hrest0]; subst.
  constructor; [|apply IH; assumption].
  destruct c as [config'|configStream].
  - injection Hc as <-. destruct Hc0 as [_ Hnames].
    apply forallb_forall. intros t Ht.
    rewrite Forall_forall in Hnames. destruct (Hnames t Ht) as [name ->].
    reflexivity.
  - eapply readConfigFile_Ok_shapes; eauto.
Qed.

(** X3.  In a run whose configuration files were read, every reference of
    the pipeline has a string as its specifier: each load is the chain of
    resolving that specifier, importing the module and constructing its
    default export with the remaining elements; the TypeError for a
    specifier that is no string never arises. *)
Theorem loads_always_have_a_specifier :
  forall (w : World) (events : list OptionEvent) (configs : list WithConfig.Config),
    WithConfig.awaitConfigs w (fold_left WithConfig.onOption events []) = Ok configs ->
    Forall (fun reference =>
              exists id options,
                WithConfig.nameAndOptions (snd reference) = (Some (JString id), options)
                /\ WithConfig.createTransformer w (fst reference) (snd reference)
                   = (resolved <- WithConfig.resolveTransformer w id (fst reference) ;;
                      Transformer <- import_default w resolved ;;
                      Transformer options))
           (flat_map (withParent w) configs).
Proof.
  intros w events configs Hawait. unfold WithConfig.awaitConfigs in Hawait.
  apply Promise_all_Ok_inv in Hawait.
  pose proof (awaited_configs_shapes w _ _
                (fold_onOption_builtByFlags events [] (Forall_nil _)) Hawait)
    as Hshapes.
  clear Hawait. induction Hshapes as [|config configs Hconfig _ IH]; [constructor|].
  simpl. apply Forall_app. split; [|exact IH].
  unfold withParent. apply Forall_forall. intros [parent t] Hin.
  apply in_map_iff in Hin as (t' & Heq & Hin). injection Heq as <- <-.
  rewrite forallb_forall in Hconfig.
  destruct (referenceShape_specifier _ (Hconfig _ Hin)) as (id & options & Hname).
  exists id, options. split; [exact Hname|].
  unfold WithConfig.createTransformer. simpl. rewrite Hname. reflexivity.
Qed.

Lemma loads_always_have_a_specifier_witness :
  Forall (fun reference =>
            exists id options,
              WithConfig.nameAndOptions (snd reference) = (Some (JString id), options)
              /\ WithConfig.createTransformer
                   (Example.world "{}" Example.configJson (Parsed [] false []))
                   (fst reference) (snd reference)
                 = (resolved <- WithConfig.resolveTransformer
                                  (Example.world "{}" Example.configJson
                                     (Parsed [] false []))
                                  id (fst reference) ;;
                    Transformer <- import_default
                                     (Example.world "{}" Example.configJson
                                        (Parsed [] false []))
                                     resolved ;;
                    Transformer options))
         (flat_map (withParent (Example.world "{}" Example.configJson (Parsed [] false [])))
            [WithConfig.mkConfig (Some Example.configPath)
               [JString "./sync-transformer.js";
                JArray [JString "./async-transformer.js"; JString "asyncArg"]];
             WithConfig.mkConfig None [JString "./b.js"]]).
Proof.
  exact (loads_always_have_a_specifier
           (Example.world "{}" Example.configJson (Parsed [] false []))
           [OptConfig Example.configPath; OptTransformer "./b.js"]
           [WithConfig.mkConfig (Some Example.configPath)
              [JString "./sync-transformer.js";
               JArray [JString "./async-transformer.js"; JString "asyncArg"]];
            WithConfig.mkConfig None [JString "./b.js"]]
           eq_refl).
Defined.

(* ================================================================== *)
(** ** Reading the input *)

(** X4.  [readJsonOrYaml] takes the text as JSON when it parses as JSON,
    without consulting the YAML loader.  When it fails, the error is that
    of reading the stream or that of the YAML loader, never that of
    [JSON.parse], and its message ends with [" in "] and the path of the
    stream, or [-] for a stream without a path. *)
Theorem readJsonOrYaml_outcomes :
  forall (w : World) (stream : Stream),
    (forall text value,
       readString w stream = Ok text -> JSON_parse w text = Ok value ->
       readJsonOrYaml w stream = ([], Ok value))
    /\
    (forall warnings e,
       readJsonOrYaml w stream = (warnings, Throw e) ->
       exists e0,
         e = appendMessage e0 (" in " ++ streamFilename stream)
         /\ (readString w stream = Throw e0
             \/ exists text jsonError,
                  readString w stream = Ok text
                  /\ JSON_parse w text = Throw jsonError
                  /\ loadYaml w text (streamFilename stream) = (warnings, Throw e0)))
    /\ streamFilename Stdin = "-".
Proof.
  intros w stream. split; [|split; [|reflexivity]].
  - intros text value Hread Hparse. unfold readJsonOrYaml.
    rewrite Hread, Hparse. reflexivity.
  - intros warnings e. unfold readJsonOrYaml. cbv zeta.
    destruct (readString w stream) as [text|e0] eqn:Hread.
    + destruct (JSON_parse w text) as [value|jsonError] eqn:Hparse;
        [intros H; discriminate H|].
      destruct (loadYaml w text (streamFilename stream)) as [ws [value|e0]] eqn:Hyaml;
        simpl; intros H; [discriminate H|].
      injection H as <- <-. exists e0. split; [reflexivity|].
      right. exists text, jsonError. auto.
    + intros H. injection H as <- <-. exists e0. auto.
Qed.

Lemma readJsonOrYaml_outcomes_witness :
  (readJsonOrYaml (Example.world "{}" (JObject []) (Parsed [] false [])) Stdin
     = ([], Ok (JObject [])))
  /\
  (exists e0,
     appendMessage Example.yamlError " in -"
       = appendMessage e0 (" in " ++ streamFilename Stdin)
     /\ (readString (Example.world "{" (JObject []) (Parsed [] false [])) Stdin
           = Throw e0
         \/ exists text jsonError,
              readString (Example.world "{" (JObject []) (Parsed [] false [])) Stdin
                = Ok text
              /\ JSON_parse (Example.world "{" (JObject []) (Parsed [] false [])) text
                 = Throw jsonError
              /\ loadYaml (Example.world "{" (JObject []) (Parsed [] false [])) text
                   (streamFilename Stdin)
                 = ([], Throw e0))).
Proof.
  split.
  - exact (proj1 (readJsonOrYaml_outcomes
                    (Example.world "{}" (JObject []) (Parsed [] false [])) Stdin)
             "{}" (JObject []) eq_refl eq_refl).
  - exact (proj1 (proj2 (readJsonOrYaml_outcomes
                           (Example.world "{" (JObject []) (Parsed [] false [])) Stdin))
             [] (appendMessage Example.yamlError " in -")
             eq_refl).
Defined.

Lemma checkTransformers_messages : forall items e,
  WithConfig.checkTransformers items = Throw e -> In (message e) entryShapeMessages.
Proof.
  induction items as [|entry items IH]; intros e H; simpl in H; [discriminate|].
  pose proof (checkTransformer_shape entry) as Hshape.
  destruct (referenceShape entry).
  - rewrite Hshape in H. simpl in H. auto.
  - destruct Hshape as (e' & He' & Hmsg). rewrite He' in H. simpl in H.
    injection H as <-. exact Hmsg.
Qed.

(** X5.  A failure of [readConfigFile] is either a failure to read or to
    parse the file, whose message then ends with [" in "] and the name of
    the file, or a complaint about the shape of the configuration, which
    never names the file: the message for an unrecognized key, or one of
    six fixed messages. *)
Theorem readConfigFile_failures :
  forall (w : World) (stream : Stream) (e : Error),
    WithConfig.readConfigFile w stream = Throw e ->
    (readJson w stream = Throw e
     /\ exists e0, e = appendMessage e0 (" in " ++ streamFilename stream))
    \/
    (exists config,
       readJson w stream = Ok config
       /\ ((exists key, key <> "transformers"
                        /\ e = newError ("unrecognized key '" ++ key ++ "' in config"))
           \/ In (message e) configShapeMessages)).
Proof.
  intros w stream e. unfold WithConfig.readConfigFile.
  destruct (readJson w stream) as [config|e0] eqn:Hread.
  - simpl. intros Hvalidate. right. exists config. split; [reflexivity|].
    unfold configShapeMessages.
    destruct config as [| b | n | s | items | props |];
      try (injection Hvalidate as <-; right; simpl; auto).
    unfold WithConfig.validateConfig in Hvalidate.
    destruct (checkKeys_outcome (map fst props)) as [Hkeys|(bad & _ & Hne & Hthrow)].
    + rewrite Hkeys in Hvalidate. simpl in Hvalidate.
      destruct (getProp "transformers" props) as [[| b | n | s | items | ps |]|];
        try (injection Hvalidate as <-; right; simpl; auto 10).
      destruct (WithConfig.checkTransformers items) eqn:Hcheck; [discriminate|].
      simpl in Hvalidate. injection Hvalidate as <-.
      apply checkTransformers_messages in Hcheck. right.
      unfold entryShapeMessages in Hcheck. simpl in Hcheck. simpl.
      destruct Hcheck as [H|[H|[H|[]]]]; rewrite <- H; auto 10.
    + rewrite Hthrow in Hvalidate. simpl in Hvalidate. injection Hvalidate as <-.
      left. exists bad. auto.
  - simpl. intros H. injection H as <-. left. split; [reflexivity|].
    unfold readJson, rethrowWith in Hread.
    destruct (text <- readString w stream ;; JSON_parse w text) as [v|e1];
      [discriminate|].
    injection Hread as <-. eauto.
Qed.

Lemma readConfigFile_failures_witness :
  (readJson (Example.world "{}" (JArray []) (Parsed [] false []))
     (FileStream Example.configPath)
     = Throw (newTypeError "config file must contain a JSON object")
   /\ exists e0,
        newTypeError "config file must contain a JSON object"
        = appendMessage e0 (" in " ++ streamFilename (FileStream Example.configPath)))
  \/
  (exists config,
     readJson (Example.world "{}" (JArray []) (Parsed [] false []))
       (FileStream Example.configPath) = Ok config
     /\ ((exists key, key <> "transformers"
                      /\ newTypeError "config file must contain a JSON object"
                         = newError ("unrecognized key '" ++ key ++ "' in config"))
         \/ In (message (newTypeError "config file must contain a JSON object"))
               configShapeMessages)).
Proof.
  exact (readConfigFile_failures
           (Example.world "{}" (JArray []) (Parsed [] false []))
           (FileStream Example.configPath)
           (newTypeError "config file must contain a JSON object") eq_refl).
Defined.

(* ================================================================== *)
(** ** [readString] *)

Lemma readStringFrom_text : forall chunks str rest,
  readStringFrom str (textEvents chunks ++ rest)
  = readStringFrom (str ++ String.concat "" chunks) rest.
Proof.
  induction chunks as [|chunk chunks IH]; intros str rest; simpl.
  - rewrite append_nil_r. reflexivity.
  - rewrite IH. destruct chunks as [|next chunks].
    + simpl. rewrite append_nil_r. reflexivity.
    + rewrite <- append_assoc. reflexivity.
Qed.

(** X6.  [readString] fulfils, at the end of the stream, with the
    concatenation of the chunks: two streams that deliver the same text cut
    into chunks differently give the same string, and what a stream emits
    after its end is ignored. *)
Theorem readString_rechunking :
  forall (chunks1 chunks2 : list string) (after1 after2 : list StreamEvent),
    String.concat "" chunks1 = String.concat "" chunks2 ->
    readStringOf (textEvents chunks1 ++ OnEnd :: after1)
      = Some (Ok (String.concat "" chunks1))
    /\ readStringOf (textEvents chunks1 ++ OnEnd :: after1)
       = readStringOf (textEvents chunks2 ++ OnEnd :: after2).
Proof.
  intros chunks1 chunks2 after1 after2 Hsame. unfold readStringOf.
  rewrite !readStringFrom_text. simpl. rewrite Hsame. auto.
Qed.

Lemma readString_rechunking_witness :
  readStringOf (textEvents ["{"; "}"] ++ OnEnd :: [])
    = Some (Ok (String.concat "" ["{"; "}"]))
  /\ readStringOf (textEvents ["{"; "}"] ++ OnEnd :: [])
     = readStringOf (textEvents ["{}"] ++ OnEnd :: [OnData (TextChunk "x")]).
Proof.
  exact (readString_rechunking ["{"; "}"] ["{}"] [] [OnData (TextChunk "x")] eq_refl).
Defined.

(** X7.  A chunk that is no string makes [readString] reject with a
    TypeError that names the type of the chunk, whatever text came before
    and whatever follows; an error of the stream rejects with that error;
    and while the stream has neither ended nor failed the promise stays
    pending. *)
Theorem readString_rejections :
  forall (chunks : list string) (after : list StreamEvent),
    (forall typeofName,
       readStringOf (textEvents chunks ++ OnData (OtherChunk typeofName) :: after)
       = Some (Throw (newTypeError
                        ("expected string, got " ++ typeofName ++ " from stream"))))
    /\ (forall e,
          readStringOf (textEvents chunks ++ OnError e :: after) = Some (Throw e))
    /\ readStringOf (textEvents chunks) = None.
Proof.
  intros chunks after. unfold readStringOf. repeat split; intros.
  - rewrite readStringFrom_text. reflexivity.
  - rewrite readStringFrom_text. reflexivity.
  - rewrite <- (app_nil_r (textEvents chunks)), readStringFrom_text. reflexivity.
Qed.

(* ================================================================== *)
(** ** The test transformers *)

Lemma getProp_setProp_same : forall key v props,
  getProp key (setProp key v props) = Some v.
Proof.
  induction props as [|[k u] props IH]; simpl.
  - rewrite String.eqb_refl. reflexivity.
  - destruct (String.eqb k key) eqn:Hk; simpl; rewrite Hk; auto.
Qed.

Lemma getProp_setProp_other : forall key other v props,
  other <> key -> getProp other (setProp key v props) = getProp other props.
Proof.
  intros key other v props Hne. induction props as [|[k u] props IH]; simpl.
  - destruct (String.eqb_spec key other); [congruence|reflexivity].
  - destruct (String.eqb_spec k key) as [->|Hk]; simpl.
    + destruct (String.eqb_spec key other); [congruence|reflexivity].
    + destruct (String.eqb k other); auto.
Qed.

Lemma setProp_keys : forall key v props,
  match getProp key props with
  | Some _ => map fst (setProp key v props) = map fst props
  | None => map fst (setProp key v props) = (map fst props ++ [key])%list
  end.
Proof.
  intros key v props. induction props as [|[k u] props IH]; simpl; [reflexivity|].
  destruct (String.eqb k key) eqn:Hk; simpl; [reflexivity|].
  destruct (getProp key props); simpl; f_equal; exact IH.
Qed.

Lemma spread_history : forall props,
  match historyOf props with
  | Some history =>
      spreadItems (orElse (getProp "x-transformers" props) (JArray [])) = Ok history
  | None =>
      exists e, spreadItems (orElse (getProp "x-transformers" props) (JArray []))
                = Throw e /\ name e = "TypeError"
  end.
Proof.
  intros props. unfold historyOf, orElse.
  destruct (getProp "x-transformers" props) as [v|]; [|reflexivity].
  destruct v as [| b | n | s | items | ps |]; simpl; try reflexivity.
  - destruct b; simpl; [eexists; split; reflexivity|reflexivity].
  - destruct n; simpl; try reflexivity; eexists; split; reflexivity.
  - destruct (String.eqb s ""); reflexivity.
  - eexists; split; reflexivity.
Qed.

Lemma testClass_transform : forall async args props,
  transformWith (testClass async) args (JObject props)
  = (previous <- spreadItems (orElse (getProp "x-transformers" props) (JArray [])) ;;
     Ok (JObject (setProp "x-transformers"
                    (JArray (previous ++ [markerOf (testLabel async) args]))
                    props))).
Proof. intros [|] args props; reflexivity. Qed.

Lemma testClass_marks : forall async args props history,
  historyOf props = Some history ->
  transformWith (testClass async) args (JObject props)
  = Ok (JObject (setProp "x-transformers"
                   (JArray (history ++ [markerOf (testLabel async) args])) props)).
Proof.
  intros async args props history Hhistory. rewrite testClass_transform.
  pose proof (spread_history props) as Hspread. rewrite Hhistory in Hspread.
  rewrite Hspread. reflexivity.
Qed.

Lemma historyOf_setProp : forall items props,
  historyOf (setProp "x-transformers" (JArray items) props) = Some items.
Proof.
  intros items props. unfold historyOf. rewrite getProp_setProp_same. reflexivity.
Qed.

(** X8.  What a test transformer does to every document.  A document that
    is no object is refused with "Invalid openApi object"; an object whose
    [x-transformers] is truthy and can not be spread makes it throw a
    TypeError; on any other object it answers with an object in which
    [x-transformers] holds the earlier markers followed by its own, every
    other property has its value and its place, and [x-transformers]
    stands where it stood, or last when it is new. *)
Theorem test_transformer_on_every_document :
  forall (async : bool) (args : list json),
    (forall openApi,
       (forall props, openApi <> JObject props) ->
       transformWith (testClass async) args openApi
       = Throw (newError "Invalid openApi object"))
    /\
    (forall props,
       historyOf props = None ->
       exists e, transformWith (testClass async) args (JObject props) = Throw e
                 /\ name e = "TypeError")
    /\
    (forall props history,
       historyOf props = Some history ->
       exists out,
         transformWith (testClass async) args (JObject props) = Ok (JObject out)
         /\ historyOf out = Some (history ++ [markerOf (testLabel async) args])%list
         /\ (forall key, key <> "x-transformers" -> getProp key out = getProp key props)
         /\ match getProp "x-transformers" props with
            | Some _ => map fst out = map fst props
            | None => map fst out = (map fst props ++ ["x-transformers"])%list
            end).
Proof.
  intros async args. split; [|split].
  - intros openApi Hnot.
    destruct openApi as [| b | n | s | items | props |];
      try (destruct async; reflexivity).
    exfalso. apply (Hnot props). reflexivity.
  - intros props Hnone. rewrite testClass_transform.
    pose proof (spread_history props) as Hspread. rewrite Hnone in Hspread.
    destruct Hspread as (e & He & Hname). rewrite He. simpl. eauto.
  - intros props history Hhistory. eexists. split; [|split; [|split]].
    + apply testClass_marks. exact Hhistory.
    + apply historyOf_setProp.
    + intros key Hkey. apply getProp_setProp_other. exact Hkey.
    + apply setProp_keys.
Qed.

Lemma test_transformer_on_every_document_witness :
  (transformWith (testClass true) [JString "asyncArg"] (JArray [])
     = Throw (newError "Invalid openApi object"))
  /\
  (exists e,
     transformWith (testClass false) []
       (JObject [("x-transformers", JBool true)]) = Throw e
     /\ name e = "TypeError")
  /\
  (exists out,
     transformWith (testClass false) []
       (JObject [("openapi", JString "3.0.2");
                 ("x-transformers", JArray [JArray [JString "async-transformer"]]);
                 ("paths", JObject [])])
     = Ok (JObject out)
     /\ historyOf out
        = Some ([JArray [JString "async-transformer"]]
                  ++ [markerOf (testLabel false) []])%list
     /\ (forall key, key <> "x-transformers" ->
           getProp key out
           = getProp key [("openapi", JString "3.0.2");
                          ("x-transformers",
                           JArray [JArray [JString "async-transformer"]]);
                          ("paths", JObject [])])
     /\ map fst out = ["openapi"; "x-transformers"; "paths"]).
Proof.
  split; [|split].
  - apply (proj1 (test_transformer_on_every_document true [JString "asyncArg"])).
    intros props H. discriminate H.
  - exact (proj1 (proj2 (test_transformer_on_every_document false []))
             [("x-transformers", JBool true)] eq_refl).
  - exact (proj2 (proj2 (test_transformer_on_every_document false []))
             [("openapi", JString "3.0.2");
              ("x-transformers", JArray [JArray [JString "async-transformer"]]);
              ("paths", JObject [])]
             [JArray [JString "async-transformer"]] eq_refl).
Defined.

Lemma testTransformers_cons : forall async args specs,
  fulfilled (testTransformers ((async, args) :: specs))
  = (match testClass async args with
     | Ok transformer => [transformer]
     | Throw _ => []
     end ++ fulfilled (testTransformers specs))%list.
Proof. intros [|] args specs; reflexivity. Qed.

Lemma testClass_instance : forall async args,
  exists transformer,
    testClass async args = Ok transformer
    /\ forall openApi,
         transformOpenApi transformer openApi
         = transformWith (testClass async) args openApi.
Proof. intros [|] args; eexists; split; reflexivity. Qed.

Lemma test_pipeline_marks : forall specs i props history,
  historyOf props = Some history ->
  exists out,
    WithConfig.transformLoop i (fulfilled (testTransformers specs)) (JObject props)
      = (seq i (length specs), Ok (JObject out))
    /\ historyOf out = Some (history ++ testMarkers specs)%list
    /\ (forall key, key <> "x-transformers" -> getProp key out = getProp key props).
Proof.
  induction specs as [|[async args] specs IH]; intros i props history Hhistory.
  - exists props. simpl. rewrite app_nil_r. auto.
  - pose proof (testClass_marks async args props history Hhistory) as Hmark.
    destruct (IH (S i)
                (setProp "x-transformers"
                   (JArray (history ++ [markerOf (testLabel async) args])) props)
                (history ++ [markerOf (testLabel async) args])%list
                (historyOf_setProp _ _))
      as (out & Hloop & Hout & Hkeys).
    exists out. split; [|split].
    + destruct (testClass_instance async args) as (t & Ht & Happly).
      rewrite testTransformers_cons, Ht.
      cbn [app WithConfig.transformLoop length].
      rewrite Happly, Hmark, Hloop. reflexivity.
    + rewrite Hout, <- app_assoc. destruct async; reflexivity.
    + intros key Hkey. rewrite Hkeys by exact Hkey.
      apply getProp_setProp_other. exact Hkey.
Qed.

(** X9.  A pipeline of test transformers, in any number and any mix, on an
    object whose earlier markers can be read: every transformer is called,
    in declared order, and the result holds the earlier markers followed
    by one marker for each transformer, in that order, with every other
    property untouched. *)
Theorem test_pipeline_markers_in_order :
  forall (specs : list (bool * list json)) (props : list (string * json))
         (history : list json),
    historyOf props = Some history ->
    exists out,
      WithConfig.transformLoop 0 (fulfilled (testTransformers specs)) (JObject props)
        = (seq 0 (length specs), Ok (JObject out))
      /\ historyOf out = Some (history ++ testMarkers specs)%list
      /\ (forall key, key <> "x-transformers" -> getProp key out = getProp key props).
Proof.
  intros specs props history Hhistory. apply test_pipeline_marks. exact Hhistory.
Qed.

Lemma test_pipeline_markers_in_order_witness :
  exists out,
    WithConfig.transformLoop 0
      (fulfilled (testTransformers [(false, []); (true, [JString "asyncArg"]);
                                    (false, [JString "syncArg"])]))
      (JObject [("openapi", JString "3.0.2")])
    = (seq 0 3, Ok (JObject out))
    /\ historyOf out
       = Some ([] ++ testMarkers [(false, []); (true, [JString "asyncArg"]);
                                  (false, [JString "syncArg"])])%list
    /\ (forall key, key <> "x-transformers" ->
          getProp key out = getProp key [("openapi", JString "3.0.2")]).
Proof.
  exact (test_pipeline_markers_in_order
           [(false, []); (true, [JString "asyncArg"]); (false, [JString "syncArg"])]
           [("openapi", JString "3.0.2")] [] eq_refl).
Defined.

(* ================================================================== *)
(** ** How pipelines compose, and how the variants of the loop agree *)

Lemma WithConfig_transformLoop_app : forall ts1 ts2 i openApi,
  WithConfig.transformLoop i (ts1 ++ ts2) openApi
  = thenRun (WithConfig.transformLoop i ts1 openApi)
            (WithConfig.transformLoop (i + length ts1) ts2).
Proof.
  induction ts1 as [|t ts1 IH]; intros ts2 i openApi.
  - simpl. rewrite Nat.add_0_r.
    destruct (WithConfig.transformLoop i ts2 openApi); reflexivity.
  - simpl. destruct (transformOpenApi t openApi) as [next|e]; [|reflexivity].
    rewrite IH. replace (i + S (length ts1)) with (S i + length ts1) by lia.
    unfold thenRun.
    destruct (WithConfig.transformLoop (S i) ts1 next) as [calls [d|e]];
      [|reflexivity].
    destruct (WithConfig.transformLoop (S i + length ts1) ts2 d); reflexivity.
Qed.

Lemma CliOnly_transformLoop_app : forall es1 es2 i openApi,
  CliOnly.transformLoop i (es1 ++ es2) openApi
  = thenRun (CliOnly.transformLoop i es1 openApi)
            (CliOnly.transformLoop (i + length es1) es2).
Proof.
  induction es1 as [|[name [t|e0]] es1 IH]; intros es2 i openApi.
  - simpl. rewrite Nat.add_0_r.
    destruct (CliOnly.transformLoop i es2 openApi); reflexivity.
  - simpl. destruct (transformOpenApi t openApi) as [next|e]; [|reflexivity].
    rewrite IH. replace (i + S (length es1)) with (S i + length es1) by lia.
    unfold thenRun.
    destruct (CliOnly.transformLoop (S i) es1 next) as [calls [d|e]];
      [|reflexivity].
    destruct (CliOnly.transformLoop (S i + length es1) es2 d); reflexivity.
  - reflexivity.
Qed.

(** X10.  Pipelines compose: running the transformers of one list followed
    by those of another is running the first list and then, on the
    document it ends with, the second; when the first list fails the second
    is not run.  This holds for the loop of either variant. *)
Theorem pipeline_composition :
  (forall (ts1 ts2 : list Instance) (i : nat) (openApi : json),
     WithConfig.transformLoop i (ts1 ++ ts2) openApi
     = thenRun (WithConfig.transformLoop i ts1 openApi)
               (WithConfig.transformLoop (i + length ts1) ts2))
  /\
  (forall (es1 es2 : list (string * result Instance)) (i : nat) (openApi : json),
     CliOnly.transformLoop i (es1 ++ es2) openApi
     = thenRun (CliOnly.transformLoop i es1 openApi)
               (CliOnly.transformLoop (i + length es1) es2)).
Proof.
  split; [exact WithConfig_transformLoop_app|exact CliOnly_transformLoop_app].
Qed.

(** X11.  The two nested loops of the CommonJS [applyTransformers], over
    the configurations and over the transformers of each, are one fold over
    all the transformers in order: the same calls, the same document or the
    same error as the single loop over the concatenated list. *)
Theorem CommonJs_nested_loops_are_one_fold :
  forall (groups : list (list Instance)) (i : nat) (openApi : json),
    CommonJs.transformGroups i groups openApi
    = WithConfig.transformLoop i (concat groups) openApi.
Proof.
  induction groups as [|ts groups IH]; intros i openApi; [reflexivity|].
  simpl. rewrite WithConfig_transformLoop_app. unfold thenRun.
  destruct (WithConfig.transformLoop i ts openApi) as [calls [next|e]]; [|reflexivity].
  rewrite IH. reflexivity.
Qed.

(** X12.  On transformers that have all loaded, the loop of the variant
    with flags only and the loop of [applyTransformers] call the same
    transformers and end with the same document; when a transformer throws,
    both stop there, and the error of the first is that of the second with
    [" applying transformer <name>"] appended to its message. *)
Theorem loops_agree_up_to_attribution :
  forall (named : list (string * Instance)) (i : nat) (openApi : json),
    match WithConfig.transformLoop i (map snd named) openApi with
    | (calls, Ok final) =>
        CliOnly.transformLoop i (loadedEntries named) openApi = (calls, Ok final)
    | (calls, Throw e) =>
        exists k name transformer,
          nth_error named k = Some (name, transformer)
          /\ calls = seq i (S k)
          /\ CliOnly.transformLoop i (loadedEntries named) openApi
             = (calls, Throw (appendMessage e (" applying transformer " ++ name)))
    end.
Proof.
  induction named as [|[name t] named IH]; intros i openApi; [reflexivity|].
  simpl. destruct (transformOpenApi t openApi) as [next|e].
  - specialize (IH (S i) next). fold (loadedEntries named).
    destruct (WithConfig.transformLoop (S i) (map snd named) next) as [calls [d|e]].
    + rewrite IH. reflexivity.
    + destruct IH as (k & name' & t' & Hnth & Hcalls & Hloop).
      exists (S k), name', t'. rewrite Hloop, Hcalls. auto.
  - exists 0, name, t. auto.
Qed.

Lemma CliOnly_failure_prefix : forall rest before openApi current calls e,
  foldTo (length before) (map snd (before ++ rest)) openApi = Some current ->
  CliOnly.transformLoop (length before) rest current = (calls, Throw e) ->
  exists k name input e0,
    length before <= k
    /\ foldTo k (map snd (before ++ rest)) openApi = Some input
    /\ e = appendMessage e0 (" applying transformer " ++ name)
    /\ ((nth_error (before ++ rest) k = Some (name, Throw e0)
         /\ calls = seq (length before) (k - length before))
        \/ (exists transformer,
              nth_error (before ++ rest) k = Some (name, Ok transformer)
              /\ transformOpenApi transformer input = Throw e0
              /\ calls = seq (length before) (S (k - length before)))).
Proof.
  induction rest as [|[name transformerP] rest IH];
    intros before openApi current calls e Hfold Hloop; simpl in Hloop;
    [discriminate|].
  assert (Hhere : nth_error (before ++ (name, transformerP) :: rest) (length before)
                  = Some (name, transformerP)).
  { rewrite nth_error_app2 by lia. rewrite Nat.sub_diag. reflexivity. }
  destruct transformerP as [transformer|e0].
  - destruct (transformOpenApi transformer current) as [next|e0] eqn:Hcall.
    + destruct (CliOnly.transformLoop (S (length before)) rest next)
        as [calls' r] eqn:Hrest.
      injection Hloop as Hcalls Hr. subst calls r.
      assert (Hlen : length (before ++ [(name, Ok transformer)])%list
                     = S (length before)).
      { rewrite length_app. simpl. lia. }
      destruct (IH (before ++ [(name, Ok transformer)])%list openApi next calls' e)
        as (k & name' & input & e0 & Hle & Hfold' & He & Hcase).
      * rewrite <- app_assoc, Hlen. simpl app.
        eapply foldTo_step; eauto. rewrite nth_error_map, Hhere. reflexivity.
      * rewrite Hlen. exact Hrest.
      * rewrite <- app_assoc in Hfold', Hcase. simpl app in Hfold', Hcase.
        rewrite Hlen in Hle, Hcase.
        exists k, name', input, e0. split; [lia|]. split; [exact Hfold'|].
        split; [exact He|].
        destruct Hcase as [[Hnth Hcalls]|(t & Hnth & Hthrow & Hcalls)].
        -- left. split; [exact Hnth|]. rewrite Hcalls.
           replace (k - length before) with (S (k - S (length before))) by lia.
           reflexivity.
        -- right. exists t. split; [exact Hnth|]. split; [exact Hthrow|].
           rewrite Hcalls.
           replace (k - length before) with (S (k - S (length before))) by lia.
           reflexivity.
    + injection Hloop as <- <-.
      exists (length before), name, current, e0. split; [lia|].
      split; [exact Hfold|]. split; [reflexivity|].
      right. exists transformer. rewrite Nat.sub_diag. auto.
  - injection Hloop as <- <-.
    exists (length before), name, current, e0. split; [lia|].
    split; [exact Hfold|]. split; [reflexivity|].
    left. rewrite Nat.sub_diag. auto.
Qed.

Lemma foldTo_prefix_loaded : forall loads openApi k current,
  foldTo k loads openApi = Some current ->
  forall j, j < k -> exists transformer, nth_error loads j = Some (Ok transformer).
Proof.
  intros loads openApi. induction k as [|k IH]; intros current Hfold j Hj; [lia|].
  simpl in Hfold.
  destruct (foldTo k loads openApi) as [d|] eqn:Hk; [|discriminate].
  destruct (nth_error loads k) as [[t|e]|] eqn:Hnth; try discriminate.
  destruct (Nat.eq_dec j k) as [->|Hne]; [eauto|].
  eapply IH; [reflexivity|lia].
Qed.

(** X13.  When the loop of the variant with flags only fails, it fails at
    the first transformer, in declared order, whose load or whose transform
    fails: every transformer before it has loaded, the document it is
    given is the input folded through all of them, and no load failure of a
    later transformer is reported in its place. *)
Theorem first_failure_in_declared_order :
  forall (entries : list (string * result Instance)) (openApi : json)
         (calls : list nat) (e : Error),
    CliOnly.transformLoop 0 entries openApi = (calls, Throw e) ->
    exists k name input e0,
      foldTo k (map snd entries) openApi = Some input
      /\ (forall j, j < k ->
            exists transformer, nth_error (map snd entries) j = Some (Ok transformer))
      /\ e = appendMessage e0 (" applying transformer " ++ name)
      /\ ((nth_error entries k = Some (name, Throw e0) /\ calls = seq 0 k)
          \/ (exists transformer,
                nth_error entries k = Some (name, Ok transformer)
                /\ transformOpenApi transformer input = Throw e0
                /\ calls = seq 0 (S k))).
Proof.
  intros entries openApi calls e Hloop.
  destruct (CliOnly_failure_prefix entries [] openApi openApi calls e eq_refl Hloop)
    as (k & name & input & e0 & _ & Hfold & He & Hcase).
  simpl in Hfold, Hcase. rewrite Nat.sub_0_r in Hcase.
  exists k, name, input, e0. split; [exact Hfold|].
  split; [eapply foldTo_prefix_loaded; eauto|]. split; [exact He|exact Hcase].
Qed.

Lemma first_failure_in_declared_order_witness :
  exists k name input e0,
    foldTo k
      (map snd [("a", SyncTransformer []);
                ("b", Throw (newError "Cannot find module 'b'"));
                ("c", Throw (newError "Cannot find module 'c'"))])
      (JObject []) = Some input
    /\ (forall j, j < k ->
          exists transformer,
            nth_error
              (map snd [("a", SyncTransformer []);
                        ("b", Throw (newError "Cannot find module 'b'"));
                        ("c", Throw (newError "Cannot find module 'c'"))]) j
            = Some (Ok transformer))
    /\ appendMessage (newError "Cannot find module 'b'") " applying transformer b"
       = appendMessage e0 (" applying transformer " ++ name)
    /\ ((nth_error [("a", SyncTransformer []);
                    ("b", Throw (newError "Cannot find module 'b'"));
                    ("c", Throw (newError "Cannot find module 'c'"))] k
           = Some (name, Throw e0)
         /\ [0] = seq 0 k)
        \/ (exists transformer,
              nth_error [("a", SyncTransformer []);
                         ("b", Throw (newError "Cannot find module 'b'"));
                         ("c", Throw (newError "Cannot find module 'c'"))] k
                = Some (name, Ok transformer)
              /\ transformOpenApi transformer input = Throw e0
              /\ [0] = seq 0 (S k))).
Proof.
  exact (first_failure_in_declared_order
           [("a", SyncTransformer []);
            ("b", Throw (newError "Cannot find module 'b'"));
            ("c", Throw (newError "Cannot find module 'c'"))]
           (JObject []) [0]
           (appendMessage (newError "Cannot find module 'b'") " applying transformer b")
           eq_refl).
Defined.

(* ================================================================== *)
(** ** Which failure a run reports *)

Lemma rejections_complete : forall (A : Type) (ps : list (result A)) i j e,
  nth_error ps j = Some (Throw e) -> In (i + j, e) (rejections i ps).
Proof.
  intros A. induction ps as [|[a|e'] ps IH]; intros i [|j] e Hnth; simpl in *;
    try discriminate.
  - replace (i + S j) with (S i + j) by lia. apply IH. exact Hnth.
  - injection Hnth as ->. rewrite Nat.add_0_r. auto.
  - right. replace (i + S j) with (S i + j) by lia. apply IH. exact Hnth.
Qed.

Lemma earliest_minimal : forall rank (rs : list (nat * Error)) k e,
  earliest rank rs = Some (k, e) ->
  forall j e', In (j, e') rs -> rank k <= rank j.
Proof.
  intros rank. induction rs as [|[i ei] rs IH]; intros k e Hearliest j e' Hin;
    simpl in *; [destruct Hin|].
  destruct (earliest rank rs) as [[m em]|] eqn:Hrest.
  - destruct (Nat.ltb_spec (rank m) (rank i)) as [Hlt|Hge];
      injection Hearliest as <- <-.
    + destruct Hin as [Heq|Hin]; [injection Heq as <- <-; lia|].
      eapply IH; eauto.
    + destruct Hin as [Heq|Hin]; [injection Heq as <- <-; lia|].
      specialize (IH m em eq_refl j e' Hin). lia.
  - injection Hearliest as <- <-.
    destruct Hin as [Heq|Hin]; [injection Heq as <- <-; lia|].
    apply earliest_none in Hrest. subst rs. destruct Hin.
Qed.

Lemma earliest_of_some : forall rank (rs : list (nat * Error)) r,
  In r rs -> exists k e, earliest rank rs = Some (k, e).
Proof.
  intros rank rs r Hin. destruct (earliest rank rs) as [[k e]|] eqn:H; [eauto|].
  apply earliest_none in H. subst rs. destruct Hin.
Qed.

(** X14.  In the variant with configuration files one load that fails
    keeps every transformer from being applied, also those declared before
    it: [applyTransformers] rejects without a call.  The error is that of a
    failed load, passed on as it is, and among several failed loads that of
    the one that settled first, wherever it stands in the declared order. *)
Theorem load_failure_blocks_every_transform :
  forall (w : World) (configs : list WithConfig.Config) (openApi : json)
         (j : nat) (e' : Error),
    nth_error (flat_map (WithConfig.createTransformersForConfig w) configs) j
      = Some (Throw e') ->
    exists k e,
      nth_error (flat_map (WithConfig.createTransformersForConfig w) configs) k
        = Some (Throw e)
      /\ WithConfig.applyTransformers w configs openApi = ([], Throw e)
      /\ (forall j' e'',
            nth_error (flat_map (WithConfig.createTransformersForConfig w) configs) j'
              = Some (Throw e'') ->
            loadRank w k <= loadRank w j').
Proof.
  intros w configs openApi j e' Hnth.
  set (loads := flat_map (WithConfig.createTransformersForConfig w) configs) in *.
  pose proof (rejections_complete _ loads 0 j e' Hnth) as Hin.
  destruct (earliest_of_some (loadRank w) _ _ Hin) as (k & e & Hearliest).
  exists k, e. split; [|split].
  - pose proof (earliest_In _ _ _ Hearliest) as Hk.
    apply rejections_sound in Hk as [_ Hk]. rewrite Nat.sub_0_r in Hk. exact Hk.
  - unfold WithConfig.applyTransformers, Promise_all. fold loads.
    rewrite Hearliest. reflexivity.
  - intros j' e'' Hj'.
    eapply (earliest_minimal _ _ _ _ Hearliest).
    apply (rejections_complete _ loads 0 j' e'' Hj').
Qed.

Lemma load_failure_blocks_every_transform_witness :
  exists k e,
    nth_error
      (flat_map (WithConfig.createTransformersForConfig Example.plainRun)
         [WithConfig.mkConfig None
            [JString "./sync-transformer.js"; JString "./b.js"; JString "./c.js"]]) k
      = Some (Throw e)
    /\ WithConfig.applyTransformers Example.plainRun
         [WithConfig.mkConfig None
            [JString "./sync-transformer.js"; JString "./b.js"; JString "./c.js"]]
         (JObject [])
       = ([], Throw e)
    /\ (forall j' e'',
          nth_error
            (flat_map (WithConfig.createTransformersForConfig Example.plainRun)
               [WithConfig.mkConfig None
                  [JString "./sync-transformer.js"; JString "./b.js";
                   JString "./c.js"]]) j'
            = Some (Throw e'') ->
          loadRank Example.plainRun k <= loadRank Example.plainRun j').
Proof.
  exact (load_failure_blocks_every_transform Example.plainRun
           [WithConfig.mkConfig None
              [JString "./sync-transformer.js"; JString "./b.js"; JString "./c.js"]]
           (JObject []) 1 (newError "Cannot find module '/opt/cli/./b.js'") eq_refl).
Defined.

(** In the example the load of [./c.js] settles before that of [./b.js]:
    its error is the one reported, although [./b.js] is declared first. *)
Example later_reference_reported :
  WithConfig.applyTransformers Example.plainRun
    [WithConfig.mkConfig None
       [JString "./sync-transformer.js"; JString "./b.js"; JString "./c.js"]]
    (JObject [])
  = ([], Throw (newError "Cannot find module '/opt/cli/./c.js'")).
Proof. reflexivity. Qed.

(* ================================================================== *)
(** ** Failure of a transformer, from its cause *)

Lemma firstn_succ_nth : forall (A : Type) (l : list A) k x,
  nth_error l k = Some x -> firstn (S k) l = (firstn k l ++ [x])%list.
Proof.
  intros A. induction l as [|a l IH]; intros [|k] x H; simpl in *; try discriminate.
  - injection H as ->. reflexivity.
  - f_equal. apply IH. exact H.
Qed.

(** When the first [k] transformers have loaded and transformed, the loop
    over them has called them all, in order, and holds their document. *)
Lemma CliOnly_loop_prefix : forall entries openApi k d,
  foldTo k (map snd entries) openApi = Some d ->
  CliOnly.transformLoop 0 (firstn k entries) openApi = (seq 0 k, Ok d).
Proof.
  intros entries openApi. induction k as [|k IH]; intros d Hfold.
  - simpl in Hfold. injection Hfold as <-. reflexivity.
  - simpl in Hfold.
    destruct (foldTo k (map snd entries) openApi) as [d0|] eqn:Hk; [|discriminate].
    rewrite nth_error_map in Hfold.
    destruct (nth_error entries k) as [[name [t|e]]|] eqn:Hnth;
      simpl in Hfold; try discriminate.
    destruct (transformOpenApi t d0) as [d'|e] eqn:Hcall; [|discriminate].
    injection Hfold as <-.
    rewrite (firstn_succ_nth _ _ _ _ Hnth), CliOnly_transformLoop_app, (IH d0 eq_refl).
    unfold thenRun.
    rewrite firstn_length_le by (apply Nat.lt_le_incl; eapply nth_error_lt; eauto).
    cbn [CliOnly.transformLoop Nat.add]. rewrite Hcall, seq_S. reflexivity.
Qed.

Lemma WithConfig_loop_prefix : forall transformers openApi k d,
  foldTo k (map Ok transformers) openApi = Some d ->
  WithConfig.transformLoop 0 (firstn k transformers) openApi = (seq 0 k, Ok d).
Proof.
  intros transformers openApi. induction k as [|k IH]; intros d Hfold.
  - simpl in Hfold. injection Hfold as <-. reflexivity.
  - simpl in Hfold.
    destruct (foldTo k (map Ok transformers) openApi) as [d0|] eqn:Hk; [|discriminate].
    rewrite nth_error_map in Hfold.
    destruct (nth_error transformers k) as [t|] eqn:Hnth;
      simpl in Hfold; try discriminate.
    destruct (transformOpenApi t d0) as [d'|e] eqn:Hcall; [|discriminate].
    injection Hfold as <-.
    rewrite (firstn_succ_nth _ _ _ _ Hnth), WithConfig_transformLoop_app,
      (IH d0 eq_refl).
    unfold thenRun.
    rewrite firstn_length_le by (apply Nat.lt_le_incl; eapply nth_error_lt; eauto).
    cbn [WithConfig.transformLoop Nat.add]. rewrite Hcall, seq_S. reflexivity.
Qed.

Lemma all_fulfilled : forall (A : Type) (ps : list (result A)),
  forallb isOk ps = true -> ps = map Ok (fulfilled ps).
Proof.
  intros A. induction ps as [|[a|e] ps IH]; simpl; intros H;
    [reflexivity|f_equal; auto|discriminate].
Qed.

(** The loop of the variant with flags only at the transformer [k], when
    those before it have loaded and transformed: a failed load, or a failed
    transform, ends the loop there with the attributed error. *)
Lemma CliOnly_loop_fails_at : forall entries openApi k name p input e0,
  nth_error entries k = Some (name, p) ->
  foldTo k (map snd entries) openApi = Some input ->
  (p = Throw e0
   \/ exists transformer, p = Ok transformer
                          /\ transformOpenApi transformer input = Throw e0) ->
  exists calls,
    CliOnly.transformLoop 0 entries openApi
      = (calls, Throw (appendMessage e0 (" applying transformer " ++ name)))
    /\ (calls = seq 0 k \/ calls = seq 0 (S k)).
Proof.
  intros entries openApi k name p input e0 Hnth Hfold Hcause.
  assert (Hsplit : entries = (firstn k entries ++ (name, p) :: skipn (S k) entries)%list).
  { rewrite <- (skipn_nth_error _ _ _ _ Hnth). symmetry. apply firstn_skipn. }
  assert (Hloop : CliOnly.transformLoop 0 entries openApi
                  = CliOnly.transformLoop 0
                      (firstn k entries ++ (name, p) :: skipn (S k) entries) openApi)
    by (rewrite <- Hsplit; reflexivity).
  rewrite Hloop.
  rewrite CliOnly_transformLoop_app, (CliOnly_loop_prefix _ _ _ _ Hfold).
  unfold thenRun.
  rewrite firstn_length_le by (apply Nat.lt_le_incl; eapply nth_error_lt; eauto).
  cbn [CliOnly.transformLoop Nat.add].
  destruct Hcause as [->|(transformer & -> & Hthrow)].
  - exists (seq 0 k). rewrite app_nil_r. auto.
  - rewrite Hthrow. exists (seq 0 (S k)). rewrite seq_S. auto.
Qed.

(** The loop of [applyTransformers] at the transformer [k], when all
    transformers have loaded and those before [k] have transformed: a
    failed transform ends the loop there with the error as it was thrown. *)
Lemma WithConfig_loop_fails_at : forall loads openApi k transformer input e,
  forallb isOk loads = true ->
  nth_error loads k = Some (Ok transformer) ->
  foldTo k loads openApi = Some input ->
  transformOpenApi transformer input = Throw e ->
  WithConfig.transformLoop 0 (fulfilled loads) openApi = (seq 0 (S k), Throw e).
Proof.
  intros loads openApi k transformer input e Hall Hnth Hfold Hthrow.
  rewrite (all_fulfilled _ _ Hall) in Hnth, Hfold.
  set (transformers := fulfilled loads) in *.
  rewrite nth_error_map in Hnth.
  destruct (nth_error transformers k) as [t|] eqn:Ht; [|discriminate].
  injection Hnth as ->.
  assert (Hsplit : transformers
                   = (firstn k transformers ++ transformer :: skipn (S k) transformers)%list).
  { rewrite <- (skipn_nth_error _ _ _ _ Ht). symmetry. apply firstn_skipn. }
  rewrite Hsplit.
  rewrite WithConfig_transformLoop_app, (WithConfig_loop_prefix _ _ _ _ Hfold).
  unfold thenRun.
  rewrite firstn_length_le by (apply Nat.lt_le_incl; eapply nth_error_lt; eauto).
  cbn [WithConfig.transformLoop Nat.add]. rewrite Hthrow, seq_S. reflexivity.
Qed.

Lemma nth_error_loadAll_inv : forall w names k name,
  nth_error names k = Some name ->
  nth_error (CliOnly.loadAll w names) k
  = Some (name, CliOnly.loadTransformer w name (Some (CliOnly.cwdUrl w))).
Proof.
  intros w names k name H. unfold CliOnly.loadAll. rewrite nth_error_map, H.
  reflexivity.
Qed.

(** C2, as the code has it.  A run that has read its input, in which the
    transformers before [k] load and transform and the load or the
    transform of the transformer at [k] fails.  In the variant with flags
    only the loop ends with the error of that failure and
    [" applying transformer <name>"] appended to its message, so that the
    message includes the specifier; only transformers up to [k] have been
    called; the run writes nothing to stdout, writes the stack of the error
    to stderr and resolves with 1.  In the variant with configuration
    files, when a load fails no transformer is called and the error of a
    failed load surfaces as it is; when all load and the transform at [k]
    fails, the transformers up to [k] have been called and its error
    surfaces as it is; in both cases nothing is appended, the run writes
    nothing to stdout, writes the error to stderr and resolves with 1. *)
Theorem failure_surfaces_and_stops_the_pipeline :
  forall (w : World) (items : list string) (options : option OptionsValue)
         (events : list OptionEvent) (files : list string)
         (warnings : list Error) (openApi : json),
    checkArguments (ArgsArray items) options = None ->
    commanderParse w items = Parsed events false files ->
    readJsonOrYaml w (openApiStreamOf files) = (warnings, Ok openApi) ->
    (forall k name input e0,
       nth_error (CliOnly.transformersOf events) k = Some name ->
       foldTo k (map snd (CliOnly.loadAll w (CliOnly.transformersOf events))) openApi
         = Some input ->
       (CliOnly.loadTransformer w name (Some (CliOnly.cwdUrl w)) = Throw e0
        \/ exists transformer,
             CliOnly.loadTransformer w name (Some (CliOnly.cwdUrl w)) = Ok transformer
             /\ transformOpenApi transformer input = Throw e0) ->
       includes name
         (message (appendMessage e0 (" applying transformer " ++ name))) = true
       /\
       (exists calls,
          CliOnly.transformLoop 0 (CliOnly.loadAll w (CliOnly.transformersOf events))
            openApi
            = (calls, Throw (appendMessage e0 (" applying transformer " ++ name)))
          /\ forall j, In j calls -> j <= k)
       /\
       CliOnly.openapiTransformerMain w (ArgsArray items) options
         = Resolved 1 []
             (stderrBefore files options warnings
                ++ [line (stackOf w
                            (appendMessage e0 (" applying transformer " ++ name)))]))
    /\
    (forall configs,
       WithConfig.awaitConfigs w (fold_left WithConfig.onOption events []) = Ok configs ->
       (forall j e',
          nth_error (flat_map (WithConfig.createTransformersForConfig w) configs) j
            = Some (Throw e') ->
          exists k e,
            nth_error (flat_map (WithConfig.createTransformersForConfig w) configs) k
              = Some (Throw e)
            /\ WithConfig.applyTransformers w configs openApi = ([], Throw e)
            /\ WithConfig.openapiTransformerMain w (ArgsArray items) options
               = Resolved 1 []
                   (stderrBefore files options warnings ++ [line (Error_toString e)]))
       /\
       (forall k transformer input e,
          forallb isOk (flat_map (WithConfig.createTransformersForConfig w) configs)
            = true ->
          nth_error (flat_map (WithConfig.createTransformersForConfig w) configs) k
            = Some (Ok transformer) ->
          foldTo k (flat_map (WithConfig.createTransformersForConfig w) configs) openApi
            = Some input ->
          transformOpenApi transformer input = Throw e ->
          WithConfig.applyTransformers w configs openApi = (seq 0 (S k), Throw e)
          /\ WithConfig.openapiTransformerMain w (ArgsArray items) options
             = Resolved 1 []
                 (stderrBefore files options warnings ++ [line (Error_toString e)]))).
Proof.
  intros w items options events files warnings openApi Hargs Hparse Hread. split.
  - intros k name input e0 Hname Hfold Hcause.
    split; [apply attributed_message_includes|].
    destruct (CliOnly_loop_fails_at _ _ _ _ _ _ _
                (nth_error_loadAll_inv w _ _ _ Hname) Hfold Hcause)
      as (calls & Hloop & Hcalls).
    split.
    + exists calls. split; [exact Hloop|].
      intros j Hj. destruct Hcalls as [->| ->]; apply in_seq in Hj; lia.
    + rewrite (CliOnly_main_run w items options events files Hargs Hparse).
      rewrite Hread. cbn [fst snd bind]. unfold writtenByFlags.
      rewrite Hloop. reflexivity.
  - intros configs Hconfigs.
    assert (Hmain : forall calls e,
      WithConfig.applyTransformers w configs openApi = (calls, Throw e) ->
      WithConfig.openapiTransformerMain w (ArgsArray items) options
      = Resolved 1 []
          (stderrBefore files options warnings ++ [line (Error_toString e)])).
    { intros calls e Happly.
      rewrite (WithConfig_main_run w items options events files Hargs Hparse
                 (awaitConfigs_Ok_no_rejection _ _ _ Hconfigs)).
      rewrite Hread. cbn [fst snd bind]. unfold written.
      rewrite Hconfigs. cbn [bind]. rewrite Happly. reflexivity. }
    split.
    + intros j e' Hj.
      set (loads := flat_map (WithConfig.createTransformersForConfig w) configs) in *.
      pose proof (rejections_complete _ loads 0 j e' Hj) as Hin.
      destruct (earliest_of_some (loadRank w) _ _ Hin) as (k & e & Hearliest).
      assert (Happly : WithConfig.applyTransformers w configs openApi = ([], Throw e)).
      { unfold WithConfig.applyTransformers, Promise_all. fold loads.
        rewrite Hearliest. reflexivity. }
      exists k, e. split; [|split; [exact Happly|eapply Hmain; eauto]].
      pose proof (earliest_In _ _ _ Hearliest) as Hk.
      apply rejections_sound in Hk as [_ Hk]. rewrite Nat.sub_0_r in Hk. exact Hk.
    + intros k transformer input e Hall Hnth Hfold Hthrow.
      assert (Happly : WithConfig.applyTransformers w configs openApi
                       = (seq 0 (S k), Throw e)).
      { unfold WithConfig.applyTransformers.
        rewrite (Promise_all_fulfilled _ _ Hall).
        eapply WithConfig_loop_fails_at; eauto. }
      split; [exact Happly|eapply Hmain; eauto].
Qed.

Lemma failure_surfaces_and_stops_the_pipeline_witness :
  (includes "./sync-transformer.js"
     (message (appendMessage (newError "Invalid openApi object")
                 (" applying transformer " ++ "./sync-transformer.js"))) = true
   /\
   (exists calls,
      CliOnly.transformLoop 0
        (CliOnly.loadAll Example.invalidDocument
           (CliOnly.transformersOf [OptTransformer "./sync-transformer.js"]))
        (JArray [])
        = (calls,
           Throw (appendMessage (newError "Invalid openApi object")
                    (" applying transformer " ++ "./sync-transformer.js")))
      /\ forall j, In j calls -> j <= 0)
   /\
   CliOnly.openapiTransformerMain Example.invalidDocument
     (ArgsArray ["node"; "openapi-transformer"]) Example.options
     = Resolved 1 []
         (stderrBefore [] Example.options []
            ++ [line (stackOf Example.invalidDocument
                        (appendMessage (newError "Invalid openApi object")
                           (" applying transformer " ++ "./sync-transformer.js")))]))
  /\
  (WithConfig.applyTransformers Example.invalidDocument
     [WithConfig.mkConfig None [JString "./sync-transformer.js"]] (JArray [])
     = (seq 0 1, Throw (newError "Invalid openApi object"))
   /\
   WithConfig.openapiTransformerMain Example.invalidDocument
     (ArgsArray ["node"; "openapi-transformer"]) Example.options
     = Resolved 1 []
         (stderrBefore [] Example.options []
            ++ [line (Error_toString (newError "Invalid openApi object"))])).
Proof.
  pose proof (failure_surfaces_and_stops_the_pipeline
                Example.invalidDocument ["node"; "openapi-transformer"]
                Example.options [OptTransformer "./sync-transformer.js"] [] []
                (JArray []) eq_refl eq_refl eq_refl) as [Hflags Hconfig].
  split.
  - apply (Hflags 0 "./sync-transformer.js" (JArray [])
             (newError "Invalid openApi object") eq_refl eq_refl).
    right. eexists. split; reflexivity.
  - destruct (Hconfig [WithConfig.mkConfig None [JString "./sync-transformer.js"]]
                eq_refl) as [_ Htransform].
    eapply (Htransform 0 _ (JArray []) (newError "Invalid openApi object"));
      reflexivity.
Defined.

(** A failed load in the example: [./b.js] does not exist.  In the variant
    with flags only the error names the transformer; [./sync-transformer.js],
    declared before it, has been called, and nothing declared after it. *)
Example failed_load_in_the_example :
  CliOnly.transformLoop 0
    (CliOnly.loadAll Example.plainRun
       ["./sync-transformer.js"; "./b.js"; "./async-transformer.js"])
    (JObject [])
  = ([0],
     Throw (newError
              "Cannot find module 'file:///work/./b.js' applying transformer ./b.js")).
Proof. reflexivity. Qed.

(** C2, as stated, fails on the variant with configuration files: the
    transformer [./sync-transformer.js] throws on the document [[]], and
    neither the message of the error that surfaces nor the line written to
    stderr includes the specifier. *)
Lemma failure_not_attributed_with_config :
  WithConfig.applyTransformers Example.invalidDocument
    [WithConfig.mkConfig None [JString "./sync-transformer.js"]] (JArray [])
    = ([0], Throw (newError "Invalid openApi object"))
  /\ includes "./sync-transformer.js" (message (newError "Invalid openApi object")) = false
  /\ WithConfig.openapiTransformerMain Example.invalidDocument Example.args Example.options
     = Resolved 1 [] [line "Error: Invalid openApi object"]
  /\ includes "./sync-transformer.js" (line "Error: Invalid openApi object") = false.
Proof.
  repeat split; reflexivity.
Qed.

(* ================================================================== *)
(** ** The order of the fold, whatever the order of the loads *)

Lemma foldTo_complete_loads : forall loads openApi d,
  foldTo (length loads) loads openApi = Some d ->
  forallb isOk loads = true
  /\ WithConfig.transformLoop 0 (fulfilled loads) openApi
     = (seq 0 (length loads), Ok d).
Proof.
  intros loads openApi d Hfold.
  assert (Hall : forallb isOk loads = true).
  { apply forallb_forall. intros p Hp. apply In_nth_error in Hp as [j Hj].
    destruct (foldTo_prefix_loaded _ _ _ _ Hfold j) as [t Ht];
      [eapply nth_error_lt; eauto|].
    rewrite Hj in Ht. injection Ht as ->. reflexivity. }
  split; [exact Hall|].
  pose proof (all_fulfilled _ _ Hall) as Heq.
  set (transformers := fulfilled loads) in *.
  rewrite Heq in Hfold. rewrite length_map in Hfold.
  pose proof (WithConfig_loop_prefix _ _ _ _ Hfold) as Hloop.
  rewrite firstn_all in Hloop.
  rewrite Heq, length_map. exact Hloop.
Qed.

Lemma foldTo_complete_entries : forall entries openApi d,
  foldTo (length entries) (map snd entries) openApi = Some d ->
  CliOnly.transformLoop 0 entries openApi = (seq 0 (length entries), Ok d).
Proof.
  intros entries openApi d Hfold.
  pose proof (CliOnly_loop_prefix _ _ _ _ Hfold) as Hloop.
  rewrite firstn_all in Hloop. exact Hloop.
Qed.

(** [applyTransformers] in a world whose loads settle as [rank] tells: the
    loads are the same, only the order of settling differs. *)
Lemma applyTransformers_withLoadRank : forall w rank configs openApi,
  WithConfig.applyTransformers (withLoadRank w rank) configs openApi
  = match Promise_all rank
            (flat_map (WithConfig.createTransformersForConfig w) configs) with
    | Ok transformers => WithConfig.transformLoop 0 transformers openApi
    | Throw e => ([], Throw e)
    end.
Proof. reflexivity. Qed.

Lemma second_first_order : forall i, In i [1; 0] <-> i < 2.
Proof.
  intros i. simpl. split.
  - intros [<-|[<-|[]]]; lia.
  - intros Hi. destruct i as [|[|i]]; [auto|auto|lia].
Qed.

Lemma second_first_NoDup : NoDup [1; 0].
Proof.
  constructor; [simpl; intros [H|[]]; discriminate|].
  constructor; [simpl; tauto|constructor].
Qed.

(** C4.  Whatever the order in which the loads of the transformers settle.
    When all load, [applyTransformers] is the loop over the instances in
    declared order, for every order of settling.  In every state of every
    run of [applyTransformers], and of the loop of the variant with flags
    only, the calls of [transformOpenApi] made so far are those of the
    transformers [0] to [k - 1], in declared order, and the document is the
    one folded through the transformers before the loop index; a run that
    has gone through all transformers has made the calls, and holds the
    document, that the function computes.  For every order in which the
    loads may settle there is a run with that order, and it ends as the
    function ends.  The run of the variant with flags only is the same for
    every order of settling. *)
Theorem fold_order_independent_of_load_order :
  forall (w : World) (configs : list WithConfig.Config) (names : list string)
         (openApi : json),
    (forall rank,
       forallb isOk (flat_map (WithConfig.createTransformersForConfig w) configs)
         = true ->
       WithConfig.applyTransformers (withLoadRank w rank) configs openApi
       = WithConfig.transformLoop 0
           (fulfilled (flat_map (WithConfig.createTransformersForConfig w) configs))
           openApi)
    /\
    (forall s,
       WithConfig.reachable
         (flat_map (WithConfig.createTransformersForConfig w) configs) openApi s ->
       (exists k,
          k <= length (flat_map (WithConfig.createTransformersForConfig w) configs)
          /\ st_next s <= k <= S (st_next s)
          /\ calledOf (st_trace s) = seq 0 k)
       /\ foldTo (st_next s)
            (flat_map (WithConfig.createTransformersForConfig w) configs) openApi
          = Some (st_openApi s)
       /\ (st_phase s = Idle ->
           st_next s
             = length (flat_map (WithConfig.createTransformersForConfig w) configs) ->
           forall rank,
             WithConfig.applyTransformers (withLoadRank w rank) configs openApi
             = (calledOf (st_trace s), Ok (st_openApi s))))
    /\
    (forall order rank,
       NoDup order ->
       (forall i, In i order
                  <-> i < length (flat_map (WithConfig.createTransformersForConfig w)
                                    configs)) ->
       forallb isOk (flat_map (WithConfig.createTransformersForConfig w) configs)
         = true ->
       exists s,
         WithConfig.reachable
           (flat_map (WithConfig.createTransformersForConfig w) configs) openApi s
         /\ settledOf (st_trace s) = order
         /\ WithConfig.applyTransformers (withLoadRank w rank) configs openApi
            = (calledOf (st_trace s),
               match st_phase s with
               | Failed e => Throw e
               | _ => Ok (st_openApi s)
               end))
    /\
    (forall s,
       CliOnly.reachable (CliOnly.loadAll w names) openApi s ->
       (exists k,
          k <= length names /\ st_next s <= k <= S (st_next s)
          /\ calledOf (st_trace s) = seq 0 k)
       /\ foldTo (st_next s) (map snd (CliOnly.loadAll w names)) openApi
          = Some (st_openApi s)
       /\ (st_phase s = Idle -> st_next s = length names ->
           CliOnly.transformLoop 0 (CliOnly.loadAll w names) openApi
           = (calledOf (st_trace s), Ok (st_openApi s))))
    /\
    (forall order,
       NoDup order ->
       (forall i, In i order <-> i < length names) ->
       exists s,
         CliOnly.reachable (CliOnly.loadAll w names) openApi s
         /\ settledOf (st_trace s) = order
         /\ CliOnly.transformLoop 0 (CliOnly.loadAll w names) openApi
            = (calledOf (st_trace s),
               match st_phase s with
               | Failed e => Throw e
               | _ => Ok (st_openApi s)
               end))
    /\
    (forall rank args options,
       CliOnly.openapiTransformerMain (withLoadRank w rank) args options
       = CliOnly.openapiTransformerMain w args options).
Proof.
  intros w configs names openApi.
  set (loads := flat_map (WithConfig.createTransformersForConfig w) configs).
  assert (Hlength : length (CliOnly.loadAll w names) = length names)
    by (unfold CliOnly.loadAll; apply length_map).
  split; [|split; [|split; [|split; [|split]]]].
  - intros rank Hall. rewrite applyTransformers_withLoadRank. fold loads.
    rewrite (Promise_all_fulfilled _ _ Hall). reflexivity.
  - intros s Hreach.
    pose proof (WithConfig_reachable_inDeclaredOrder _ _ _ Hreach) as Hinv.
    split; [exact (inDeclaredOrder_prefix _ _ _ Hinv)|].
    destruct Hinv as (_ & Hfold & Hphase).
    split; [exact Hfold|].
    intros Hidle Hnext rank. rewrite Hidle in Hphase. rewrite Hnext in Hfold, Hphase.
    destruct (foldTo_complete_loads _ _ _ Hfold) as [Hall Hloop].
    rewrite applyTransformers_withLoadRank. fold loads.
    rewrite (Promise_all_fulfilled _ _ Hall), Hloop, Hphase. reflexivity.
  - intros order rank Hnodup Horder Hall.
    pose proof (f_equal (@length _) (all_fulfilled _ _ Hall)) as Hlen.
    rewrite length_map in Hlen.
    destruct (WithConfig.transformLoop 0 (fulfilled loads) openApi) as [calls r] eqn:Hloop.
    destruct (WithConfig_run_for_every_order (fulfilled loads) openApi order calls r
                Hnodup) as (s & Hreach & Hsettled & Hcalled & Hend); [|exact Hloop|].
    + intros i. rewrite <- Hlen. apply Horder.
    + rewrite <- (all_fulfilled _ _ Hall) in Hreach.
      exists s. split; [exact Hreach|]. split; [exact Hsettled|].
      rewrite applyTransformers_withLoadRank. fold loads.
      rewrite (Promise_all_fulfilled _ _ Hall), Hloop, Hcalled.
      destruct r as [final|e].
      * destruct Hend as (-> & _ & ->). reflexivity.
      * rewrite Hend. reflexivity.
  - intros s Hreach.
    pose proof (CliOnly_reachable_inDeclaredOrder _ _ _ Hreach) as Hinv.
    split.
    { destruct (inDeclaredOrder_prefix _ _ _ Hinv) as (k & Hk & Hnext & Hcalled).
      exists k. rewrite length_map, Hlength in Hk. auto. }
    destruct Hinv as (_ & Hfold & Hphase).
    split; [exact Hfold|].
    intros Hidle Hnext. rewrite Hidle in Hphase.
    rewrite Hnext, <- Hlength in Hfold.
    rewrite (foldTo_complete_entries _ _ _ Hfold), Hphase, Hnext, Hlength.
    reflexivity.
  - intros order Hnodup Horder.
    destruct (CliOnly.transformLoop 0 (CliOnly.loadAll w names) openApi)
      as [calls r] eqn:Hloop.
    destruct (CliOnly_run_for_every_order (CliOnly.loadAll w names) openApi order
                calls r Hnodup) as (s & Hreach & Hsettled & Hcalled & Hend);
      [|exact Hloop|].
    + intros i. rewrite Hlength. apply Horder.
    + exists s. split; [exact Hreach|]. split; [exact Hsettled|].
      rewrite Hcalled. destruct r as [final|e].
      * destruct Hend as (-> & _ & ->). reflexivity.
      * rewrite Hend. reflexivity.
  - reflexivity.
Qed.

Lemma fold_order_independent_of_load_order_witness :
  WithConfig.applyTransformers
    (withLoadRank Example.plainRun (fun i => 1 - i))
    [WithConfig.mkConfig None
       [JString "./sync-transformer.js"; JString "./async-transformer.js"]]
    (JObject [])
  = ([0; 1], Ok Example.afterAB)
  /\
  WithConfig.applyTransformers
    (withLoadRank Example.plainRun (fun i => i))
    [WithConfig.mkConfig None
       [JString "./sync-transformer.js"; JString "./async-transformer.js"]]
    (JObject [])
  = (calledOf (st_trace Example.secondSettledFirst),
     Ok (st_openApi Example.secondSettledFirst))
  /\
  (exists s,
     WithConfig.reachable
       (flat_map (WithConfig.createTransformersForConfig Example.plainRun)
          [WithConfig.mkConfig None
             [JString "./sync-transformer.js"; JString "./async-transformer.js"]])
       (JObject []) s
     /\ settledOf (st_trace s) = [1; 0]
     /\ WithConfig.applyTransformers
          (withLoadRank Example.plainRun (fun i => 1 - i))
          [WithConfig.mkConfig None
             [JString "./sync-transformer.js"; JString "./async-transformer.js"]]
          (JObject [])
        = (calledOf (st_trace s),
           match st_phase s with
           | Failed e => Throw e
           | _ => Ok (st_openApi s)
           end))
  /\
  CliOnly.transformLoop 0
    (CliOnly.loadAll Example.plainRun
       ["./sync-transformer.js"; "./async-transformer.js"])
    (JObject [])
  = (calledOf (st_trace Example.secondSettledFirst),
     Ok (st_openApi Example.secondSettledFirst)).
Proof.
  pose proof (fold_order_independent_of_load_order Example.plainRun
                [WithConfig.mkConfig None
                   [JString "./sync-transformer.js"; JString "./async-transformer.js"]]
                ["./sync-transformer.js"; "./async-transformer.js"] (JObject []))
    as (Hfunction & Hruns & Horders & HflagRuns & _).
  split; [|split; [|split]].
  - exact (Hfunction (fun i => 1 - i) eq_refl).
  - exact (proj2 (proj2 (Hruns Example.secondSettledFirst
                           WithConfig_secondSettledFirst_reachable))
             eq_refl eq_refl (fun i => i)).
  - exact (Horders [1; 0] (fun i => 1 - i) second_first_NoDup second_first_order
             eq_refl).
  - exact (proj2 (proj2 (HflagRuns Example.secondSettledFirst
                           CliOnly_secondSettledFirst_reachable))
             eq_refl eq_refl).
Defined.


(* ================================================================== *)
(** ** Which failure comes first *)



(* ================================================================== *)
(** ** Naming the primary input *)



(* ================================================================== *)
(** ** The CommonJS variant *)

Lemma firstRejection_app : forall (A : Type) (ps qs : list (result A)),
  firstRejection (ps ++ qs)
  = match firstRejection ps with
    | Some e => Some e
    | None => firstRejection qs
    end.
Proof.
  intros A. induction ps as [|[a|e] ps IH]; intros qs; simpl; auto.
Qed.

Lemma fulfilled_app : forall (A : Type) (ps qs : list (result A)),
  fulfilled (ps ++ qs) = (fulfilled ps ++ fulfilled qs)%list.
Proof.
  intros A. induction ps as [|[a|e] ps IH]; intros qs; simpl; auto.
  rewrite IH. reflexivity.
Qed.

Lemma mapThrowing_firstRejection : forall (A B : Type) (f : A -> result B) items,
  CommonJs.mapThrowing f items
  = match firstRejection (map f items) with
    | Some e => Throw e
    | None => Ok (fulfilled (map f items))
    end.
Proof.
  intros A B f. induction items as [|item items IH]; [reflexivity|].
  simpl. destruct (f item) as [b|e]; simpl; [|reflexivity].
  rewrite IH. destruct (firstRejection (map f items)); reflexivity.
Qed.

Lemma grouped_rejections : forall (A B : Type) (loadsOf : A -> list (result B)) groups,
  let create := fun group =>
    match firstRejection (loadsOf group) with
    | Some e => Throw e
    | None => Ok (fulfilled (loadsOf group))
    end in
  firstRejection (map create groups) = firstRejection (flat_map loadsOf groups)
  /\ (firstRejection (flat_map loadsOf groups) = None ->
      concat (fulfilled (map create groups)) = fulfilled (flat_map loadsOf groups)).
Proof.
  intros A B loadsOf groups create.
  induction groups as [|group groups [IH1 IH2]]; [split; reflexivity|].
  simpl. rewrite firstRejection_app, fulfilled_app. unfold create at 1 3.
  destruct (firstRejection (loadsOf group)) as [e|]; simpl.
  - split; [reflexivity|discriminate].
  - split; [exact IH1|]. intros Hnone. rewrite (IH2 Hnone). reflexivity.
Qed.

Lemma CommonJs_groups : forall w process_cwd configs,
  CommonJs.mapThrowing (CommonJs.createTransformersForConfig w process_cwd) configs
  = match firstRejection (CommonJs_loads w process_cwd configs) with
    | Some e => Throw e
    | None =>
        Ok (fulfilled (map (CommonJs.createTransformersForConfig w process_cwd) configs))
    end
  /\ (firstRejection (CommonJs_loads w process_cwd configs) = None ->
      concat (fulfilled (map (CommonJs.createTransformersForConfig w process_cwd)
                           configs))
      = fulfilled (CommonJs_loads w process_cwd configs)).
Proof.
  intros w process_cwd configs. rewrite mapThrowing_firstRejection.
  pose proof (grouped_rejections _ _
                (fun config =>
                   map (CommonJs.createTransformer w
                          (CommonJs.searchPathOf w process_cwd config))
                       (WithConfig.transformers config)) configs) as Hgrouped.
  cbv zeta in Hgrouped.
  rewrite (map_ext (CommonJs.createTransformersForConfig w process_cwd)
             (fun group =>
                match firstRejection
                        (map (CommonJs.createTransformer w
                                (CommonJs.searchPathOf w process_cwd group))
                             (WithConfig.transformers group)) with
                | Some e => Throw e
                | None =>
                    Ok (fulfilled
                          (map (CommonJs.createTransformer w
                                  (CommonJs.searchPathOf w process_cwd group))
                               (WithConfig.transformers group)))
                end))
    by (intros config; apply mapThrowing_firstRejection).
  destruct Hgrouped as [H1 H2]. unfold CommonJs_loads. rewrite H1. auto.
Qed.

Lemma transformGroups_concat : forall groups i openApi,
  CommonJs.transformGroups i groups openApi
  = WithConfig.transformLoop i (concat groups) openApi.
Proof.
  induction groups as [|ts groups IH]; intros i openApi; [reflexivity|].
  simpl. rewrite WithConfig_transformLoop_app. unfold thenRun.
  destruct (WithConfig.transformLoop i ts openApi) as [calls [next|e]]; [|reflexivity].
  rewrite IH. reflexivity.
Qed.

(** X17.  The CommonJS [applyTransformers] loads every transformer, in
    declared order, before it applies any: when a load fails it rejects
    with the error of the first reference, in declared order, that fails to
    load, and no transformer is applied; when all load it is the fold of
    the document through all of them, in declared order. *)
Theorem CommonJs_loads_first_then_folds :
  forall (w : World) (process_cwd : string) (configs : list WithConfig.Config)
         (openApi : json),
    CommonJs.applyTransformers w process_cwd configs openApi
    = match firstRejection (CommonJs_loads w process_cwd configs) with
      | Some e => ([], Throw e)
      | None =>
          WithConfig.transformLoop 0 (fulfilled (CommonJs_loads w process_cwd configs))
            openApi
      end.
Proof.
  intros w process_cwd configs openApi. unfold CommonJs.applyTransformers.
  destruct (CommonJs_groups w process_cwd configs) as [Hgroups Hconcat].
  rewrite Hgroups.
  destruct (firstRejection (CommonJs_loads w process_cwd configs)); [reflexivity|].
  rewrite transformGroups_concat, Hconcat; reflexivity.
Qed.







(* ================================================================== *)
(** ** The variant that appends the configuration to the flags *)

Lemma pairs_checkTransformer : forall entry,
  isOk (ConfigAfterFlags.checkTransformer entry) = pairShape entry.
Proof.
  intros [| b | n | s | items | props |]; try reflexivity.
  destruct items as [|first [|second [|third rest]]]; try reflexivity.
  - destruct first; reflexivity.
  - destruct first; try reflexivity. destruct second; reflexivity.
  - destruct first; try reflexivity. destruct second; reflexivity.
Qed.

Lemma pairs_checkTransformers : forall items,
  isOk (ConfigAfterFlags.checkTransformers items) = forallb pairShape items.
Proof.
  induction items as [|entry items IH]; [reflexivity|].
  simpl. rewrite <- pairs_checkTransformer.
  destruct (ConfigAfterFlags.checkTransformer entry) as [[]|e]; simpl; auto.
Qed.

(** X19.  The oldest variant accepts a configuration exactly when it is an
    object whose keys are all [transformers] and whose [transformers] is an
    array of strings and of pairs of a string and an object.  A tuple of
    the name alone is rejected, for lack of the object, although the
    message for tuples speaks of 1 or 2 elements. *)
Theorem oldest_variant_accepts_exactly :
  (forall config : json,
     isOk (ConfigAfterFlags.validateConfig config) = acceptablePairs config)
  /\
  (forall name : string,
     ConfigAfterFlags.checkTransformer (JArray [JString name])
     = Throw (newTypeError "config.transformers tuple second item must be an object"))
  /\
  (forall config transformers,
     ConfigAfterFlags.validateConfig config = Ok transformers ->
     exists props, config = JObject props
                   /\ getProp "transformers" props = Some (JArray transformers)).
Proof.
  split; [|split].
  - intros config. destruct config as [| b | n | s | items | props |]; try reflexivity.
    unfold ConfigAfterFlags.validateConfig, acceptablePairs.
    rewrite <- checkKeys_Ok_iff.
    destruct (WithConfig.checkKeys (map fst props)) as [[]|e]; [|reflexivity].
    simpl. destruct (getProp "transformers" props) as [[| b | n | s | items | ps |]|];
      try reflexivity.
    rewrite <- pairs_checkTransformers.
    destruct (ConfigAfterFlags.checkTransformers items); reflexivity.
  - reflexivity.
  - intros config transformers Hok.
    destruct config as [| b | n | s | items | props |]; try discriminate.
    unfold ConfigAfterFlags.validateConfig in Hok.
    destruct (WithConfig.checkKeys (map fst props)) as [[]|e]; [|discriminate].
    simpl in Hok.
    destruct (getProp "transformers" props) as [[| b | n | s | items | ps |]|] eqn:Hget;
      try discriminate.
    destruct (ConfigAfterFlags.checkTransformers items); [|discriminate].
    simpl in Hok. injection Hok as <-. eauto.
Qed.

Lemma oldest_variant_accepts_exactly_witness :
  exists props,
    JObject [("transformers", JArray [JString "a"; JArray [JString "b"; JObject []]])]
      = JObject props
    /\ getProp "transformers" props
       = Some (JArray [JString "a"; JArray [JString "b"; JObject []]]).
Proof.
  exact (proj2 (proj2 oldest_variant_accepts_exactly)
           (JObject [("transformers",
                      JArray [JString "a"; JArray [JString "b"; JObject []]])])
           [JString "a"; JArray [JString "b"; JObject []]] eq_refl).
Defined.

Lemma transformersOf_app : forall events1 events2,
  CliOnly.transformersOf (events1 ++ events2)
  = (CliOnly.transformersOf events1 ++ CliOnly.transformersOf events2)%list.
Proof. intros. unfold CliOnly.transformersOf. apply flat_map_app. Qed.

Lemma configOf_flags : forall events,
  Forall isTransformerFlag events -> ConfigAfterFlags.configOf events = None.
Proof.
  intros events Hall. induction Hall as [|[p|t] events Hflag _ IH];
    simpl; [reflexivity|destruct Hflag|exact IH].
Qed.

Lemma configOf_last : forall before configPath after,
  Forall isTransformerFlag after ->
  ConfigAfterFlags.configOf (before ++ OptConfig configPath :: after) = Some configPath.
Proof.
  induction before as [|[p|t] before IH]; intros configPath after Hafter; simpl.
  - rewrite (configOf_flags _ Hafter). reflexivity.
  - rewrite (IH _ _ Hafter). reflexivity.
  - apply IH. exact Hafter.
Qed.

(** X20.  In the oldest variant the transformers of the configuration file
    come after those of all the [--transformer] flags, also of the flags
    that follow [--config] on the command line, and of several [--config]
    flags only the last counts. *)
Theorem file_transformers_follow_all_flags :
  forall (w : World) (before after : list OptionEvent) (configPath : string)
         (fileTransformers : list json),
    Forall isTransformerFlag after ->
    ConfigAfterFlags.readConfigFile w (configStreamOf configPath) = Ok fileTransformers ->
    ConfigAfterFlags.assembled w (before ++ OptConfig configPath :: after)
    = Ok (map JString (CliOnly.transformersOf before)
            ++ map JString (CliOnly.transformersOf after)
            ++ fileTransformers)%list.
Proof.
  intros w before after configPath fileTransformers Hafter Hread.
  unfold ConfigAfterFlags.assembled.
  rewrite (configOf_last _ _ _ Hafter), Hread. simpl.
  rewrite transformersOf_app. simpl. rewrite map_app, <- app_assoc. reflexivity.
Qed.

Lemma file_transformers_follow_all_flags_witness :
  ConfigAfterFlags.assembled
    (Example.world "{}"
       (JObject [("transformers", JArray [JString "c"; JString "d"])])
       (Parsed [] false []))
    ([OptConfig "ignored.json"; OptTransformer "a"]
       ++ OptConfig Example.configPath :: [OptTransformer "b"])
  = Ok (map JString (CliOnly.transformersOf [OptConfig "ignored.json"; OptTransformer "a"])
          ++ map JString (CliOnly.transformersOf [OptTransformer "b"])
          ++ [JString "c"; JString "d"])%list.
Proof.
  apply (file_transformers_follow_all_flags
           (Example.world "{}"
              (JObject [("transformers", JArray [JString "c"; JString "d"])])
              (Parsed [] false []))
           [OptConfig "ignored.json"; OptTransformer "a"] [OptTransformer "b"]
           Example.configPath [JString "c"; JString "d"]).
  - repeat constructor.
  - reflexivity.
Defined.

(* ================================================================== *)
(** ** Counting options *)

Lemma countedOption_S : forall n,
  countedOption (S n) = Some (Z.of_nat (S n)).
Proof.
  induction n as [|n IH]; [reflexivity|].
  change (countedOption (S (S n))) with (Some (countOption (countedOption (S n)))).
  rewrite IH. unfold countOption.
  destruct (Z.eqb_spec (Z.of_nat (S n)) 0) as [H|_]; [lia|].
  f_equal. lia.
Qed.

(** X21.  [countOption] counts: after Commander has called it once for each
    occurrence of the flag, from [undefined], the option holds the number
    of occurrences, and stays [undefined] when the flag is absent; the
    verbosity of the command template is the number of [--verbose] less the
    number of [--quiet]. *)
Theorem countOption_counts :
  forall verbose quiet : nat,
    countedOption 0 = None
    /\ countedOption (S verbose) = Some (Z.of_nat (S verbose))
    /\ verbosity (countedOption verbose) (countedOption quiet)
       = (Z.of_nat verbose - Z.of_nat quiet)%Z.
Proof.
  intros verbose quiet. split; [reflexivity|]. split; [apply countedOption_S|].
  unfold verbosity.
  destruct verbose as [|verbose]; destruct quiet as [|quiet];
    rewrite ?countedOption_S; simpl countedOption;
    repeat match goal with
           | |- context [Z.eqb (Z.of_nat (S ?n)) 0] =>
               destruct (Z.eqb_spec (Z.of_nat (S n)) 0); [lia|]
           end; lia.
Qed.

(* ================================================================== *)
(** ** The exit code of the variant with flags only *)


